(** * Multimodal RAG: chat with videos -- retrieval pipeline

    A shallow embedding of the back end's retrieval-augmented context
    pipeline (transcript chunking, ingestion into the vector index, context
    assembly, the chat turn, the generation boundary and frame extraction),
    with the properties stated about it.

    Conventions of the embedding:
    - Python [int] is [Z]; Python [float] (distances, timestamps, scores)
      is an exact rational [Q], so rounding is not modelled;
    - Python [str] is [string] (a sequence of 8-bit characters); the
      whitespace recognised by [str.split] is the ASCII part of Python's;
    - a raised exception is the [Raise] case of [result];
    - a Python [dict] is a [gmap]; module-level and service state is passed
      explicitly. *)

From Stdlib Require Import ZArith QArith Ascii String List Lia.
From stdpp Require Import base option list sorting gmap strings pretty.

Open Scope string_scope.
Open Scope list_scope.
Open Scope Z_scope.

(** ** Exceptions and fallible computations *)

Record exception := Exn { exn_class : string; exn_msg : string }.

(** Python's [str(e)]. *)
Definition str_exn (e : exception) : string := exn_msg e.

Inductive result (A : Type) : Type :=
| Ok (a : A)
| Raise (e : exception).
Arguments Ok {A} a.
Arguments Raise {A} e.

(** Sequencing: the first exception raised ends the computation.  The
    notation [x ← c; k] is stdpp's, for this instance. *)
Definition result_bind {A B} (k : A -> result B) (r : result A) : result B :=
  match r with
  | Ok a => k a
  | Raise e => Raise e
  end.

#[export] Instance result_mbind : MBind result := @result_bind.
#[export] Instance result_mret : MRet result := @Ok.
#[export] Instance result_fmap : FMap result :=
  fun A B f r => match r with Ok a => Ok (f a) | Raise e => Raise e end.

(** ** Python sequence primitives *)

Module Py.

(** [str.isspace] on the ASCII range: TAB..CR, FS..US and the space. *)
Definition isspace (c : ascii) : bool :=
  let n := N_of_ascii c in
  ((9 <=? n)%N && (n <=? 13)%N) || ((28 <=? n)%N && (n <=? 32)%N).

(** [s.split()]: maximal runs of non-whitespace characters.  [cur] is the
    word being read. *)
Fixpoint split_from (cur : string) (s : string) : list string :=
  match s with
  | EmptyString => if String.eqb cur "" then [] else [cur]
  | String c s' =>
      if isspace c
      then (if String.eqb cur "" then split_from "" s'
            else cur :: split_from "" s')
      else split_from (cur +:+ String c "") s'
  end.

Definition split (s : string) : list string := split_from "" s.

(** [sep.join(parts)]. *)
Definition join (sep : string) (parts : list string) : string :=
  String.concat sep parts.

(** Clamping of a slice bound against a sequence of length [len]. *)
Definition slice_bound (len : Z) (x : Z) : Z :=
  if x <? 0 then Z.max 0 (len + x) else Z.min x len.

(** [l[lo:hi]]. *)
Definition slice {A} (l : list A) (lo hi : Z) : list A :=
  let len := Z.of_nat (length l) in
  let lo' := slice_bound len lo in
  let hi' := slice_bound len hi in
  firstn (Z.to_nat (hi' - lo')) (skipn (Z.to_nat lo') l).

(** [l[:hi]]. *)
Definition slice_to {A} (l : list A) (hi : Z) : list A := slice l 0 hi.

(** The loop of [range(start, stop, step)] for a positive step; at most
    [fuel] elements. *)
Fixpoint range_up (fuel : nat) (i stop step : Z) : list Z :=
  match fuel with
  | O => []
  | S fuel' =>
      if i <? stop then i :: range_up fuel' (i + step) stop step else []
  end.

Fixpoint range_down (fuel : nat) (i stop step : Z) : list Z :=
  match fuel with
  | O => []
  | S fuel' =>
      if stop <? i then i :: range_down fuel' (i + step) stop step else []
  end.

(** [range(start, stop, step)]; a zero step raises [ValueError]. *)
Definition range (start stop step : Z) : result (list Z) :=
  if step =? 0 then
    Raise (Exn "ValueError" "range() arg 3 must not be zero")
  else if 0 <? step then
    Ok (range_up (Z.to_nat (stop - start)) start stop step)
  else
    Ok (range_down (Z.to_nat (start - stop)) start stop step).

(** [sorted(l)] under the comparison [le]: a stable insertion sort, an
    element going before the first element it is [le] to. *)
Fixpoint insert_sorted {A} (le : A -> A -> bool) (x : A) (l : list A)
  : list A :=
  match l with
  | [] => [x]
  | y :: l' => if le x y then x :: y :: l' else y :: insert_sorted le x l'
  end.

Definition sorted {A} (le : A -> A -> bool) (l : list A) : list A :=
  foldr (insert_sorted le) [] l.

(** [l.sort(key=key, reverse=True)] for a numeric key: descending, equal
    keys keeping their order. *)
Definition sort_key_reverse {A} (key : A -> Q) (l : list A) : list A :=
  sorted (fun x y => Qle_bool (key y) (key x)) l.

(** [needle in haystack] for strings. *)
Definition contains (needle haystack : string) : bool :=
  match String.index 0 needle haystack with
  | Some _ => true
  | None => false
  end.

(** [enumerate(l)]. *)
Definition enumerate {A} (l : list A) : list (Z * A) :=
  imap (fun i x => (Z.of_nat i, x)) l.

End Py.

(** ** State and exceptions

    A method that mutates its object and may raise: the state reached when
    the exception is raised is kept, as in Python. *)

Definition St (S A : Type) : Type := S -> result A * S.

Definition st_ret {S A} (a : A) : St S A := fun s => (Ok a, s).

Definition st_bind {S A B} (k : A -> St S B) (m : St S A) : St S B :=
  fun s =>
    match m s with
    | (Ok a, s') => k a s'
    | (Raise e, s') => (Raise e, s')
    end.

#[export] Instance St_mret {S} : MRet (St S) := @st_ret S.
#[export] Instance St_mbind {S} : MBind (St S) := @st_bind S.

Definition st_get {S} : St S S := fun s => (Ok s, s).
Definition st_modify {S} (f : S -> S) : St S unit := fun s => (Ok tt, f s).

(** A computation without state of its own, run inside a method. *)
Definition st_lift {S A} (r : result A) : St S A := fun s => (r, s).

(** [try: body except Exception as e: handler e], on stateful code. *)
Definition st_try {S A} (body : St S A) (handler : exception -> St S A)
  : St S A :=
  fun s =>
    match body s with
    | (Ok a, s') => (Ok a, s')
    | (Raise e, s') => handler e s'
    end.

(** [for x in xs: body x]. *)
Fixpoint st_for {S A} (xs : list A) (body : A -> St S unit) : St S unit :=
  match xs with
  | [] => st_ret tt
  | x :: xs' => _ ← body x; st_for xs' body
  end.

(** Running a method of a component held in a field of the state. *)
Definition st_zoom {S T A} (get : S -> T) (set : T -> S -> S) (m : St T A)
  : St S A :=
  fun s => let '(r, t) := m (get s) in (r, set t s).

(** ** Data model ([app.models.video]) *)

(** A [datetime] is an instant; only its rendering [isoformat] is used. *)
Definition datetime : Type := Z.

Inductive VideoStatus := UPLOADING | PROCESSING | READY | ERROR.

Module VideoInfo.
Record t := mk {
  id : string;
  filename : string;
  original_filename : string;
  file_size : Z;
  duration : option Q;
  fps : option Q;
  resolution : option string;
  status : VideoStatus;
  uploaded_at : datetime;
  processed_at : option datetime;
  frame_count : option Z;
  transcript : option string;
  metadata : gmap string string
}.
End VideoInfo.

Module VideoFrame.
Record t := mk {
  id : string;
  video_id : string;
  timestamp : Q;
  frame_number : Z;
  image_path : string;
  description : option string;
  objects : list string;
  actions : list string;
  scene_description : option string
}.
End VideoFrame.

Module ChatMessage.
Record t := mk {
  id : string;
  video_id : string;
  role : string;
  content : string;
  timestamp : datetime;
  context_frames : list string
}.
End ChatMessage.

Module ChatRequest.
Record t := mk {
  video_id : string;
  message : string;
  use_vision : bool;
  max_context_frames : Z
}.
End ChatRequest.

Module ChatResponse.
Record t := mk {
  message_id : string;
  response : string;
  context_frames : list VideoFrame.t;
  confidence : Q;
  processing_time : Q
}.
End ChatResponse.

(** ** Settings ([app.core.config]), with their default values *)

Module Settings.
Record t := mk {
  FRAME_EXTRACTION_RATE : Z;
  MAX_FRAMES_PER_VIDEO : Z;
  LLM_MODEL : string
}.
End Settings.

Definition settings : Settings.t :=
  {| Settings.FRAME_EXTRACTION_RATE := 1;
     Settings.MAX_FRAMES_PER_VIDEO := 300;
     Settings.LLM_MODEL := "gpt-4-vision-preview" |}.

(** ** External collaborators

    The libraries and services the back end calls, as an interface: the
    sentence-embedding model, the metric of the index, the standard
    library's renderings, the identifier and clock sources, the video
    decoder, the transcriber and the file system. *)

Module Capture.
(** What [cv2.VideoCapture(path)] gives: the stream's properties and the
    frames that successive [read()] calls return. *)
Record t := mk {
  CAP_PROP_FPS : Q;
  CAP_PROP_FRAME_COUNT : Q;
  CAP_PROP_FRAME_WIDTH : Q;
  CAP_PROP_FRAME_HEIGHT : Q;
  frames : list string
}.
End Capture.

Class Collaborators := {
  (** [SentenceTransformer.encode(text).tolist()] *)
  encode : string -> result (list Q);
  (** the metric of the collections ([hnsw:space = cosine]) *)
  distance : list Q -> list Q -> Q;
  (** [json.dumps] of a list of strings *)
  json_dumps : list string -> string;
  (** the format [{:.2f}] *)
  format_2f : Q -> string;
  (** [datetime.isoformat()] *)
  isoformat : datetime -> string;
  (** [repr] of a list of strings, as an f-string renders it *)
  repr_list : list string -> string;
  (** [str(uuid.uuid4())], by the number of identifiers drawn before *)
  uuid4 : nat -> string;
  (** [datetime.now()] and [time.time()], by the number of clock readings
      made before *)
  datetime_now : nat -> datetime;
  time_time : nat -> Q;
  (** [cv2.VideoCapture] *)
  VideoCapture : string -> Capture.t;
  (** [whisper_model.transcribe(path)["text"]] *)
  whisper_transcribe : string -> result string;
  (** [os.path.getsize], [os.path.basename], [os.path.exists], reading a
      file opened in binary mode, and [base64.b64encode(..).decode()] *)
  getsize : string -> result Z;
  basename : string -> string;
  path_exists : string -> bool;
  read_file : string -> result string;
  b64encode : string -> string
}.

(** ** Vector index *)

Module Index.

(** A metadata value: Chroma accepts strings, integers, floats and
    booleans. *)
Inductive meta_value :=
| MStr (s : string)
| MInt (n : Z)
| MFloat (x : Q)
| MBool (b : bool).

#[export] Instance Q_eq_dec : EqDecision Q.
Proof. solve_decision. Defined.

#[export] Instance meta_value_eq_dec : EqDecision meta_value.
Proof. solve_decision. Defined.

(** The unit the index stores. *)
Record record := mk {
  id : string;
  embedding : list Q;
  document : string;
  metadata : gmap string meta_value
}.

(** Modelled from the spec: the collection object of the vector store is
    not part of the sources.  A namespace is a mapping from record id to
    (vector, document, metadata) with unique ids; it is kept here in
    insertion order, which breaks ties between equal distances. *)
Definition collection : Type := list record.

(** Modelled from the spec: the store's insertion of one record is not
    part of the sources.  Inserting an id that is present overwrites the
    record held under it; a new id is appended. *)
Fixpoint upsert (r : record) (c : collection) : collection :=
  match c with
  | [] => [r]
  | r' :: c' =>
      if String.eqb (id r') (id r) then r :: c' else r' :: upsert r c'
  end.

(** Modelled from the spec: the store's [add] is not part of the sources.
    [collection.add(embeddings=.., documents=.., metadatas=.., ids=..)]
    upserts the records the four lists describe, in order. *)
Fixpoint add (c : collection) (embeddings : list (list Q))
    (documents : list string) (metadatas : list (gmap string meta_value))
    (ids : list string) : collection :=
  match embeddings, documents, metadatas, ids with
  | e :: es, d :: ds, m :: ms, i :: is_ =>
      add (upsert (mk i e d m) c) es ds ms is_
  | _, _, _, _ => c
  end.

(** The filter [where]: every key of [where] is bound to the same value
    in the record's metadata. *)
Definition matches (where_ md : gmap string meta_value) : bool :=
  bool_decide (map_Forall (fun k v => md !! k = Some v) where_).

(** What [collection.query] returns: one inner list per query vector. *)
Record QueryResult := mkQueryResult {
  ids : list (list string);
  documents : list (list string);
  metadatas : list (list (gmap string meta_value));
  distances : list (list Q)
}.

(** Modelled from the spec: the store's nearest-neighbour search is not
    part of the sources.  The records whose metadata satisfies the filter,
    ascending by distance to the query vector, ties in insertion order,
    at most [n_results] of them. *)
Definition nearest `{Collaborators} (c : collection) (q : list Q)
    (n_results : Z) (where_ : gmap string meta_value)
  : list (record * Q) :=
  firstn (Z.to_nat n_results)
    (Py.sorted (fun a b => Qle_bool (snd a) (snd b))
       (map (fun r => (r, distance q (embedding r)))
          (List.filter (fun r => matches where_ (metadata r)) c))).

(** Modelled from the spec: the store's [query] is not part of the
    sources.  [collection.query(query_embeddings=.., n_results=..,
    where=..)]. *)
Definition query `{Collaborators} (c : collection)
    (query_embeddings : list (list Q)) (n_results : Z)
    (where_ : gmap string meta_value) : QueryResult :=
  let hits := map (fun q => nearest c q n_results where_) query_embeddings in
  {| ids := map (map (fun h => id (fst h))) hits;
     documents := map (map (fun h => document (fst h))) hits;
     metadatas := map (map (fun h => metadata (fst h))) hits;
     distances := map (map snd) hits |}.

End Index.
Export (hints) Index.

Import Index (MStr, MInt, MFloat, MBool).

(** ** Further Python primitives used by the services *)

(** [l[i]]: a negative index counts from the end; out of range raises
    [IndexError]. *)
Definition py_index {A} (l : list A) (i : Z) : result A :=
  let j := if i <? 0 then i + Z.of_nat (length l) else i in
  match (if j <? 0 then None else l !! Z.to_nat j) with
  | Some x => Ok x
  | None => Raise (Exn "IndexError" "list index out of range")
  end.

(** [d[k]]; a missing key raises [KeyError]. *)
Definition py_getitem {V} (d : gmap string V) (k : string) : result V :=
  match d !! k with
  | Some v => Ok v
  | None => Raise (Exn "KeyError" k)
  end.

(** Truth value of an [Optional[str]]: neither [None] nor empty. *)
Definition truthy_str (o : option string) : bool :=
  match o with
  | Some s => negb (String.eqb s "")
  | None => false
  end.

(** Truth value of a list: not empty. *)
Definition truthy_list {A} (l : list A) : bool :=
  match l with
  | [] => false
  | _ :: _ => true
  end.

(** [o or ""]. *)
Definition or_empty (o : option string) : string :=
  if truthy_str o then default "" o else "".

(** ** Chunker: [RAGService._chunk_transcript] *)

Definition _chunk_transcript (transcript : string) (chunk_size : Z)
  : result (list string) :=
  let words := Py.split transcript in
  idxs ← Py.range 0 (Z.of_nat (length words)) chunk_size;
  Ok (map (fun i => Py.join " " (Py.slice words i (i + chunk_size))) idxs).

Definition default_chunk_size : Z := 500.

(** ** The RAG service ([app.services.rag_service]) *)

Module RAGService.
(** The three collections the constructor opens. *)
Record t := mk {
  frames_collection : Index.collection;
  transcripts_collection : Index.collection;
  chat_collection : Index.collection
}.

Definition set_frames (c : Index.collection) (self : t) : t :=
  mk c (transcripts_collection self) (chat_collection self).
Definition set_transcripts (c : Index.collection) (self : t) : t :=
  mk (frames_collection self) c (chat_collection self).
Definition set_chat (c : Index.collection) (self : t) : t :=
  mk (frames_collection self) (transcripts_collection self) c.
End RAGService.

(** The context assembled for one chat turn. *)
Module FrameContext.
Record t := mk {
  frame_id : string;
  image_path : Index.meta_value;
  timestamp : Index.meta_value;
  description : string;
  relevance_score : Q
}.
End FrameContext.

Module Context.
Record t := mk {
  frames : list FrameContext.t;
  transcript : string
}.
End Context.

Module SearchResults.
Record t := mk {
  frames : Index.QueryResult;
  transcript : Index.QueryResult
}.
End SearchResults.

Section RAG.
Context `{Collaborators}.

Definition _create_frame_description (frame : VideoFrame.t) : string :=
  let description_parts : list string :=
    ((if truthy_str (VideoFrame.scene_description frame)
     then ["Scene: " +:+ default "" (VideoFrame.scene_description frame)]
     else [])
    ++ (if truthy_list (VideoFrame.objects frame)
        then ["Objects: " +:+ Py.join ", " (VideoFrame.objects frame)]
        else [])
    ++ (if truthy_list (VideoFrame.actions frame)
        then ["Actions: " +:+ Py.join ", " (VideoFrame.actions frame)]
        else [])
    ++ ["Timestamp: " +:+ format_2f (VideoFrame.timestamp frame)
          +:+ " seconds"])%list in
  Py.join " | " description_parts.

(** The metadata [_add_frames] stores with a frame. *)
Definition frame_metadata (frame : VideoFrame.t)
  : gmap string Index.meta_value :=
  list_to_map
    [("video_id", MStr (VideoFrame.video_id frame));
     ("frame_id", MStr (VideoFrame.id frame));
     ("timestamp", MFloat (VideoFrame.timestamp frame));
     ("frame_number", MInt (VideoFrame.frame_number frame));
     ("image_path", MStr (VideoFrame.image_path frame));
     ("type", MStr "frame");
     ("objects", MStr (json_dumps (VideoFrame.objects frame)));
     ("actions", MStr (json_dumps (VideoFrame.actions frame)));
     ("scene_description", MStr (or_empty (VideoFrame.scene_description frame)))].

(** The body of the loop of [_add_frames]. *)
Definition _add_frame (frame : VideoFrame.t) : St RAGService.t unit :=
  let frame_text := _create_frame_description frame in
  embedding ← st_lift (encode frame_text);
  st_modify (fun self =>
    RAGService.set_frames
      (Index.add (RAGService.frames_collection self)
         [embedding] [frame_text] [frame_metadata frame] [VideoFrame.id frame])
      self).

Definition _add_frames (frames : list VideoFrame.t) : St RAGService.t unit :=
  st_for frames _add_frame.

(** The body of the loop of [_add_transcript]. *)
Definition _add_chunk (video_info : VideoInfo.t) (ic : Z * string)
  : St RAGService.t unit :=
  let '(i, chunk) := ic in
  let chunk_id := VideoInfo.id video_info +:+ "_transcript_" +:+ pretty i in
  embedding ← st_lift (encode chunk);
  st_modify (fun self =>
    RAGService.set_transcripts
      (Index.add (RAGService.transcripts_collection self)
         [embedding] [chunk]
         [list_to_map
            [("video_id", MStr (VideoInfo.id video_info));
             ("chunk_index", MInt i);
             ("type", MStr "transcript");
             ("timestamp", MStr (isoformat (VideoInfo.uploaded_at video_info)))]]
         [chunk_id])
      self).

Definition _add_transcript (video_info : VideoInfo.t) : St RAGService.t unit :=
  if negb (truthy_str (VideoInfo.transcript video_info)) then mret tt
  else
    transcript_chunks ←
      st_lift (_chunk_transcript (default "" (VideoInfo.transcript video_info))
                 default_chunk_size);
    st_for (Py.enumerate transcript_chunks) (_add_chunk video_info).

Definition add_video_content (video_info : VideoInfo.t)
    (frames : list VideoFrame.t) : St RAGService.t unit :=
  _ ← (if truthy_str (VideoInfo.transcript video_info)
       then _add_transcript video_info else mret tt);
  _add_frames frames.

Definition search_relevant_content (self : RAGService.t) (query : string)
    (video_id : string) (max_results : Z) : result SearchResults.t :=
  query_embedding ← encode query;
  let frame_results :=
    Index.query (RAGService.frames_collection self) [query_embedding]
      max_results {[ "video_id" := MStr video_id ]} in
  let transcript_results :=
    Index.query (RAGService.transcripts_collection self) [query_embedding]
      max_results {[ "video_id" := MStr video_id ]} in
  Ok {| SearchResults.frames := frame_results;
        SearchResults.transcript := transcript_results |}.

(** The entry [get_context_for_chat] builds for the [i]-th frame hit. *)
Definition frame_entry (frames : Index.QueryResult) (i_frame_id : Z * string)
  : result FrameContext.t :=
  let '(i, frame_id) := i_frame_id in
  metadatas0 ← py_index (Index.metadatas frames) 0;
  metadata ← py_index metadatas0 i;
  distances0 ← py_index (Index.distances frames) 0;
  distance ← py_index distances0 i;
  image_path ← py_getitem metadata "image_path";
  timestamp ← py_getitem metadata "timestamp";
  documents0 ← py_index (Index.documents frames) 0;
  description ← py_index documents0 i;
  Ok {| FrameContext.frame_id := frame_id;
        FrameContext.image_path := image_path;
        FrameContext.timestamp := timestamp;
        FrameContext.description := description;
        FrameContext.relevance_score := (1 - distance)%Q |}.

(** The same entry, from the hit itself: the record found and its
    distance. *)
Definition entry_of_hit (h : Index.record * Q) : result FrameContext.t :=
  image_path ← py_getitem (Index.metadata (fst h)) "image_path";
  timestamp ← py_getitem (Index.metadata (fst h)) "timestamp";
  Ok {| FrameContext.frame_id := Index.id (fst h);
        FrameContext.image_path := image_path;
        FrameContext.timestamp := timestamp;
        FrameContext.description := Index.document (fst h);
        FrameContext.relevance_score := (1 - snd h)%Q |}.

Definition get_context_for_chat (self : RAGService.t) (query : string)
    (video_id : string) (max_frames : Z) : result Context.t :=
  search_results ← search_relevant_content self query video_id (max_frames * 2);
  let frames := SearchResults.frames search_results in
  relevant_frames ←
    (if truthy_list (Index.ids frames)
     then ids0 ← py_index (Index.ids frames) 0;
          mapM (frame_entry frames) (Py.enumerate ids0)
     else Ok []);
  let relevant_frames :=
    Py.sort_key_reverse FrameContext.relevance_score relevant_frames in
  let relevant_frames := Py.slice_to relevant_frames max_frames in
  let transcript := SearchResults.transcript search_results in
  relevant_transcript ←
    (if truthy_list (Index.documents transcript)
     then transcript_chunks ← py_index (Index.documents transcript) 0;
          Ok (Py.join " " transcript_chunks)
     else Ok "");
  Ok {| Context.frames := relevant_frames;
        Context.transcript := relevant_transcript |}.

Definition add_chat_message (message : ChatMessage.t) : St RAGService.t unit :=
  embedding ← st_lift (encode (ChatMessage.content message));
  st_modify (fun self =>
    RAGService.set_chat
      (Index.add (RAGService.chat_collection self)
         [embedding] [ChatMessage.content message]
         [list_to_map
            [("video_id", MStr (ChatMessage.video_id message));
             ("message_id", MStr (ChatMessage.id message));
             ("role", MStr (ChatMessage.role message));
             ("timestamp", MStr (isoformat (ChatMessage.timestamp message)));
             ("context_frames",
              MStr (json_dumps (ChatMessage.context_frames message)))]]
         [ChatMessage.id message])
      self).

End RAG.

(** ** Application state

    The index, the two module-level dictionaries of the routes, and the
    numbers of identifiers drawn and of clock readings made so far. *)

Module App.
Record t := mk {
  rag : RAGService.t;
  videos_db : gmap string VideoInfo.t;
  chat_messages_db : gmap string (list ChatMessage.t);
  uuid_draws : nat;
  clock_reads : nat
}.

Definition set_rag (r : RAGService.t) (s : t) : t :=
  mk r (videos_db s) (chat_messages_db s) (uuid_draws s) (clock_reads s).
Definition set_videos_db (d : gmap string VideoInfo.t) (s : t) : t :=
  mk (rag s) d (chat_messages_db s) (uuid_draws s) (clock_reads s).
Definition set_chat_messages_db (d : gmap string (list ChatMessage.t)) (s : t)
  : t :=
  mk (rag s) (videos_db s) d (uuid_draws s) (clock_reads s).
End App.

(** A method of the RAG service, called from a route. *)
Definition on_rag {A} (m : St RAGService.t A) : St App.t A :=
  st_zoom App.rag App.set_rag m.

Section Sources.
Context `{Collaborators}.

(** [str(uuid.uuid4())] *)
Definition draw_uuid4 : St App.t string :=
  fun s =>
    (Ok (uuid4 (App.uuid_draws s)),
     App.mk (App.rag s) (App.videos_db s) (App.chat_messages_db s)
       (S (App.uuid_draws s)) (App.clock_reads s)).

Definition read_clock : St App.t nat :=
  fun s =>
    (Ok (App.clock_reads s),
     App.mk (App.rag s) (App.videos_db s) (App.chat_messages_db s)
       (App.uuid_draws s) (S (App.clock_reads s))).

(** [datetime.now()] *)
Definition now : St App.t datetime := n ← read_clock; mret (datetime_now n).

(** [time.time()] *)
Definition time : St App.t Q := n ← read_clock; mret (time_time n).

End Sources.

(** ** The generation boundary ([app.services.llm_service]) *)

Module LLM.
(** One part of a message's content. *)
Inductive part :=
| Text (s : string)
| ImageUrl (url : string) (detail : string)
| ImageBase64 (media_type : string) (data : string).

Inductive content :=
| Plain (s : string)
| Parts (l : list part).

Record message := mkMessage { role : string; body : content }.

Record request := mkRequest {
  model : string;
  messages : list message;
  max_tokens : Z;
  temperature : Q
}.

(** A provider's completion call: the text of the first choice, or an
    exception. *)
Definition client : Type := request -> result string.
End LLM.

Module LLMResponse.
(** The dictionary a generation returns. *)
Record t := mk {
  content : string;
  confidence : Q;
  processing_time : option Q
}.
End LLMResponse.

Module LLMService.
Record t := mk {
  openai_client : option LLM.client;
  anthropic_client : option LLM.client
}.
End LLMService.

(** [s.replace(old, new)] for a non-empty [old]; [skip] characters of a
    match are still to be dropped. *)
Fixpoint replace_from (skip : nat) (old new s : string) : string :=
  match s with
  | EmptyString => EmptyString
  | String c s' =>
      match skip with
      | S k => replace_from k old new s'
      | O =>
          if String.prefix old s
          then new +:+ replace_from (Nat.pred (String.length old)) old new s'
          else String c (replace_from O old new s')
      end
  end.

Definition str_replace (s old new : string) : string := replace_from O old new s.

Section Generation.
Context `{Collaborators}.

Definition system_prompt_vision : string :=
  "You are a helpful assistant that can analyze videos and answer questions about them. 
                You have access to video frames and transcript information. 
                Provide detailed, accurate responses based on the visual and audio content you can see.".

(** The body of the image loops: the frame's file, if it can be had.  An
    exception is caught, reported and the frame skipped. *)
Definition load_frame_image (frame : FrameContext.t) : option string :=
  match FrameContext.image_path frame with
  | MStr p =>
      let image_path := str_replace p "/static/" "./data/" in
      if path_exists image_path then
        match read_file image_path with
        | Ok data => Some (b64encode data)
        | Raise _ => None
        end
      else None
  | _ => None
  end.

Definition _generate_openai_vision_response (self : LLMService.t)
    (message : string) (context : Context.t) : result LLMResponse.t :=
  match LLMService.openai_client self with
  | None => Raise (Exn "Exception" "OpenAI client not configured")
  | Some create =>
      let messages :=
        ([LLM.mkMessage "system" (LLM.Plain system_prompt_vision)]
         ++ (if negb (String.eqb (Context.transcript context) "")
             then [LLM.mkMessage "user"
                     (LLM.Plain ("Video transcript: "
                                 +:+ Context.transcript context))]
             else []))%list in
      let content_parts :=
        (LLM.Text message
         :: omap (fun frame =>
                    data ← load_frame_image frame;
                    Some (LLM.ImageUrl ("data:image/jpeg;base64," +:+ data)
                            "high"))
              (Context.frames context)) in
      let messages :=
        (messages ++ [LLM.mkMessage "user" (LLM.Parts content_parts)])%list in
      text ← create (LLM.mkRequest (Settings.LLM_MODEL settings) messages
                       1000 (7 # 10));
      Ok (LLMResponse.mk text (9 # 10) None)
  end.

Definition _generate_anthropic_vision_response (self : LLMService.t)
    (message : string) (context : Context.t) : result LLMResponse.t :=
  match LLMService.anthropic_client self with
  | None => Raise (Exn "Exception" "Anthropic client not configured")
  | Some create =>
      let content :=
        (LLM.Text
           ("You are a helpful assistant that can analyze videos and answer questions about them.
                
                Video transcript: " +:+ Context.transcript context +:+ "
                
                User question: " +:+ message +:+ "
                
                Please analyze the video frames and provide a detailed response.")
         :: omap (fun frame =>
                    data ← load_frame_image frame;
                    Some (LLM.ImageBase64 "image/jpeg" data))
              (Context.frames context)) in
      text ← create (LLM.mkRequest "claude-3-sonnet-20240229"
                       [LLM.mkMessage "user" (LLM.Parts content)]
                       1000 (7 # 10));
      Ok (LLMResponse.mk text (9 # 10) None)
  end.

Definition _generate_openai_text_response (create : LLM.client)
    (message : string) (context : Context.t) : result LLMResponse.t :=
  let messages :=
    [LLM.mkMessage "system"
       (LLM.Plain "You are a helpful assistant that can analyze videos and answer questions about them.");
     LLM.mkMessage "user"
       (LLM.Plain
          ("Video transcript: " +:+ Context.transcript context +:+ "
                
                Frame descriptions: "
           +:+ repr_list (map FrameContext.description (Context.frames context))
           +:+ "
                
                User question: " +:+ message))] in
  text ← create (LLM.mkRequest "gpt-4" messages 1000 (7 # 10));
  Ok (LLMResponse.mk text (8 # 10) None).

Definition _generate_anthropic_text_response (create : LLM.client)
    (message : string) (context : Context.t) : result LLMResponse.t :=
  let content :=
    "Video transcript: " +:+ Context.transcript context +:+ "

Frame descriptions: "
    +:+ repr_list (map FrameContext.description (Context.frames context))
    +:+ "

User question: " +:+ message in
  text ← create (LLM.mkRequest "claude-3-sonnet-20240229"
                   [LLM.mkMessage "user" (LLM.Plain content)] 1000 (7 # 10));
  Ok (LLMResponse.mk text (8 # 10) None).

Definition _generate_text_only_response (self : LLMService.t)
    (message : string) (context : Context.t) : result LLMResponse.t :=
  match LLMService.openai_client self, LLMService.anthropic_client self with
  | Some create, _ => _generate_openai_text_response create message context
  | None, Some create =>
      _generate_anthropic_text_response create message context
  | None, None =>
      Ok (LLMResponse.mk
            "I apologize, but no LLM service is configured. Please set up OpenAI or Anthropic API keys in your .env file."
            0 None)
  end.

(** The provider chosen inside the [try] of [generate_response]. *)
Definition dispatch_generation (self : LLMService.t) (message : string)
    (context : Context.t) (use_vision : bool) : result LLMResponse.t :=
  if use_vision && truthy_list (Context.frames context) then
    if bool_decide (is_Some (LLMService.openai_client self))
       && Py.contains "gpt-4" (Settings.LLM_MODEL settings)
    then _generate_openai_vision_response self message context
    else if bool_decide (is_Some (LLMService.anthropic_client self))
    then _generate_anthropic_vision_response self message context
    else _generate_text_only_response self message context
  else _generate_text_only_response self message context.

Definition generate_response (self : LLMService.t) (message : string)
    (context : Context.t) (use_vision : bool) : St App.t LLMResponse.t :=
  start_time ← time;
  st_try
    (response ← st_lift (dispatch_generation self message context use_vision);
     end_time ← time;
     let processing_time := (end_time - start_time)%Q in
     mret (LLMResponse.mk (LLMResponse.content response)
             (LLMResponse.confidence response) (Some processing_time)))
    (fun e =>
       end_time ← time;
       mret (LLMResponse.mk
               ("I apologize, but I encountered an error: " +:+ str_exn e)
               0 (Some (end_time - start_time)%Q))).

End Generation.

(** ** The video processor ([app.services.video_processor]) *)

(** [int(x)] of a float: truncation towards zero. *)
Definition py_int (x : Q) : Z := Z.quot (Qnum x) (Zpos (Qden x)).

(** [a % b] on integers; a zero divisor raises [ZeroDivisionError]. *)
Definition py_mod (a b : Z) : result Z :=
  if b =? 0 then
    Raise (Exn "ZeroDivisionError" "integer division or modulo by zero")
  else Ok (a mod b).

(** [a / b] with a float divisor. *)
Definition py_truediv (a : Z) (b : Q) : result Q :=
  if Qeq_bool b 0 then Raise (Exn "ZeroDivisionError" "float division by zero")
  else Ok (inject_Z a / b)%Q.

(** The format [{:04d}]: sign, then zeros up to four characters. *)
Definition format_04d (n : Z) : string :=
  let digits : string := pretty (Z.abs n) in
  let sign : string := if n <? 0 then "-" else "" in
  let width := (4 - String.length sign - String.length digits)%nat in
  sign +:+ String.concat "" (replicate width "0") +:+ digits.

Definition set_status (st : VideoStatus) (v : VideoInfo.t) : VideoInfo.t :=
  VideoInfo.mk (VideoInfo.id v) (VideoInfo.filename v)
    (VideoInfo.original_filename v) (VideoInfo.file_size v)
    (VideoInfo.duration v) (VideoInfo.fps v) (VideoInfo.resolution v) st
    (VideoInfo.uploaded_at v) (VideoInfo.processed_at v)
    (VideoInfo.frame_count v) (VideoInfo.transcript v) (VideoInfo.metadata v).

Definition set_processed_at (t : datetime) (v : VideoInfo.t) : VideoInfo.t :=
  VideoInfo.mk (VideoInfo.id v) (VideoInfo.filename v)
    (VideoInfo.original_filename v) (VideoInfo.file_size v)
    (VideoInfo.duration v) (VideoInfo.fps v) (VideoInfo.resolution v)
    (VideoInfo.status v) (VideoInfo.uploaded_at v) (Some t)
    (VideoInfo.frame_count v) (VideoInfo.transcript v) (VideoInfo.metadata v).

Definition set_frame_count (n : Z) (v : VideoInfo.t) : VideoInfo.t :=
  VideoInfo.mk (VideoInfo.id v) (VideoInfo.filename v)
    (VideoInfo.original_filename v) (VideoInfo.file_size v)
    (VideoInfo.duration v) (VideoInfo.fps v) (VideoInfo.resolution v)
    (VideoInfo.status v) (VideoInfo.uploaded_at v) (VideoInfo.processed_at v)
    (Some n) (VideoInfo.transcript v) (VideoInfo.metadata v).

Definition set_transcript (t : string) (v : VideoInfo.t) : VideoInfo.t :=
  VideoInfo.mk (VideoInfo.id v) (VideoInfo.filename v)
    (VideoInfo.original_filename v) (VideoInfo.file_size v)
    (VideoInfo.duration v) (VideoInfo.fps v) (VideoInfo.resolution v)
    (VideoInfo.status v) (VideoInfo.uploaded_at v) (VideoInfo.processed_at v)
    (VideoInfo.frame_count v) (Some t) (VideoInfo.metadata v).

Definition set_metadata (m : gmap string string) (v : VideoInfo.t)
  : VideoInfo.t :=
  VideoInfo.mk (VideoInfo.id v) (VideoInfo.filename v)
    (VideoInfo.original_filename v) (VideoInfo.file_size v)
    (VideoInfo.duration v) (VideoInfo.fps v) (VideoInfo.resolution v)
    (VideoInfo.status v) (VideoInfo.uploaded_at v) (VideoInfo.processed_at v)
    (VideoInfo.frame_count v) (VideoInfo.transcript v) m.

Section VideoProcessor.
Context `{Collaborators}.

Definition _extract_video_metadata (video_path video_id : string)
  : St App.t VideoInfo.t :=
  let cap := VideoCapture video_path in
  let fps := Capture.CAP_PROP_FPS cap in
  let frame_count := py_int (Capture.CAP_PROP_FRAME_COUNT cap) in
  let duration :=
    if Qlt_le_dec 0 fps then (inject_Z frame_count / fps)%Q else 0%Q in
  let width := py_int (Capture.CAP_PROP_FRAME_WIDTH cap) in
  let height := py_int (Capture.CAP_PROP_FRAME_HEIGHT cap) in
  let resolution : string := pretty width +:+ "x" +:+ pretty height in
  file_size ← st_lift (getsize video_path);
  uploaded_at ← now;
  mret (VideoInfo.mk video_id (basename video_path) (basename video_path)
          file_size (Some duration) (Some fps) (Some resolution) PROCESSING
          uploaded_at None None None ∅).

(** The [while True] loop of [_extract_frames]: [reads] are the frames that
    [cap.read()] still has to return; the loop ends when they are used up. *)
Fixpoint extract_loop (video_id : string) (fps : Q) (frame_interval : Z)
    (reads : list string) (frame_count extracted_count : Z)
    (frames : list VideoFrame.t) : St App.t (list VideoFrame.t) :=
  match reads with
  | [] => mret frames
  | _ :: reads' =>
      m ← st_lift (py_mod frame_count frame_interval);
      if (m =? 0)
         && (extracted_count <? Settings.MAX_FRAMES_PER_VIDEO settings)
      then
        let frame_filename : string :=
          "frame_" +:+ format_04d extracted_count +:+ ".jpg" in
        timestamp ← st_lift (py_truediv frame_count fps);
        id ← draw_uuid4;
        let frame_obj :=
          VideoFrame.mk id video_id timestamp extracted_count
            ("/static/frames/" +:+ video_id +:+ "/" +:+ frame_filename)
            None [] [] None in
        extract_loop video_id fps frame_interval reads'
          (frame_count + 1) (extracted_count + 1) (frames ++ [frame_obj])
      else
        extract_loop video_id fps frame_interval reads'
          (frame_count + 1) extracted_count frames
  end.

(** The frame files written along the way are an effect on the file system,
    which the state does not hold. *)
Definition _extract_frames (video_path video_id : string)
  : St App.t (list VideoFrame.t) :=
  let cap := VideoCapture video_path in
  let fps := Capture.CAP_PROP_FPS cap in
  let frame_interval :=
    py_int (fps * inject_Z (Settings.FRAME_EXTRACTION_RATE settings))%Q in
  extract_loop video_id fps frame_interval (Capture.frames cap) 0 0 [].

Definition _transcribe_audio (video_path : string) : string :=
  match whisper_transcribe video_path with
  | Ok text => text
  | Raise _ => ""
  end.

(** The placeholder analysis, written into each frame object. *)
Definition _analyze_frames (frames : list VideoFrame.t) : list VideoFrame.t :=
  map (fun frame =>
         VideoFrame.mk (VideoFrame.id frame) (VideoFrame.video_id frame)
           (VideoFrame.timestamp frame) (VideoFrame.frame_number frame)
           (VideoFrame.image_path frame) (VideoFrame.description frame)
           ["object1"; "object2"] ["action1"]
           (Some "A scene with various objects and activities"))
    frames.

Definition process_video (video_path video_id : string)
  : St App.t VideoInfo.t :=
  st_try
    (video_info ← _extract_video_metadata video_path video_id;
     frames ← _extract_frames video_path video_id;
     let video_info :=
       set_frame_count (Z.of_nat (length frames)) video_info in
     let transcript := _transcribe_audio video_path in
     let video_info := set_transcript transcript video_info in
     let frames := _analyze_frames frames in
     let video_info := set_status READY video_info in
     processed_at ← now;
     mret (set_processed_at processed_at video_info))
    (fun e =>
       file_size ← st_lift (getsize video_path);
       uploaded_at ← now;
       mret (VideoInfo.mk video_id (basename video_path)
               (basename video_path) file_size None None None ERROR
               uploaded_at None None None {[ "error" := str_exn e ]})).

(** "For now, return empty list". *)
Definition get_video_frames (video_id : string) : St App.t (list VideoFrame.t) :=
  mret [].

End VideoProcessor.

(** ** The routes ([app.api.routes]) *)

Section Routes.
Context `{Collaborators}.

(** [if video_id in videos_db: videos_db[video_id].status = st] *)
Definition mark_status (video_id : string) (st : VideoStatus) : St App.t unit :=
  st_modify (fun s =>
    App.set_videos_db (alter (set_status st) video_id (App.videos_db s)) s).

Definition process_video_background (video_id video_path : string)
  : St App.t unit :=
  st_try
    (_ ← mark_status video_id PROCESSING;
     video_info ← process_video video_path video_id;
     _ ← st_modify (fun s =>
           App.set_videos_db (<[video_id := video_info]> (App.videos_db s)) s);
     frames ← get_video_frames video_id;
     on_rag (add_video_content video_info frames))
    (fun e =>
       st_modify (fun s =>
         App.set_videos_db
           (alter (fun v =>
                     set_metadata (<["error" := str_exn e]> (VideoInfo.metadata v))
                       (set_status ERROR v))
              video_id (App.videos_db s)) s)).

(** The float a [VideoFrame] is validated to hold. *)
Definition as_float (v : Index.meta_value) : result Q :=
  match v with
  | MFloat x => Ok x
  | MInt n => Ok (inject_Z n)
  | _ => Raise (Exn "ValidationError" "timestamp")
  end.

Definition as_str (v : Index.meta_value) : result string :=
  match v with
  | MStr s => Ok s
  | _ => Raise (Exn "ValidationError" "image_path")
  end.

(** [chat_messages_db[video_id].append(m)] *)
Definition append_message (video_id : string) (m : ChatMessage.t)
  : St App.t unit :=
  fun s =>
    match App.chat_messages_db s !! video_id with
    | Some l =>
        (Ok tt,
         App.set_chat_messages_db
           (<[video_id := (l ++ [m])%list]> (App.chat_messages_db s)) s)
    | None => (Raise (Exn "KeyError" video_id), s)
    end.

Definition chat_with_video (llm_service : LLMService.t)
    (request : ChatRequest.t) : St App.t ChatResponse.t :=
  let video_id := ChatRequest.video_id request in
  s ← st_get;
  context ← st_lift
    (get_context_for_chat (App.rag s) (ChatRequest.message request) video_id
       (ChatRequest.max_context_frames request));
  response ← generate_response llm_service (ChatRequest.message request)
    context (ChatRequest.use_vision request);
  message_id ← draw_uuid4;
  timestamp ← now;
  let chat_message :=
    ChatMessage.mk message_id video_id "user" (ChatRequest.message request)
      timestamp (map FrameContext.frame_id (Context.frames context)) in
  _ ← st_modify (fun s =>
        match App.chat_messages_db s !! video_id with
        | Some _ => s
        | None =>
            App.set_chat_messages_db
              (<[video_id := []]> (App.chat_messages_db s)) s
        end);
  _ ← append_message video_id chat_message;
  _ ← on_rag (add_chat_message chat_message);
  assistant_id ← draw_uuid4;
  timestamp ← now;
  let assistant_message :=
    ChatMessage.mk assistant_id video_id "assistant"
      (LLMResponse.content response) timestamp
      (map FrameContext.frame_id (Context.frames context)) in
  _ ← append_message video_id assistant_message;
  context_frames ← st_lift
    (mapM (fun frame_data =>
             timestamp ← as_float (FrameContext.timestamp frame_data);
             image_path ← as_str (FrameContext.image_path frame_data);
             Ok (VideoFrame.mk (FrameContext.frame_id frame_data) video_id
                   timestamp 0 image_path
                   (Some (FrameContext.description frame_data)) [] [] None))
       (Context.frames context));
  mret (ChatResponse.mk (ChatMessage.id assistant_message)
          (LLMResponse.content response) context_frames
          (LLMResponse.confidence response)
          (default 0%Q (LLMResponse.processing_time response))).

(** The requests that change the state: the background task of an upload
    and a chat turn.  [serve] handles a sequence of them, whatever each one
    answers. *)
Inductive request :=
| Upload (video_id video_path : string)
| Chat (llm_service : LLMService.t) (request : ChatRequest.t).

Definition handle (r : request) : St App.t unit :=
  match r with
  | Upload video_id video_path => process_video_background video_id video_path
  | Chat llm_service request =>
      _ ← chat_with_video llm_service request; mret tt
  end.

Definition serve (requests : list request) (s : App.t) : App.t :=
  foldl (fun s r => snd (handle r s)) s requests.

End Routes.

(** ** A concrete set of collaborators

    Used to run the services on concrete inputs.  Embeddings are unit
    vectors of the plane, on which the cosine distance is exactly one minus
    the inner product. *)

Module Demo.

Definition dot (a b : list Q) : Q :=
  foldr Qplus 0%Q (zip_with Qmult a b).

Definition cosine_distance_unit (a b : list Q) : Q := (1 - dot a b)%Q.

(** The texts the embedder knows; any other text lies on the second axis,
    and the text ["<corrupt>"] makes the embedder fail. *)
Definition known_texts : list (string * list Q) :=
  [("cat", [1; 0]%Q);
   ("Objects: cat | Timestamp: 1.00 seconds", [1; 0]%Q);
   ("Objects: dog | Timestamp: 2.00 seconds", [3 # 5; 4 # 5]%Q);
   ("Objects: car | Timestamp: 3.00 seconds", [- (3 # 5); 4 # 5]%Q);
   ("Objects: sea | Timestamp: 4.00 seconds", [-1; 0]%Q)].

Fixpoint lookup_text (text : string) (table : list (string * list Q))
  : list Q :=
  match table with
  | [] => [0; 1]%Q
  | (t, v) :: table' => if String.eqb t text then v else lookup_text text table'
  end.

Definition encode (text : string) : result (list Q) :=
  if Py.contains "<corrupt>" text
  then Raise (Exn "RuntimeError" "embedding failed")
  else Ok (lookup_text text known_texts).

Definition quote : string := String (ascii_of_nat 34) EmptyString.

Definition json_dumps (l : list string) : string :=
  "[" +:+ Py.join ", " (map (fun s => quote +:+ s +:+ quote) l) +:+ "]".

Definition repr_list (l : list string) : string :=
  "[" +:+ Py.join ", " (map (fun s => "'" +:+ s +:+ "'") l) +:+ "]".

Definition two_digits (n : Z) : string :=
  (if n <? 10 then "0" else "") +:+ pretty n.

(** Two decimals of a non-negative rational (truncated). *)
Definition format_2f (x : Q) : string :=
  pretty (py_int x) +:+ "."
  +:+ two_digits (py_int (x * 100)%Q mod 100).

(** A clip of [n] frames at [fps] frames per second. *)
Definition clip (fps : Q) (n : nat) : Capture.t :=
  Capture.mk fps (inject_Z (Z.of_nat n)) 640 480 (replicate n "jpeg").

Definition VideoCapture (path : string) : Capture.t :=
  if String.eqb path "long.mp4" then clip 2 1000
  else if String.eqb path "still.mp4" then clip 0 3
  else clip (5 # 2) 7.

#[export] Instance collaborators : Collaborators :=
  Build_Collaborators
    encode
    cosine_distance_unit
    json_dumps
    format_2f
    (fun t => pretty t)
    repr_list
    (fun n => "uuid-" +:+ pretty n)
    (fun n => Z.of_nat n)
    (fun n => inject_Z (Z.of_nat n))
    VideoCapture
    (fun _ => Ok "the cat sat on the mat")
    (fun _ => Ok 1024)
    (fun p => p)
    (fun _ => false)
    (fun _ => Raise (Exn "FileNotFoundError" "no such file"))
    (fun s => s).

Definition frame (id video_id : string) (timestamp : Q) (n : Z)
    (objects : list string) : VideoFrame.t :=
  VideoFrame.mk id video_id timestamp n
    ("/static/frames/" +:+ video_id +:+ "/frame_" +:+ format_04d n +:+ ".jpg")
    None objects [] None.

Definition empty_rag : RAGService.t := RAGService.mk [] [] [].

Definition empty_app : App.t := App.mk empty_rag ∅ ∅ O O.

(** Frames of two videos, as they would be handed to the ingestion. *)
Definition cat_frame : VideoFrame.t := frame "f1" "A" 1 0 ["cat"].
Definition dog_frame : VideoFrame.t := frame "f2" "B" 2 1 ["dog"].
Definition car_frame : VideoFrame.t := frame "f3" "A" 3 2 ["car"].
Definition sea_frame : VideoFrame.t := frame "f4" "A" 4 3 ["sea"].
Definition corrupt_frame : VideoFrame.t := frame "f5" "A" 5 4 ["<corrupt>"].

(** The index after the four good frames are ingested. *)
Definition two_videos : RAGService.t :=
  snd (_add_frames [cat_frame; dog_frame; car_frame; sea_frame] empty_rag).

(** A provider whose completion call fails. *)
Definition failing_client : LLM.client :=
  fun _ => Raise (Exn "APIError" "rate limit exceeded").

Definition echo_client : LLM.client := fun _ => Ok "It shows a cat.".

End Demo.

(** ** The remaining routes and constructors *)

(** Further settings ([app.core.config]), with their default values. *)
Definition MAX_FILE_SIZE : Z := 100 * 1024 * 1024.
Definition UPLOAD_DIR : string := "./data/videos".

(** [HTTPException(status_code, detail)]; its text is that of Starlette. *)
Definition HTTPException (status_code : Z) (detail : string) : exception :=
  Exn "HTTPException" (pretty status_code +:+ ": " +:+ detail).

(** [os.path.join(a, b)] on POSIX paths. *)
Definition path_join (a b : string) : string :=
  if String.prefix "/" b then b
  else if String.eqb a "" then b
  else if String.eqb (String.substring (String.length a - 1) 1 a) "/"
       then a +:+ b
       else a +:+ "/" +:+ b.

(** The chat routes ([app.api.routes.chat]) besides the chat turn. *)
Definition get_chat_history (video_id : string)
  : St App.t (list ChatMessage.t) :=
  s ← st_get;
  match App.chat_messages_db s !! video_id with
  | None => mret []
  | Some messages => mret messages
  end.

Definition clear_chat_history (video_id : string) : St App.t string :=
  _ ← st_modify (fun s =>
        match App.chat_messages_db s !! video_id with
        | Some _ =>
            App.set_chat_messages_db
              (<[video_id := []]> (App.chat_messages_db s)) s
        | None => s
        end);
  mret "Chat history cleared".

(** What the client sends to [upload_video]: the fields of the
    [UploadFile], each of which may be absent, and the bytes. *)
Module UploadFile.
Record t := mk {
  filename : option string;
  content_type : option string;
  size : option Z;
  content : string
}.
End UploadFile.

Module VideoUploadResponse.
Record t := mk {
  video_id : string;
  status : VideoStatus;
  message : string
}.
End VideoUploadResponse.

Module FileResponse.
Record t := mk {
  path : string;
  media_type : string;
  filename : string
}.
End FileResponse.

(** What [upload_video] needs beside the collaborators above: writing the
    uploaded bytes, the [time] field of a fresh UUID (by the number of
    identifiers drawn before), and the validation that turns this integer
    into the [datetime] of a [VideoInfo]. *)
Class UploadCollaborators := {
  write_file : string -> string -> result unit;
  uuid4_time : nat -> Z;
  validate_datetime : Z -> result datetime
}.

(** The video routes ([app.api.routes.videos]). *)
Module Videos.
Section Routes.
Context `{Collaborators} `{UploadCollaborators}.

(** [str(x)] inside an f-string, for an optional string. *)
Definition str_option (o : option string) : string := default "None" o.

(** [uuid.uuid4().time] *)
Definition draw_uuid4_time : St App.t Z :=
  fun s =>
    (Ok (uuid4_time (App.uuid_draws s)),
     App.mk (App.rag s) (App.videos_db s) (App.chat_messages_db s)
       (S (App.uuid_draws s)) (App.clock_reads s)).

(** The response, and the task handed to [background_tasks.add_task], which
    runs after the response is sent. *)
Definition upload_video (file : UploadFile.t)
  : St App.t (VideoUploadResponse.t * request) :=
  content_type ← st_lift
    (match UploadFile.content_type file with
     | Some c => Ok c
     | None =>
         Raise (Exn "AttributeError"
                  "'NoneType' object has no attribute 'startswith'")
     end);
  if negb (String.prefix "video/" content_type)
  then st_lift (Raise (HTTPException 400 "File must be a video"))
  else
    size ← st_lift
      (match UploadFile.size file with
       | Some n => Ok n
       | None =>
           Raise (Exn "TypeError"
                    "'>' not supported between instances of 'NoneType' and 'int'")
       end);
    if MAX_FILE_SIZE <? size
    then st_lift (Raise (HTTPException 400 "File too large"))
    else
      video_id ← draw_uuid4;
      let video_filename :=
        video_id +:+ "_" +:+ str_option (UploadFile.filename file) in
      let video_path := path_join UPLOAD_DIR video_filename in
      _ ← st_lift (write_file video_path (UploadFile.content file));
      time ← draw_uuid4_time;
      uploaded_at ← st_lift (validate_datetime time);
      let video_info :=
        VideoInfo.mk video_id video_filename
          (if truthy_str (UploadFile.filename file)
           then default "" (UploadFile.filename file) else "unknown")
          size None None None UPLOADING uploaded_at None None None ∅ in
      _ ← st_modify (fun s =>
            App.set_videos_db (<[video_id := video_info]> (App.videos_db s)) s);
      mret (VideoUploadResponse.mk video_id UPLOADING
              "Video uploaded successfully. Processing in background.",
            Upload video_id video_path).

Definition get_video_info (video_id : string) : St App.t VideoInfo.t :=
  s ← st_get;
  match App.videos_db s !! video_id with
  | None => st_lift (Raise (HTTPException 404 "Video not found"))
  | Some video_info => mret video_info
  end.

(** "For now, return empty list". *)
Definition get_video_frames (video_id : string)
  : St App.t (list VideoFrame.t) :=
  s ← st_get;
  match App.videos_db s !! video_id with
  | None => st_lift (Raise (HTTPException 404 "Video not found"))
  | Some _ => mret []
  end.

Definition get_video_transcript (video_id : string)
  : St App.t (option string) :=
  s ← st_get;
  match App.videos_db s !! video_id with
  | None => st_lift (Raise (HTTPException 404 "Video not found"))
  | Some video_info => mret (VideoInfo.transcript video_info)
  end.

Definition stream_video (video_id : string) : St App.t FileResponse.t :=
  s ← st_get;
  match App.videos_db s !! video_id with
  | None => st_lift (Raise (HTTPException 404 "Video not found"))
  | Some video_info =>
      let video_path := path_join UPLOAD_DIR (VideoInfo.filename video_info) in
      if negb (path_exists video_path)
      then st_lift (Raise (HTTPException 404 "Video file not found"))
      else mret (FileResponse.mk video_path "video/mp4"
                   (VideoInfo.original_filename video_info))
  end.

End Routes.
End Videos.

(** [LLMService.__init__]: a client is built only for a key that is set and
    is not the placeholder; a constructor that raises leaves no client.
    [OpenAI] and [Anthropic] are the constructors of the two libraries. *)
Definition LLMService_init (OPENAI_API_KEY ANTHROPIC_API_KEY : option string)
    (OpenAI Anthropic : string -> result LLM.client) : LLMService.t :=
  let openai_client :=
    if truthy_str OPENAI_API_KEY
       && negb (String.eqb (default "" OPENAI_API_KEY) "your_openai_key")
    then match OpenAI (default "" OPENAI_API_KEY) with
         | Ok client => Some client
         | Raise _ => None
         end
    else None in
  let anthropic_client :=
    if truthy_str ANTHROPIC_API_KEY
       && negb (String.eqb (default "" ANTHROPIC_API_KEY) "your_anthropic_key")
    then match Anthropic (default "" ANTHROPIC_API_KEY) with
         | Ok client => Some client
         | Raise _ => None
         end
    else None in
  LLMService.mk openai_client anthropic_client.

(** A concrete upload environment: every write succeeds and the integer is
    taken as the instant. *)
Module DemoUpload.

#[export] Instance collaborators : UploadCollaborators :=
  Build_UploadCollaborators
    (fun _ _ => Ok tt)
    (fun n => Z.of_nat n)
    (fun t => Ok t).

Definition clip_file : UploadFile.t :=
  UploadFile.mk (Some "clip.mp4") (Some "video/mp4") (Some 2048) "bytes".

Definition text_file : UploadFile.t :=
  UploadFile.mk (Some "notes.txt") (Some "text/plain") (Some 10) "hello".

End DemoUpload.

(** ** Invariants used in the proofs *)

(** Words: non-empty strings without whitespace. *)
Fixpoint no_space (s : string) : bool :=
  match s with
  | EmptyString => true
  | String c s' => negb (Py.isspace c) && no_space s'
  end.

Definition is_word (s : string) : Prop := s <> "" /\ no_space s = true.

(** [m] leaves the component [f] of the state as it found it, whether it
    returns or raises. *)
Definition keeps {S T A} (f : S -> T) (m : St S A) : Prop :=
  forall s, f (snd (m s)) = f s.

(** The frames extracted so far: at most the maximum, numbered by their
    position, with increasing timestamps all before that of the frame to
    be read next. *)
Definition extracted_ok (fps : Q) (frame_count : Z)
    (frames : list VideoFrame.t) : Prop :=
  Z.of_nat (length frames) <= Settings.MAX_FRAMES_PER_VIDEO settings
  /\ (forall i f, frames !! i = Some f ->
                  VideoFrame.frame_number f = Z.of_nat i)
  /\ StronglySorted
       (fun a b => (VideoFrame.timestamp a < VideoFrame.timestamp b)%Q) frames
  /\ Forall (fun f => (VideoFrame.timestamp f < inject_Z frame_count / fps)%Q)
       frames.

(** The closed form of what [_extract_frames] returns.  [frame_at] is the
    [i]-th frame extracted when [d0] identifiers had been drawn before;
    [count_after] is the number of frames extracted once [frame_count]
    frames have been read. *)
Definition frame_at `{Collaborators} (video_id : string) (fps : Q)
    (frame_interval : Z) (d0 : nat) (i : nat) : VideoFrame.t :=
  VideoFrame.mk (uuid4 (d0 + i)) video_id
    (inject_Z (Z.of_nat i * frame_interval) / fps)%Q (Z.of_nat i)
    ("/static/frames/" +:+ video_id +:+ "/" +:+
     ("frame_" +:+ format_04d (Z.of_nat i) +:+ ".jpg"))
    None [] [] None.

Definition count_after (frame_interval frame_count : Z) : nat :=
  Z.to_nat (Z.min (Settings.MAX_FRAMES_PER_VIDEO settings)
              ((frame_count + frame_interval - 1) / frame_interval)).

Definition set_uuid_draws (n : nat) (s : App.t) : App.t :=
  App.mk (App.rag s) (App.videos_db s) (App.chat_messages_db s) n
    (App.clock_reads s).

(** The record the [except] branch of the task writes. *)
Definition mark_error (e : exception) (v : VideoInfo.t) : VideoInfo.t :=
  set_metadata (<["error" := str_exn e]> (VideoInfo.metadata v))
    (set_status ERROR v).

(** Collaborators as in [Demo], with a transcriber that fails. *)
Definition silent_collaborators : Collaborators :=
  Build_Collaborators
    Demo.encode
    Demo.cosine_distance_unit
    Demo.json_dumps
    Demo.format_2f
    (fun t => pretty t)
    Demo.repr_list
    (fun n => "uuid-" +:+ pretty n)
    (fun n => Z.of_nat n)
    (fun n => inject_Z (Z.of_nat n))
    Demo.VideoCapture
    (fun _ => Raise (Exn "RuntimeError" "no audio track"))
    (fun _ => Ok 1024)
    (fun p => p)
    (fun _ => false)
    (fun _ => Raise (Exn "FileNotFoundError" "no such file"))
    (fun s => s).

(** The embedding of a text that can be embedded. *)
Definition embedding_of `{Collaborators} (text : string) : list Q :=
  match encode text with
  | Ok v => v
  | Raise _ => []
  end.

(** The record [_add_frames] writes for a frame, and the record
    [_add_transcript] writes for the [i]-th chunk. *)
Definition frame_record `{Collaborators} (frame : VideoFrame.t)
  : Index.record :=
  Index.mk (VideoFrame.id frame)
    (embedding_of (_create_frame_description frame))
    (_create_frame_description frame) (frame_metadata frame).

Definition chunk_record `{Collaborators} (video_info : VideoInfo.t)
    (ic : Z * string) : Index.record :=
  Index.mk (VideoInfo.id video_info +:+ "_transcript_" +:+ pretty (fst ic))
    (embedding_of (snd ic)) (snd ic)
    (list_to_map
       [("video_id", MStr (VideoInfo.id video_info));
        ("chunk_index", MInt (fst ic));
        ("type", MStr "transcript");
        ("timestamp", MStr (isoformat (VideoInfo.uploaded_at video_info)))]).

Definition upsert_all (c : Index.collection) (rs : list Index.record)
  : Index.collection :=
  foldl (fun c r => Index.upsert r c) c rs.

(** The ids of [a], in order, begin the ids of [b]. *)
Definition ids_extend (a b : Index.collection) : Prop :=
  map Index.id a `prefix_of` map Index.id b.

(** No collection of [b] has lost or moved an id of [a]. *)
Definition index_extends (a b : RAGService.t) : Prop :=
  ids_extend (RAGService.frames_collection a) (RAGService.frames_collection b)
  /\ ids_extend (RAGService.transcripts_collection a)
       (RAGService.transcripts_collection b)
  /\ ids_extend (RAGService.chat_collection a) (RAGService.chat_collection b).

(** Every state [m] can end in is related to the state it started in. *)
Definition steps {S A} (R : S -> S -> Prop) (m : St S A) : Prop :=
  forall s, R s (snd (m s)).



(** * Properties *)

(** ** Sequences *)

Section Sequences.

Lemma range_up_elements (fuel : nat) (i stop step : Z) :
  0 < step ->
  (Z.to_nat (stop - i) <= fuel)%nat ->
  Py.range_up fuel i stop step
  = map (fun j : nat => i + Z.of_nat j * step)
      (seq 0 (Z.to_nat ((stop - i + step - 1) / step))).
Proof.
  intros Hstep. revert i.
  induction fuel as [|fuel IH]; intros i Hfuel; simpl.
  - replace (Z.to_nat ((stop - i + step - 1) / step)) with O; [done|].
    assert ((stop - i + step - 1) / step <= 0); [|lia].
    assert ((stop - i + step - 1) / step < 1); [|lia].
    apply Z.div_lt_upper_bound; lia.
  - destruct (Z.ltb_spec i stop) as [Hlt|Hge].
    + assert (Hq : (stop - i + step - 1) / step
                   = (stop - (i + step) + step - 1) / step + 1).
      { rewrite <- Z.div_add by lia. f_equal. lia. }
      assert (0 <= (stop - (i + step) + step - 1) / step)
        by (apply Z.div_pos; lia).
      rewrite Hq, Z2Nat.inj_add, Nat.add_comm by lia.
      simpl. f_equal; [lia|].
      rewrite IH by lia.
      rewrite <- seq_shift, map_map.
      apply map_ext. intros j. lia.
    + replace (Z.to_nat ((stop - i + step - 1) / step)) with O; [done|].
      assert ((stop - i + step - 1) / step < 1); [|lia].
      apply Z.div_lt_upper_bound; lia.
Qed.

Lemma take_min_length {A} (n : nat) (l : list A) :
  take (Nat.min n (length l)) l = take n l.
Proof.
  destruct (Nat.le_ge_cases n (length l)).
  - by rewrite Nat.min_l.
  - rewrite Nat.min_r by done. by rewrite !firstn_all2.
Qed.

Lemma slice_nonneg {A} (l : list A) (lo hi : Z) :
  0 <= lo <= hi ->
  Py.slice l lo hi = take (Z.to_nat (hi - lo)) (drop (Z.to_nat lo) l).
Proof.
  intros [Hlo Hhi]. unfold Py.slice, Py.slice_bound.
  destruct (Z.ltb_spec lo 0); [lia|].
  destruct (Z.ltb_spec hi 0); [lia|].
  destruct (Z.le_gt_cases (Z.of_nat (length l)) lo) as [Hout|Hin].
  - rewrite !(drop_ge l) by lia. by rewrite !firstn_nil.
  - rewrite (Z.min_l lo) by lia.
    rewrite <- (take_min_length (Z.to_nat (hi - lo))).
    f_equal. rewrite length_drop. lia.
Qed.

Lemma join_cons (sep x : string) (l : list string) :
  l <> [] -> Py.join sep (x :: l) = x +:+ sep +:+ Py.join sep l.
Proof. by destruct l. Qed.

Lemma string_app_assoc (a b c : string) : (a +:+ b) +:+ c = a +:+ (b +:+ c).
Proof.
  induction a as [|ch a IH]; [done|].
  change (String ch ((a +:+ b) +:+ c) = String ch (a +:+ b +:+ c)).
  by rewrite IH.
Qed.

Lemma join_app (sep : string) (l1 l2 : list string) :
  l1 <> [] -> l2 <> [] ->
  Py.join sep (l1 ++ l2) = Py.join sep l1 +:+ sep +:+ Py.join sep l2.
Proof.
  intros H1 H2. induction l1 as [|x l1 IH]; [done|].
  destruct l1 as [|y l1].
  - simpl app. by rewrite join_cons.
  - change ((x :: y :: l1) ++ l2) with (x :: ((y :: l1) ++ l2)).
    rewrite join_cons by done. rewrite IH by done.
    rewrite (join_cons sep x (y :: l1)) by done.
    by rewrite !string_app_assoc.
Qed.

(** Joining the joined windows of a list is joining the list. *)
Lemma join_windows (w : nat) (count : nat) (l : list string) :
  (0 < w)%nat ->
  (length l <= count * w)%nat -> (count * w < length l + w)%nat ->
  Py.join " " (map (fun j => Py.join " " (take w (drop (j * w) l)))
                 (seq 0 count))
  = Py.join " " l.
Proof.
  intros Hw. revert l.
  induction count as [|count IH]; intros l Hle Hlt.
  - destruct l; [done|simpl in Hle; lia].
  - simpl seq. rewrite <- seq_shift, map_cons, map_map.
    change (0 * w)%nat with 0%nat. rewrite drop_0.
    erewrite (map_ext (fun j => _ (take w (drop (S j * w) l)))); last first.
    { intros j. replace (S j * w)%nat with (w + j * w)%nat by lia.
      rewrite <- drop_drop. reflexivity. }
    destruct count as [|count].
    + simpl map. rewrite firstn_all2 by lia. done.
    + rewrite join_cons by done.
      rewrite IH; [|rewrite length_drop; lia..].
      assert (w < length l)%nat by lia.
      rewrite <- join_app.
      * by rewrite take_drop.
      * intros Hnil. apply (f_equal length) in Hnil.
        rewrite length_take in Hnil. simpl in Hnil. lia.
      * intros Hnil. apply (f_equal length) in Hnil.
        rewrite length_drop in Hnil. simpl in Hnil. lia.
Qed.

(** The windows of a list, concatenated, are the list. *)
Lemma concat_windows {A} (w : nat) (count : nat) (l : list A) :
  (0 < w)%nat -> (length l <= count * w)%nat ->
  concat (map (fun j => take w (drop (j * w) l)) (seq 0 count)) = l.
Proof.
  intros Hw. revert l.
  induction count as [|count IH]; intros l Hle.
  - destruct l; [done|simpl in Hle; lia].
  - simpl seq. rewrite <- seq_shift, map_cons, map_map.
    change (0 * w)%nat with 0%nat. rewrite drop_0.
    erewrite (map_ext (fun j => take w (drop (S j * w) l))); last first.
    { intros j. replace (S j * w)%nat with (w + j * w)%nat by lia.
      rewrite <- drop_drop. reflexivity. }
    cbn [concat]. rewrite IH by (rewrite length_drop; lia).
    apply take_drop.
Qed.

Lemma no_space_app (a b : string) :
  no_space (a +:+ b) = no_space a && no_space b.
Proof.
  induction a as [|c a IH]; [done|].
  change (no_space (String c (a +:+ b))
          = no_space (String c a) && no_space b).
  cbn [no_space]. rewrite IH. by rewrite andb_assoc.
Qed.

Lemma string_app_nil_r (a : string) : a +:+ "" = a.
Proof.
  induction a as [|c a IH]; [done|].
  change (String c (a +:+ "") = String c a). by rewrite IH.
Qed.

Lemma eqb_empty_false (a : string) : a <> "" -> String.eqb a "" = false.
Proof. intros Ha. by apply String.eqb_neq. Qed.

(** What [split] returns are words. *)
Lemma split_from_words (cur s : string) :
  no_space cur = true -> Forall is_word (Py.split_from cur s).
Proof.
  revert cur. induction s as [|c s IH]; intros cur Hcur; cbn [Py.split_from].
  - destruct (String.eqb_spec cur ""); [constructor|].
    by repeat constructor.
  - destruct (Py.isspace c) eqn:Hc.
    + destruct (String.eqb_spec cur ""); [by apply IH|].
      constructor; [done|by apply IH].
    + apply IH. rewrite no_space_app, Hcur. cbn [no_space]. by rewrite Hc.
Qed.

Lemma split_words (s : string) : Forall is_word (Py.split s).
Proof. by apply split_from_words. Qed.

(** Reading on through a stretch without whitespace. *)
Lemma split_from_app (cur a rest : string) :
  no_space a = true ->
  Py.split_from cur (a +:+ rest) = Py.split_from (cur +:+ a) rest.
Proof.
  revert cur. induction a as [|c a IH]; intros cur Ha.
  - by rewrite string_app_nil_r.
  - cbn [no_space] in Ha. apply andb_prop in Ha as [Hc Ha].
    change (String c a +:+ rest) with (String c (a +:+ rest)).
    cbn [Py.split_from]. apply negb_true_iff in Hc. rewrite Hc.
    rewrite IH by done. f_equal.
    rewrite string_app_assoc. reflexivity.
Qed.

(** Splitting words joined by single spaces gives the words back. *)
Lemma split_join (ws : list string) :
  Forall is_word ws -> Py.split (Py.join " " ws) = ws.
Proof.
  unfold Py.split. induction 1 as [|w ws [Hne Hw] Hws IH]; [done|].
  destruct ws as [|w' ws].
  - change (Py.join " " [w]) with w.
    rewrite <- (string_app_nil_r w) at 1.
    rewrite split_from_app by done. cbn [Py.split_from String.append].
    by rewrite eqb_empty_false.
  - rewrite join_cons by done. rewrite split_from_app by done.
    change (" " +:+ Py.join " " (w' :: ws))
      with (String " " (Py.join " " (w' :: ws))).
    cbn [Py.split_from String.append].
    change (Py.isspace " ") with true. cbn iota.
    rewrite eqb_empty_false by done. by rewrite IH.
Qed.

End Sequences.

(** ** Chunker *)

Section Chunker.

(** The windows that [_chunk_transcript] returns for a positive window. *)
Lemma chunk_transcript_windows (transcript : string) (chunk_size : Z) :
  0 < chunk_size ->
  let words := Py.split transcript in
  let w := Z.to_nat chunk_size in
  let count := Z.to_nat ((Z.of_nat (length words) + chunk_size - 1) / chunk_size) in
  _chunk_transcript transcript chunk_size
  = Ok (map (fun j => Py.join " " (take w (drop (j * w) words))) (seq 0 count)).
Proof.
  intros Hpos words w count. unfold _chunk_transcript, Py.range.
  destruct (Z.eqb_spec chunk_size 0); [lia|].
  destruct (Z.ltb_spec 0 chunk_size); [|lia].
  simpl. f_equal.
  rewrite range_up_elements by lia.
  rewrite map_map. fold words. rewrite !Z.sub_0_r. fold count.
  apply map_ext. intros j.
  rewrite slice_nonneg by lia.
  do 3 f_equal; lia.
Qed.

(** C5. For a window [chunk_size > 0], [_chunk_transcript] returns (without
    raising) the windows of the whitespace-separated words of the
    transcript: chunk [i] is words [i*chunk_size .. (i+1)*chunk_size) joined
    by single spaces; the chunks joined by single spaces are the words
    joined by single spaces, and split again they give the words in order;
    their number is the ceiling of the word count over the window; and a
    transcript without words, the empty one in particular, gives the empty
    list. *)
Theorem chunk_transcript_spec (transcript : string) (chunk_size : Z) :
  0 < chunk_size ->
  let words := Py.split transcript in
  let w := Z.to_nat chunk_size in
  exists chunks : list string,
    _chunk_transcript transcript chunk_size = Ok chunks
    /\ (forall i : nat, (i < length chunks)%nat ->
          chunks !! i = Some (Py.join " " (take w (drop (i * w) words))))
    /\ Py.join " " chunks = Py.join " " words
    /\ concat (map Py.split chunks) = words
    /\ Z.of_nat (length chunks)
       = (Z.of_nat (length words) + chunk_size - 1) / chunk_size
    /\ (words = [] -> chunks = [])
    /\ _chunk_transcript "" chunk_size = Ok [].
Proof.
  intros Hpos words w.
  pose proof (chunk_transcript_windows transcript chunk_size Hpos) as Hrun.
  cbv zeta in Hrun. fold words w in Hrun.
  set (n := Z.of_nat (length words)) in *.
  set (count := Z.to_nat ((n + chunk_size - 1) / chunk_size)) in *.
  assert (Hq : 0 <= (n + chunk_size - 1) / chunk_size)
    by (apply Z.div_pos; lia).
  assert (Hlo : n <= Z.of_nat count * chunk_size).
  { unfold count. rewrite Z2Nat.id by done.
    pose proof (Z.mul_succ_div_gt (n + chunk_size - 1) chunk_size Hpos). lia. }
  assert (Hhi : Z.of_nat count * chunk_size < n + chunk_size).
  { unfold count. rewrite Z2Nat.id by done.
    pose proof (Z.mul_div_le (n + chunk_size - 1) chunk_size Hpos). lia. }
  eexists. split; [exact Hrun|]. repeat split.
  - intros i Hi. rewrite length_map, length_seq in Hi.
    rewrite list_lookup_fmap, lookup_seq_lt by done. done.
  - apply join_windows; [lia|unfold w, n in *; nia..].
  - rewrite map_map.
    erewrite map_ext; [apply (concat_windows w count words);
                       [lia|unfold w, n in *; nia]|].
    intros j. apply split_join.
    apply Forall_take, Forall_drop, split_words.
  - rewrite length_map, length_seq. unfold count. by rewrite Z2Nat.id.
  - intros Hnil. unfold count, n. rewrite Hnil. simpl length.
    replace ((Z.of_nat 0 + chunk_size - 1) / chunk_size) with 0; [done|].
    symmetry. apply Z.div_small. lia.
  - rewrite (chunk_transcript_windows "" chunk_size Hpos). simpl length.
    replace ((Z.of_nat 0 + chunk_size - 1) / chunk_size) with 0; [done|].
    symmetry. apply Z.div_small. lia.
Qed.

Lemma chunk_transcript_spec_witness :
  0 < 3
  /\ exists chunks : list string,
       _chunk_transcript "the cat sat on the mat" 3 = Ok chunks
       /\ (forall i : nat, (i < length chunks)%nat ->
             chunks !! i
             = Some (Py.join " "
                       (take (Z.to_nat 3)
                          (drop (i * Z.to_nat 3)
                             (Py.split "the cat sat on the mat")))))
       /\ Py.join " " chunks
          = Py.join " " (Py.split "the cat sat on the mat")
       /\ concat (map Py.split chunks) = Py.split "the cat sat on the mat"
       /\ Z.of_nat (length chunks)
          = (Z.of_nat (length (Py.split "the cat sat on the mat")) + 3 - 1) / 3
       /\ (Py.split "the cat sat on the mat" = [] -> chunks = [])
       /\ _chunk_transcript "" 3 = Ok [].
Proof.
  split; [lia|].
  apply (chunk_transcript_spec "the cat sat on the mat" 3). lia.
Defined.

Example chunk_cat_mat :
  _chunk_transcript "the cat sat on the mat" 3 = Ok ["the cat sat"; "on the mat"].
Proof. reflexivity. Qed.

Example chunk_ragged :
  _chunk_transcript "  a  b
c d e " 2 = Ok ["a b"; "c d"; "e"].
Proof. reflexivity. Qed.

Example chunk_zero_window_raises :
  _chunk_transcript "a b" 0
  = Raise (Exn "ValueError" "range() arg 3 must not be zero").
Proof. reflexivity. Qed.

End Chunker.

(** ** Sorting *)

Section Sorting.
Context {A : Type} (le : A -> A -> bool).

Lemma insert_sorted_perm (x : A) (l : list A) :
  Py.insert_sorted le x l ≡ₚ x :: l.
Proof.
  induction l as [|y l IH]; simpl; [done|].
  destruct (le x y); [done|].
  rewrite IH. apply Permutation_swap.
Qed.

Lemma sorted_perm (l : list A) : Py.sorted le l ≡ₚ l.
Proof.
  induction l as [|x l IH]; simpl; [done|].
  by rewrite insert_sorted_perm, IH.
Qed.


Variable R : A -> A -> Prop.
Hypothesis le_sound : forall x y, le x y = true -> R x y.
Hypothesis le_total : forall x y, le x y = false -> R y x.

Lemma insert_sorted_Sorted (x : A) (l : list A) :
  Sorted R l -> Sorted R (Py.insert_sorted le x l).
Proof.
  induction 1 as [|y l Hl IH Hhd]; simpl.
  - by repeat constructor.
  - destruct (le x y) eqn:Hxy.
    + repeat constructor; auto.
    + constructor; [done|].
      destruct Hhd as [|z l Hyz]; simpl.
      * constructor. by apply le_total.
      * destruct (le x z); constructor; [by apply le_total|done].
Qed.

Lemma sorted_Sorted (l : list A) : Sorted R (Py.sorted le l).
Proof.
  induction l as [|x l IH]; simpl; [constructor|].
  by apply insert_sorted_Sorted.
Qed.

End Sorting.

Lemma Qle_bool_false (x y : Q) : Qle_bool x y = false -> (y <= x)%Q.
Proof.
  intros Hxy.
  destruct (Qlt_le_dec y x) as [Hlt|Hle]; [by apply Qlt_le_weak|].
  apply Qle_bool_iff in Hle. congruence.
Qed.

(** [sort(key=.., reverse=True)] leaves the keys non-increasing: an element
    never has a smaller key than one after it. *)
Lemma sort_key_reverse_pairwise {A} (key : A -> Q) (l : list A) :
  StronglySorted (fun a b => (key b <= key a)%Q) (Py.sort_key_reverse key l).
Proof.
  apply Sorted_StronglySorted.
  { intros a b c Hab Hbc. by apply Qle_trans with (key b). }
  unfold Py.sort_key_reverse. apply sorted_Sorted.
  - intros a b Hab. by apply Qle_bool_iff in Hab.
  - intros a b. apply Qle_bool_false.
Qed.


Lemma StronglySorted_take {A} (R : A -> A -> Prop) (n : nat) (l : list A) :
  StronglySorted R l -> StronglySorted R (take n l).
Proof.
  intros Hl. revert n.
  induction Hl as [|x l Hl IH Hx]; intros [|n]; simpl; try constructor.
  - apply IH.
  - apply Forall_take, Hx.
Qed.

Lemma StronglySorted_drop {A} (R : A -> A -> Prop) (n : nat) (l : list A) :
  StronglySorted R l -> StronglySorted R (drop n l).
Proof.
  intros Hl. revert n.
  induction Hl as [|x l Hl IH Hx]; intros [|n]; simpl;
    try constructor; auto.
Qed.

Lemma StronglySorted_slice {A} (R : A -> A -> Prop) (l : list A) (lo hi : Z) :
  StronglySorted R l -> StronglySorted R (Py.slice l lo hi).
Proof. intros Hl. by apply StronglySorted_take, StronglySorted_drop. Qed.

Lemma StronglySorted_lookup {A} (R : A -> A -> Prop) (l : list A)
    (i j : nat) (a b : A) :
  StronglySorted R l -> (i < j)%nat ->
  l !! i = Some a -> l !! j = Some b -> R a b.
Proof.
  intros Hl. revert i j.
  induction Hl as [|x l Hl IH Hx]; intros i j Hij Hi Hj; [done|].
  destruct j as [|j]; [lia|]. destruct i as [|i]; simpl in *.
  - inversion Hi; subst. rewrite Forall_forall in Hx.
    apply Hx. apply list_elem_of_lookup. eauto.
  - apply (IH i j); [lia|done..].
Qed.

Lemma slice_subset {A} (l : list A) (lo hi : Z) (x : A) :
  x ∈ Py.slice l lo hi -> x ∈ l.
Proof.
  unfold Py.slice. intros Hx.
  by apply subseteq_take, subseteq_drop in Hx.
Qed.

Lemma slice_to_length {A} (l : list A) (hi : Z) :
  0 <= hi -> (length (Py.slice_to l hi) <= Z.to_nat hi)%nat.
Proof.
  intros Hhi. unfold Py.slice_to, Py.slice, Py.slice_bound.
  destruct (Z.ltb_spec hi 0); [lia|]. simpl.
  rewrite length_take. lia.
Qed.

(** ** The vector index *)

Section IndexFacts.
Context `{Collaborators}.

Lemma matches_video_id (video_id : string) (md : gmap string Index.meta_value) :
  Index.matches {[ "video_id" := MStr video_id ]} md = true
  <-> md !! "video_id" = Some (MStr video_id).
Proof.
  unfold Index.matches. rewrite bool_decide_eq_true.
  by rewrite map_Forall_singleton.
Qed.

(** Every hit is a record of the collection that satisfies the filter, with
    its distance to the query vector. *)
Lemma nearest_hit (c : Index.collection) (q : list Q) (n_results : Z)
    (where_ : gmap string Index.meta_value) (h : Index.record * Q) :
  h ∈ Index.nearest c q n_results where_ ->
  fst h ∈ c
  /\ Index.matches where_ (Index.metadata (fst h)) = true
  /\ snd h = distance q (Index.embedding (fst h)).
Proof.
  unfold Index.nearest. intros Hh.
  apply subseteq_take in Hh. rewrite sorted_perm in Hh.
  apply list_elem_of_fmap in Hh as (r & -> & Hr). simpl.
  apply list_elem_of_In, filter_In in Hr as [Hr Hm].
  by rewrite <- list_elem_of_In in Hr.
Qed.

Lemma nearest_length (c : Index.collection) (q : list Q) (n_results : Z)
    (where_ : gmap string Index.meta_value) :
  (length (Index.nearest c q n_results where_) <= Z.to_nat n_results)%nat.
Proof. unfold Index.nearest. rewrite length_take. lia. Qed.


(** The records a query returns for its single query vector. *)
Lemma query_single (c : Index.collection) (q : list Q) (n_results : Z)
    (where_ : gmap string Index.meta_value) :
  let hits := Index.nearest c q n_results where_ in
  Index.query c [q] n_results where_
  = {| Index.ids := [map (fun h => Index.id (fst h)) hits];
       Index.documents := [map (fun h => Index.document (fst h)) hits];
       Index.metadatas := [map (fun h => Index.metadata (fst h)) hits];
       Index.distances := [map snd hits] |}.
Proof. reflexivity. Qed.

End IndexFacts.

(** ** Namespace isolation *)

Section Isolation.
Context `{Collaborators}.

Lemma search_relevant_content_Ok (self : RAGService.t)
    (query video_id : string) (max_results : Z) (res : SearchResults.t) :
  search_relevant_content self query video_id max_results = Ok res ->
  exists v,
    encode query = Ok v
    /\ res = {| SearchResults.frames :=
                  Index.query (RAGService.frames_collection self) [v]
                    max_results {[ "video_id" := MStr video_id ]};
                SearchResults.transcript :=
                  Index.query (RAGService.transcripts_collection self) [v]
                    max_results {[ "video_id" := MStr video_id ]} |}.
Proof.
  unfold search_relevant_content. destruct (encode query) as [v|e].
  - intros [= <-]. by exists v.
  - intros [=].
Qed.

(** C1. Whatever the query, the video and the number of results asked for,
    every record that the frame search and the transcript search of
    [search_relevant_content] return carries the requested video in its
    metadata, and is a record of the collection searched; so a search
    filtered to one video returns no record of another. *)
Theorem search_relevant_content_isolation (self : RAGService.t)
    (query video_id : string) (max_results : Z) (res : SearchResults.t) :
  search_relevant_content self query video_id max_results = Ok res ->
  (forall mds md,
      mds ∈ Index.metadatas (SearchResults.frames res)
            ++ Index.metadatas (SearchResults.transcript res) ->
      md ∈ mds ->
      md !! "video_id" = Some (MStr video_id)
      /\ forall other, other <> video_id ->
                      md !! "video_id" <> Some (MStr other))
  /\ (forall ids id, ids ∈ Index.ids (SearchResults.frames res) -> id ∈ ids ->
        exists r, r ∈ RAGService.frames_collection self /\ Index.id r = id
                  /\ Index.metadata r !! "video_id" = Some (MStr video_id))
  /\ (forall ids id, ids ∈ Index.ids (SearchResults.transcript res) ->
        id ∈ ids ->
        exists r, r ∈ RAGService.transcripts_collection self /\ Index.id r = id
                  /\ Index.metadata r !! "video_id" = Some (MStr video_id)).
Proof.
  intros Hrun. apply search_relevant_content_Ok in Hrun as (v & _ & ->).
  cbn [SearchResults.frames SearchResults.transcript
       Index.metadatas Index.ids].
  split; [|split].
  - intros mds md Hmds Hmd.
    assert (Hvid : md !! "video_id" = Some (MStr video_id)).
    { apply elem_of_cons in Hmds as [->|Hmds];
        [|apply list_elem_of_singleton in Hmds; subst mds];
        apply list_elem_of_fmap in Hmd as (h & -> & Hh);
        apply nearest_hit in Hh as (_ & Hm & _);
        by apply matches_video_id. }
    split; [done|]. intros other Hother. rewrite Hvid. congruence.
  - intros ids id Hids Hid. apply list_elem_of_singleton in Hids; subst ids.
    apply list_elem_of_fmap in Hid as (h & -> & Hh).
    apply nearest_hit in Hh as (Hin & Hm & _).
    exists (fst h). split; [exact Hin|]. split; [reflexivity|].
    apply matches_video_id, Hm.
  - intros ids id Hids Hid. apply list_elem_of_singleton in Hids; subst ids.
    apply list_elem_of_fmap in Hid as (h & -> & Hh).
    apply nearest_hit in Hh as (Hin & Hm & _).
    exists (fst h). split; [exact Hin|]. split; [reflexivity|].
    apply matches_video_id, Hm.
Qed.

End Isolation.

Lemma search_relevant_content_isolation_witness :
  exists res,
    search_relevant_content (H := Demo.collaborators) Demo.two_videos "cat" "A" 10
    = Ok res
    /\ (forall mds md,
          mds ∈ Index.metadatas (SearchResults.frames res)
                ++ Index.metadatas (SearchResults.transcript res) ->
          md ∈ mds ->
          md !! "video_id" = Some (MStr "A")
          /\ forall other, other <> "A" ->
                          md !! "video_id" <> Some (MStr other))
    /\ (forall ids id, ids ∈ Index.ids (SearchResults.frames res) -> id ∈ ids ->
          exists r, r ∈ RAGService.frames_collection Demo.two_videos
                    /\ Index.id r = id
                    /\ Index.metadata r !! "video_id" = Some (MStr "A"))
    /\ (forall ids id, ids ∈ Index.ids (SearchResults.transcript res) ->
          id ∈ ids ->
          exists r, r ∈ RAGService.transcripts_collection Demo.two_videos
                    /\ Index.id r = id
                    /\ Index.metadata r !! "video_id" = Some (MStr "A")).
Proof.
  eexists. split; [reflexivity|].
  apply (search_relevant_content_isolation (H := Demo.collaborators)
           Demo.two_videos "cat" "A" 10).
  reflexivity.
Defined.

(** The frame of video B is nearer to the query than two frames of video A,
    and is not returned. *)
Example search_skips_nearer_frame_of_other_video :
  (Index.ids ∘ SearchResults.frames)
    <$> search_relevant_content (H := Demo.collaborators)
          Demo.two_videos "cat" "A" 10
  = Ok [["f1"; "f3"; "f4"]] :> result (list (list string))
  /\ map (fun r => (Index.id r,
                    Demo.cosine_distance_unit [1; 0]%Q (Index.embedding r)))
       (RAGService.frames_collection Demo.two_videos)
     = [("f1", 0 # 1); ("f2", 10 # 25); ("f3", 40 # 25); ("f4", 2 # 1)]%Q.
Proof. split; vm_compute; reflexivity. Qed.

(** ** Upsert *)

Section Upsert.

Lemma upsert_ids (r : Index.record) (c : Index.collection) :
  Index.id r ∈ map Index.id c ->
  map Index.id (Index.upsert r c) = map Index.id c.
Proof.
  induction c as [|r' c IH]; simpl; [by intros ?%elem_of_nil|].
  destruct (String.eqb_spec (Index.id r') (Index.id r)) as [Heq|Hne].
  - intros _. simpl. by rewrite Heq.
  - intros [?|Hin]%elem_of_cons; [congruence|]. simpl. by rewrite IH.
Qed.

Lemma upsert_ids_fresh (r : Index.record) (c : Index.collection) :
  Index.id r ∉ map Index.id c ->
  Index.upsert r c = c ++ [r].
Proof.
  induction c as [|r' c IH]; simpl; [done|].
  intros Hnotin. apply not_elem_of_cons in Hnotin as [Hne Hnotin].
  destruct (String.eqb_spec (Index.id r') (Index.id r)); [congruence|].
  by rewrite IH.
Qed.

(** Unique ids are an invariant of the collection. *)
Lemma upsert_NoDup (r : Index.record) (c : Index.collection) :
  NoDup (map Index.id c) -> NoDup (map Index.id (Index.upsert r c)).
Proof.
  intros Hc. destruct (decide (Index.id r ∈ map Index.id c)) as [Hin|Hnotin].
  - by rewrite upsert_ids.
  - rewrite upsert_ids_fresh, map_app by done. simpl.
    apply NoDup_app. split; [done|]. split; [|apply NoDup_singleton].
    intros x Hx ->%list_elem_of_singleton. done.
Qed.

Lemma filter_id_absent (i : string) (c : Index.collection) :
  i ∉ map Index.id c ->
  List.filter (fun r => String.eqb (Index.id r) i) c = [].
Proof.
  induction c as [|r c IH]; simpl; [done|].
  intros [Hne Hnotin]%not_elem_of_cons.
  destruct (String.eqb_spec (Index.id r) i); [congruence|]. by apply IH.
Qed.

(** After an upsert exactly one record is held under the id: the one
    upserted. *)
Lemma upsert_filter_id (r : Index.record) (c : Index.collection) :
  NoDup (map Index.id c) ->
  List.filter (fun x => String.eqb (Index.id x) (Index.id r)) (Index.upsert r c)
  = [r].
Proof.
  induction c as [|r' c IH]; simpl; intros Hc.
  - by rewrite String.eqb_refl.
  - apply NoDup_cons in Hc as [Hnotin Hc].
    destruct (String.eqb_spec (Index.id r') (Index.id r)) as [Heq|Hne]; simpl.
    + rewrite String.eqb_refl. f_equal.
      apply filter_id_absent. by rewrite <- Heq.
    + destruct (String.eqb_spec (Index.id r') (Index.id r)); [done|].
      by apply IH.
Qed.

Lemma add_single (c : Index.collection) (e : list Q) (d : string)
    (m : gmap string Index.meta_value) (i : string) :
  Index.add c [e] [d] [m] [i] = Index.upsert (Index.mk i e d m) c.
Proof. reflexivity. Qed.

(** C6. In every namespace with unique ids, adding twice under the same id
    with different contents leaves exactly one record under that id, the
    one of the second call; ids stay unique; and every hit of a later
    query that carries this id is that second record. *)
Theorem add_twice_same_id `{Collaborators} (c : Index.collection) (i : string)
    (e1 e2 : list Q) (d1 d2 : string) (m1 m2 : gmap string Index.meta_value) :
  NoDup (map Index.id c) ->
  let c2 := Index.add (Index.add c [e1] [d1] [m1] [i]) [e2] [d2] [m2] [i] in
  List.filter (fun r => String.eqb (Index.id r) i) c2 = [Index.mk i e2 d2 m2]
  /\ NoDup (map Index.id c2)
  /\ forall q n_results where_ h,
       h ∈ Index.nearest c2 q n_results where_ ->
       Index.id (fst h) = i -> fst h = Index.mk i e2 d2 m2.
Proof.
  intros Hc c2. unfold c2. rewrite !add_single.
  set (c1 := Index.upsert (Index.mk i e1 d1 m1) c).
  assert (Hc1 : NoDup (map Index.id c1)) by by apply upsert_NoDup.
  assert (Hone : List.filter (fun r => String.eqb (Index.id r) i)
                   (Index.upsert (Index.mk i e2 d2 m2) c1)
                 = [Index.mk i e2 d2 m2]).
  { by apply (upsert_filter_id (Index.mk i e2 d2 m2) c1). }
  split; [exact Hone|]. split; [by apply upsert_NoDup|].
  intros q n_results where_ h Hh Hid.
  apply nearest_hit in Hh as (Hin & _ & _).
  assert (Hf : fst h ∈ List.filter (fun r => String.eqb (Index.id r) i)
                 (Index.upsert (Index.mk i e2 d2 m2) c1)).
  { apply list_elem_of_In, filter_In. split; [by apply list_elem_of_In|].
    by apply String.eqb_eq. }
  rewrite Hone in Hf. by apply list_elem_of_singleton in Hf.
Qed.

Lemma add_twice_same_id_witness :
  NoDup (map Index.id (RAGService.frames_collection Demo.two_videos))
  /\ let c2 :=
       Index.add
         (Index.add (RAGService.frames_collection Demo.two_videos)
            [[0; 1]%Q] ["first description"] [∅] ["f1"])
         [[1; 0]%Q] ["second description"] [∅] ["f1"] in
     List.filter (fun r => String.eqb (Index.id r) "f1") c2
     = [Index.mk "f1" [1; 0]%Q "second description" ∅]
     /\ NoDup (map Index.id c2)
     /\ forall q n_results where_ h,
          h ∈ Index.nearest (H := Demo.collaborators) c2 q n_results where_ ->
          Index.id (fst h) = "f1" ->
          fst h = Index.mk "f1" [1; 0]%Q "second description" ∅.
Proof.
  assert (Hc : NoDup (map Index.id (RAGService.frames_collection Demo.two_videos))).
  { apply (bool_decide_unpack _). vm_compute. exact I. }
  split; [exact Hc|].
  apply (add_twice_same_id (H := Demo.collaborators)
           (RAGService.frames_collection Demo.two_videos) "f1"
           [0; 1]%Q [1; 0]%Q "first description" "second description" ∅ ∅ Hc).
Defined.

End Upsert.

(** What the three writers of the service store. *)
Section Writers.
Context `{Collaborators}.

Lemma _add_frame_writes (frame : VideoFrame.t) (v : list Q)
    (self : RAGService.t) :
  encode (_create_frame_description frame) = Ok v ->
  _add_frame frame self
  = (Ok tt,
     RAGService.set_frames
       (Index.upsert
          (Index.mk (VideoFrame.id frame) v (_create_frame_description frame)
             (frame_metadata frame))
          (RAGService.frames_collection self))
       self).
Proof. intros Hv. unfold _add_frame, mbind, St_mbind, st_bind, st_lift. by rewrite Hv. Qed.

Lemma _add_frame_raises (frame : VideoFrame.t) (e : exception)
    (self : RAGService.t) :
  encode (_create_frame_description frame) = Raise e ->
  _add_frame frame self = (Raise e, self).
Proof. intros Hv. unfold _add_frame, mbind, St_mbind, st_bind, st_lift. by rewrite Hv. Qed.

Lemma add_chat_message_writes (message : ChatMessage.t) (v : list Q)
    (self : RAGService.t) :
  encode (ChatMessage.content message) = Ok v ->
  exists md,
    add_chat_message message self
    = (Ok tt,
       RAGService.set_chat
         (Index.upsert
            (Index.mk (ChatMessage.id message) v (ChatMessage.content message) md)
            (RAGService.chat_collection self))
         self).
Proof.
  intros Hv. unfold add_chat_message, mbind, St_mbind, st_bind, st_lift.
  rewrite Hv. eexists. reflexivity.
Qed.

(** Ingesting a frame a second time under its id replaces its record. *)
Lemma _add_frames_twice (f1 f2 : VideoFrame.t) (v1 v2 : list Q)
    (self : RAGService.t) :
  NoDup (map Index.id (RAGService.frames_collection self)) ->
  VideoFrame.id f1 = VideoFrame.id f2 ->
  encode (_create_frame_description f1) = Ok v1 ->
  encode (_create_frame_description f2) = Ok v2 ->
  let self' := snd (_add_frames [f2] (snd (_add_frames [f1] self))) in
  List.filter (fun r => String.eqb (Index.id r) (VideoFrame.id f2))
    (RAGService.frames_collection self')
  = [Index.mk (VideoFrame.id f2) v2 (_create_frame_description f2)
       (frame_metadata f2)].
Proof.
  intros Hc Hid Hv1 Hv2. unfold _add_frames. simpl st_for.
  unfold mbind, St_mbind, st_bind at 2.
  rewrite (_add_frame_writes f1 v1) by done. unfold st_ret at 2.
  cbn [snd]. unfold st_bind.
  rewrite (_add_frame_writes f2 v2) by done. unfold st_ret. cbn [snd].
  cbn [RAGService.set_frames RAGService.frames_collection].
  apply (upsert_filter_id
           (Index.mk (VideoFrame.id f2) v2 (_create_frame_description f2)
              (frame_metadata f2))).
  by apply upsert_NoDup.
Qed.

End Writers.

(** ** Context assembly *)

Section ContextAssembly.
Context `{Collaborators}.

Lemma py_index_lookup {A} (l : list A) (i : nat) (x : A) :
  l !! i = Some x -> py_index l (Z.of_nat i) = Ok x.
Proof.
  intros Hx. unfold py_index.
  destruct (Z.ltb_spec (Z.of_nat i) 0); [lia|]. cbv zeta.
  destruct (Z.ltb_spec (Z.of_nat i) 0); [lia|].
  by rewrite Nat2Z.id, Hx.
Qed.

Lemma frame_entry_at (c : Index.collection) (q : list Q) (k : Z)
    (where_ : gmap string Index.meta_value) (i : nat) (h : Index.record * Q) :
  Index.nearest c q k where_ !! i = Some h ->
  frame_entry (Index.query c [q] k where_) (Z.of_nat i, Index.id (fst h))
  = entry_of_hit h.
Proof.
  intros Hh. unfold frame_entry. rewrite query_single.
  cbn [Index.metadatas Index.distances Index.documents].
  change 0 with (Z.of_nat 0).
  rewrite !(py_index_lookup [_] 0 _ eq_refl).
  unfold mbind, result_mbind, result_bind.
  rewrite (py_index_lookup _ i (Index.metadata (fst h)))
    by (by rewrite list_lookup_fmap, Hh).
  rewrite (py_index_lookup _ i (snd h)) by (by rewrite list_lookup_fmap, Hh).
  rewrite (py_index_lookup _ i (Index.document (fst h)))
    by (by rewrite list_lookup_fmap, Hh).
  reflexivity.
Qed.

Lemma mapM_frame_entry_from (c : Index.collection) (q : list Q) (k : Z)
    (where_ : gmap string Index.meta_value)
    (pre suf : list (Index.record * Q)) :
  Index.nearest c q k where_ = pre ++ suf ->
  mapM (frame_entry (Index.query c [q] k where_))
    (imap (fun i x => (Z.of_nat (length pre + i), x))
       (map (fun h => Index.id (fst h)) suf))
  = mapM entry_of_hit suf.
Proof.
  revert pre. induction suf as [|h suf IH]; intros pre Hhits; [done|].
  cbn [map imap mapM]. rewrite Nat.add_0_r.
  rewrite (frame_entry_at c q k where_ (length pre) h)
    by (rewrite Hhits; apply list_lookup_middle; done).
  specialize (IH (pre ++ [h])). rewrite <- app_assoc in IH.
  specialize (IH Hhits).
  erewrite imap_ext; [rewrite IH; reflexivity|].
  intros i x _. cbn. rewrite length_app. simpl. f_equal. lia.
Qed.

Lemma mapM_frame_entry (c : Index.collection) (q : list Q) (k : Z)
    (where_ : gmap string Index.meta_value) :
  mapM (frame_entry (Index.query c [q] k where_))
    (Py.enumerate (map (fun h => Index.id (fst h))
                     (Index.nearest c q k where_)))
  = mapM entry_of_hit (Index.nearest c q k where_).
Proof. apply (mapM_frame_entry_from c q k where_ []). reflexivity. Qed.

Lemma mapM_entry_of_hit (hits : list (Index.record * Q))
    (entries : list FrameContext.t) :
  mapM entry_of_hit hits = Ok entries ->
  Forall2 (fun h e => FrameContext.frame_id e = Index.id (fst h)
                      /\ FrameContext.description e = Index.document (fst h)
                      /\ FrameContext.relevance_score e = (1 - snd h)%Q)
    hits entries.
Proof.
  revert entries. induction hits as [|h hits IH]; intros entries.
  - intros [= <-]. constructor.
  - cbn [mapM]. unfold mbind, result_mbind, result_bind.
    destruct (entry_of_hit h) as [e|] eqn:He; [|done].
    destruct (mapM entry_of_hit hits) as [es|]; [|done].
    intros [= <-]. constructor; [|by apply IH].
    unfold entry_of_hit, mbind, result_mbind, result_bind in He.
    destruct (py_getitem _ "image_path"); [|done].
    destruct (py_getitem _ "timestamp"); [|done].
    by inversion He.
Qed.

Lemma query_ids (c : Index.collection) (q : list Q) (k : Z)
    (where_ : gmap string Index.meta_value) :
  Index.ids (Index.query c [q] k where_)
  = [map (fun h => Index.id (fst h)) (Index.nearest c q k where_)].
Proof. reflexivity. Qed.

(** What a successful [get_context_for_chat] has computed. *)
Lemma get_context_for_chat_Ok (self : RAGService.t) (query video_id : string)
    (max_frames : Z) (ctx : Context.t) :
  get_context_for_chat self query video_id max_frames = Ok ctx ->
  exists v entries,
    let hits :=
      Index.nearest (RAGService.frames_collection self) v (max_frames * 2)
        {[ "video_id" := MStr video_id ]} in
    encode query = Ok v
    /\ mapM entry_of_hit hits = Ok entries
    /\ Context.frames ctx
       = Py.slice_to (Py.sort_key_reverse FrameContext.relevance_score entries)
           max_frames.
Proof.
  unfold get_context_for_chat. intros Hrun.
  destruct (search_relevant_content self query video_id (max_frames * 2))
    as [res|] eqn:Hres; [|done].
  apply search_relevant_content_Ok in Hres as (v & Hv & ->).
  unfold mbind, result_mbind, result_bind in Hrun.
  cbn [SearchResults.frames SearchResults.transcript] in Hrun.
  rewrite query_ids in Hrun. cbn [truthy_list] in Hrun.
  change (py_index [?l] 0) with (Ok l) in Hrun. cbv beta iota in Hrun.
  rewrite mapM_frame_entry in Hrun.
  destruct (mapM entry_of_hit _) as [entries|] eqn:Hentries; [|done].
  exists v, entries. split; [done|]. split; [done|].
  destruct (if truthy_list _ then _ else _); [|done].
  by inversion Hrun.
Qed.

End ContextAssembly.

Section ContextBounds.
Context `{Collaborators}.

Lemma slice_nil {A} (lo hi : Z) : Py.slice (@nil A) lo hi = [].
Proof. unfold Py.slice. by rewrite drop_nil, take_nil. Qed.

Lemma Forall2_length_eq {A B} (P : A -> B -> Prop) (l : list A) (k : list B) :
  Forall2 P l k -> length l = length k.
Proof. induction 1; simpl; congruence. Qed.

(** C4. Whatever the query, the video and [max_frames],
    [get_context_for_chat] returns at most [max_frames] frame entries (none
    when [max_frames] is not positive), however many frames the index holds
    for the video; the entries are those of a frame query with
    [n_results = 2 * max_frames], sorted by relevance and then truncated. *)
Theorem get_context_for_chat_bounded (self : RAGService.t)
    (query video_id : string) (max_frames : Z) (ctx : Context.t) :
  get_context_for_chat self query video_id max_frames = Ok ctx ->
  (length (Context.frames ctx) <= Z.to_nat max_frames)%nat
  /\ exists v entries ids0,
       let fetched :=
         Index.query (RAGService.frames_collection self) [v] (2 * max_frames)
           {[ "video_id" := MStr video_id ]} in
       encode query = Ok v
       /\ Index.ids fetched = [ids0]
       /\ (length ids0 <= Z.to_nat (2 * max_frames))%nat
       /\ mapM (frame_entry fetched) (Py.enumerate ids0) = Ok entries
       /\ Context.frames ctx
          = Py.slice_to
              (Py.sort_key_reverse FrameContext.relevance_score entries)
              max_frames.
Proof.
  intros (v & entries & Hv & Hentries & Hframes)%get_context_for_chat_Ok.
  cbv zeta in Hentries. rewrite (Z.mul_comm max_frames 2) in Hentries.
  pose proof (nearest_length (RAGService.frames_collection self) v
                (2 * max_frames) {[ "video_id" := MStr video_id ]}) as Hlen.
  pose proof (Forall2_length_eq _ _ _ (mapM_entry_of_hit _ _ Hentries)) as Hsame.
  split.
  - rewrite Hframes. destruct (Z.le_gt_cases 0 max_frames) as [Hpos|Hneg].
    + by apply slice_to_length.
    + assert (Hnone : entries = []).
      { apply length_zero_iff_nil. lia. }
      rewrite Hnone. unfold Py.slice_to, Py.sort_key_reverse. simpl Py.sorted.
      rewrite slice_nil. simpl. lia.
  - exists v, entries. eexists. cbv zeta.
    split; [exact Hv|]. split; [apply query_ids|].
    split; [by rewrite length_map|].
    split; [by rewrite mapM_frame_entry|exact Hframes].
Qed.

(** C3, as amended.  The scores that [get_context_for_chat] returns are
    non-increasing along the list; each is one minus the distance from the
    query's vector to a frame record of the video, unclamped; so they lie
    in [0,1] whenever those distances do. *)
Theorem get_context_for_chat_scores (self : RAGService.t)
    (query video_id : string) (max_frames : Z) (ctx : Context.t) :
  get_context_for_chat self query video_id max_frames = Ok ctx ->
  (forall i j a b, (i < j)%nat ->
      Context.frames ctx !! i = Some a -> Context.frames ctx !! j = Some b ->
      (FrameContext.relevance_score b <= FrameContext.relevance_score a)%Q)
  /\ (forall e, e ∈ Context.frames ctx ->
        exists v r,
          encode query = Ok v
          /\ r ∈ RAGService.frames_collection self
          /\ Index.metadata r !! "video_id" = Some (MStr video_id)
          /\ Index.id r = FrameContext.frame_id e
          /\ FrameContext.relevance_score e
             = (1 - distance v (Index.embedding r))%Q)
  /\ ((forall v r, encode query = Ok v ->
                   r ∈ RAGService.frames_collection self ->
                   (0 <= distance v (Index.embedding r) <= 1)%Q) ->
      forall e, e ∈ Context.frames ctx ->
                (0 <= FrameContext.relevance_score e <= 1)%Q).
Proof.
  intros (v & entries & Hv & Hentries & Hframes)%get_context_for_chat_Ok.
  cbv zeta in Hentries. apply mapM_entry_of_hit in Hentries.
  assert (Hsorted :
    StronglySorted (fun a b => (FrameContext.relevance_score b
                                <= FrameContext.relevance_score a)%Q)
      (Context.frames ctx)).
  { rewrite Hframes. apply StronglySorted_slice, sort_key_reverse_pairwise. }
  assert (Hfrom : forall e, e ∈ Context.frames ctx ->
    exists r, r ∈ RAGService.frames_collection self
      /\ Index.metadata r !! "video_id" = Some (MStr video_id)
      /\ Index.id r = FrameContext.frame_id e
      /\ FrameContext.relevance_score e
         = (1 - distance v (Index.embedding r))%Q).
  { intros e He. rewrite Hframes in He. apply slice_subset in He.
    unfold Py.sort_key_reverse in He. rewrite sorted_perm in He.
    apply list_elem_of_lookup in He as [i He].
    destruct (Forall2_lookup_r _ _ _ _ _ Hentries He) as (h & Hh & Hid & _ & Hs).
    apply list_elem_of_lookup_2, nearest_hit in Hh as (Hin & Hm & Hd).
    exists (fst h). split; [done|]. split; [by apply matches_video_id|].
    split; [done|]. by rewrite Hs, Hd. }
  split; [|split].
  - intros i j a b Hij Ha Hb.
    apply (StronglySorted_lookup _ _ i j a b Hsorted Hij Ha Hb).
  - intros e He. destruct (Hfrom e He) as (r & ?). by exists v, r.
  - intros Hbound e He. destruct (Hfrom e He) as (r & Hin & _ & _ & ->).
    destruct (Hbound v r Hv Hin) as [Hlo Hhi].
    split.
    + apply (Qplus_le_l _ _ (distance v (Index.embedding r))). by ring_simplify.
    + apply (Qplus_le_l _ _ (distance v (Index.embedding r))).
      ring_simplify. apply (Qplus_le_r _ _ 1) in Hlo. by ring_simplify in Hlo.
Qed.

End ContextBounds.

Section ContextExamples.

(** The context assembled for the query "cat" on video A, two frames asked
    for: four hits are asked of the index, three exist, two are kept. *)
Example context_for_cat :
  get_context_for_chat (H := Demo.collaborators) Demo.two_videos "cat" "A" 2
  = Ok {| Context.frames :=
            [FrameContext.mk "f1" (MStr "/static/frames/A/frame_0000.jpg")
               (MFloat 1) "Objects: cat | Timestamp: 1.00 seconds" 1;
             FrameContext.mk "f3" (MStr "/static/frames/A/frame_0002.jpg")
               (MFloat 3) "Objects: car | Timestamp: 3.00 seconds"
               (- 15 # 25)];
          Context.transcript := "" |}.
Proof. vm_compute. reflexivity. Qed.

Lemma get_context_for_chat_bounded_witness :
  exists ctx,
    get_context_for_chat (H := Demo.collaborators) Demo.two_videos "cat" "A" 2
    = Ok ctx
    /\ (length (Context.frames ctx) <= Z.to_nat 2)%nat
    /\ exists v entries ids0,
         let fetched :=
           Index.query (H := Demo.collaborators)
             (RAGService.frames_collection Demo.two_videos) [v] (2 * 2)
             {[ "video_id" := MStr "A" ]} in
         encode (Collaborators := Demo.collaborators) "cat" = Ok v
         /\ Index.ids fetched = [ids0]
         /\ (length ids0 <= Z.to_nat (2 * 2))%nat
         /\ mapM (frame_entry fetched) (Py.enumerate ids0) = Ok entries
         /\ Context.frames ctx
            = Py.slice_to
                (Py.sort_key_reverse FrameContext.relevance_score entries) 2.
Proof.
  eexists. split; [exact context_for_cat|].
  apply (get_context_for_chat_bounded (H := Demo.collaborators)
           Demo.two_videos "cat" "A" 2).
  vm_compute. reflexivity.
Defined.

Lemma get_context_for_chat_scores_witness :
  exists ctx,
    get_context_for_chat (H := Demo.collaborators) Demo.two_videos "cat" "A" 2
    = Ok ctx
    /\ (forall i j a b, (i < j)%nat ->
          Context.frames ctx !! i = Some a -> Context.frames ctx !! j = Some b ->
          (FrameContext.relevance_score b <= FrameContext.relevance_score a)%Q)
    /\ (forall e, e ∈ Context.frames ctx ->
          exists v r,
            encode (Collaborators := Demo.collaborators) "cat" = Ok v
            /\ r ∈ RAGService.frames_collection Demo.two_videos
            /\ Index.metadata r !! "video_id" = Some (MStr "A")
            /\ Index.id r = FrameContext.frame_id e
            /\ FrameContext.relevance_score e
               = (1 - Demo.cosine_distance_unit v (Index.embedding r))%Q)
    /\ ((forall v r,
            encode (Collaborators := Demo.collaborators) "cat" = Ok v ->
            r ∈ RAGService.frames_collection Demo.two_videos ->
            (0 <= Demo.cosine_distance_unit v (Index.embedding r) <= 1)%Q) ->
        forall e, e ∈ Context.frames ctx ->
                  (0 <= FrameContext.relevance_score e <= 1)%Q).
Proof.
  eexists. split; [exact context_for_cat|].
  apply (get_context_for_chat_scores (H := Demo.collaborators)
           Demo.two_videos "cat" "A" 2).
  vm_compute. reflexivity.
Defined.

(** C3, as stated, fails: the frame "f3" of video A lies at cosine distance
    8/5 from the query, and is returned with the score -3/5. *)
Lemma relevance_score_below_zero :
  ~ (forall ctx,
        get_context_for_chat (H := Demo.collaborators)
          Demo.two_videos "cat" "A" 2 = Ok ctx ->
        (forall e, e ∈ Context.frames ctx ->
                   (0 <= FrameContext.relevance_score e <= 1)%Q)
        /\ (forall i j a b, (i < j)%nat ->
              Context.frames ctx !! i = Some a ->
              Context.frames ctx !! j = Some b ->
              (FrameContext.relevance_score b
               <= FrameContext.relevance_score a)%Q)).
Proof.
  intros Hclaim.
  destruct (Hclaim _ context_for_cat) as [Hrange _].
  cbn [Context.frames] in Hrange.
  destruct (Hrange (FrameContext.mk "f3" (MStr "/static/frames/A/frame_0002.jpg")
                      (MFloat 3) "Objects: car | Timestamp: 3.00 seconds"
                      (- 15 # 25))) as [Hlo _].
  - apply elem_of_cons. right. apply elem_of_cons. by left.
  - cbn [FrameContext.relevance_score] in Hlo.
    unfold Qle in Hlo. simpl in Hlo. lia.
Qed.

End ContextExamples.

(** ** Ingestion and failures *)

Section Loops.
Context {S A : Type}.

Lemma st_for_app (xs ys : list A) (body : A -> St S unit) (s : S) :
  st_for (xs ++ ys) body s
  = match st_for xs body s with
    | (Ok _, s') => st_for ys body s'
    | (Raise e, s') => (Raise e, s')
    end.
Proof.
  revert s. induction xs as [|x xs IH]; intros s; [done|].
  cbn [app st_for]. unfold mbind, St_mbind, st_bind.
  destruct (body x s) as [[[]|e] s']; [apply IH|done].
Qed.

(** A loop whose body raises at some element stops there: the elements
    after it are not visited. *)
Lemma st_for_raises (pre post : list A) (x : A) (body : A -> St S unit)
    (s s1 s2 : S) (e : exception) :
  st_for pre body s = (Ok tt, s1) ->
  body x s1 = (Raise e, s2) ->
  st_for (pre ++ x :: post) body s = (Raise e, s2).
Proof.
  intros Hpre Hx. rewrite st_for_app, Hpre.
  cbn [st_for]. unfold mbind, St_mbind, st_bind. by rewrite Hx.
Qed.

End Loops.

Section Ingestion.
Context `{Collaborators}.

Lemma _add_chunk_raises (video_info : VideoInfo.t) (i : Z) (chunk : string)
    (e : exception) (self : RAGService.t) :
  encode chunk = Raise e ->
  _add_chunk video_info (i, chunk) self = (Raise e, self).
Proof.
  intros Hv. unfold _add_chunk, mbind, St_mbind, st_bind, st_lift.
  by rewrite Hv.
Qed.

Lemma enumerate_app {A} (l k : list A) :
  Py.enumerate (l ++ k)
  = Py.enumerate l
    ++ imap (fun i x => (Z.of_nat (length l + i), x)) k.
Proof. unfold Py.enumerate. by rewrite imap_app. Qed.

(** C8, as amended.  An embedding failure on a frame (or on a transcript
    chunk) is not caught by the ingestion loop: [_add_frames] (or
    [_add_transcript]) raises that exception, the index is left as it was
    after the frames (chunks) before the failing one, and those after it
    are not ingested. *)
Theorem ingestion_stops_at_failure (self self1 : RAGService.t)
    (e : exception) :
  (forall (pre post : list VideoFrame.t) (bad : VideoFrame.t),
      _add_frames pre self = (Ok tt, self1) ->
      encode (_create_frame_description bad) = Raise e ->
      _add_frames (pre ++ bad :: post) self = (Raise e, self1))
  /\ (forall (video_info : VideoInfo.t) (pre post : list string) (bad : string),
        truthy_str (VideoInfo.transcript video_info) = true ->
        _chunk_transcript (default "" (VideoInfo.transcript video_info))
          default_chunk_size = Ok (pre ++ bad :: post) ->
        st_for (Py.enumerate pre) (_add_chunk video_info) self = (Ok tt, self1) ->
        encode bad = Raise e ->
        _add_transcript video_info self = (Raise e, self1)).
Proof.
  split.
  - intros pre post bad Hpre Hbad. unfold _add_frames in *.
    apply (st_for_raises pre post bad _add_frame self self1 self1 e Hpre).
    by apply _add_frame_raises.
  - intros video_info pre post bad Htruthy Hchunks Hpre Hbad.
    unfold _add_transcript. rewrite Htruthy. cbn [negb].
    unfold mbind, St_mbind, st_bind, st_lift. rewrite Hchunks.
    rewrite enumerate_app. cbn [imap].
    apply (st_for_raises _ _ _ _ self self1 self1 e Hpre).
    by apply _add_chunk_raises.
Qed.

End Ingestion.

Section IngestionExamples.

(** Three frames, the second of which cannot be embedded. *)
Example add_frames_with_corrupt_frame :
  let '(r, self') :=
    _add_frames (H := Demo.collaborators)
      [Demo.cat_frame; Demo.corrupt_frame; Demo.car_frame] Demo.empty_rag in
  r = Raise (Exn "RuntimeError" "embedding failed")
  /\ map Index.id (RAGService.frames_collection self') = ["f1"].
Proof. vm_compute. done. Qed.

Lemma ingestion_stops_at_failure_witness :
  (forall (pre post : list VideoFrame.t) (bad : VideoFrame.t),
      _add_frames (H := Demo.collaborators) pre Demo.empty_rag
      = (Ok tt, Demo.empty_rag) ->
      encode (Collaborators := Demo.collaborators)
        (_create_frame_description (H := Demo.collaborators) bad)
      = Raise (Exn "RuntimeError" "embedding failed") ->
      _add_frames (H := Demo.collaborators) (pre ++ bad :: post) Demo.empty_rag
      = (Raise (Exn "RuntimeError" "embedding failed"), Demo.empty_rag))
  /\ _add_frames (H := Demo.collaborators)
       ([] ++ Demo.corrupt_frame :: [Demo.car_frame]) Demo.empty_rag
     = (Raise (Exn "RuntimeError" "embedding failed"), Demo.empty_rag).
Proof.
  pose proof (ingestion_stops_at_failure (H := Demo.collaborators)
                Demo.empty_rag Demo.empty_rag
                (Exn "RuntimeError" "embedding failed")) as [Hframes _].
  split; [exact Hframes|].
  apply Hframes; vm_compute; reflexivity.
Defined.

(** C8, as stated, fails: with a failing second frame, the third frame is
    not added to the index. *)
Lemma corrupt_frame_loses_later_frames :
  ~ (forall f,
        f ∈ [Demo.cat_frame; Demo.corrupt_frame; Demo.car_frame] ->
        f <> Demo.corrupt_frame ->
        VideoFrame.id f
        ∈ map Index.id
            (RAGService.frames_collection
               (snd (_add_frames (H := Demo.collaborators)
                       [Demo.cat_frame; Demo.corrupt_frame; Demo.car_frame]
                       Demo.empty_rag)))).
Proof.
  intros Hclaim.
  specialize (Hclaim Demo.car_frame).
  assert (Hin : VideoFrame.id Demo.car_frame ∈ ["f1"]).
  { apply Hclaim.
    - do 2 (apply elem_of_cons; right). apply elem_of_cons. by left.
    - intros Heq. by apply (f_equal VideoFrame.id) in Heq. }
  apply list_elem_of_singleton in Hin. vm_compute in Hin. discriminate Hin.
Qed.

End IngestionExamples.

(** ** The generation boundary *)

Section GenerationBoundary.
Context `{Collaborators}.

(** [generate_response] never raises. *)
Lemma generate_response_total (self : LLMService.t) (message : string)
    (context : Context.t) (use_vision : bool) (s : App.t) :
  exists r s', generate_response self message context use_vision s = (Ok r, s').
Proof.
  unfold generate_response, st_try, mbind, St_mbind, st_bind, st_lift, time,
    read_clock, mret, St_mret, st_ret.
  cbn beta iota.
  destruct (dispatch_generation self message context use_vision);
    eexists; eexists; reflexivity.
Qed.

(** C9. Whatever the message and the context, when the generation that
    [generate_response] dispatches to raises an exception, the call does
    not raise: it returns a response whose confidence is 0.0 and whose
    content is the apology followed by the exception's text. *)
Theorem generate_response_degrades (self : LLMService.t) (message : string)
    (context : Context.t) (use_vision : bool) (s : App.t) (e : exception) :
  dispatch_generation self message context use_vision = Raise e ->
  exists r s',
    generate_response self message context use_vision s = (Ok r, s')
    /\ LLMResponse.confidence r = 0%Q
    /\ LLMResponse.content r
       = "I apologize, but I encountered an error: " +:+ str_exn e
    /\ String.prefix "I apologize" (LLMResponse.content r) = true.
Proof.
  intros Hraise.
  unfold generate_response, st_try, mbind, St_mbind, st_bind, st_lift, time,
    read_clock, mret, St_mret, st_ret.
  cbn beta iota. rewrite Hraise.
  eexists. eexists. split; [reflexivity|]. done.
Qed.

(** A provider that fails makes the dispatched generation fail, when it is
    the only provider configured. *)
Lemma dispatch_generation_client_fails (create : LLM.client)
    (message : string) (context : Context.t) (use_vision : bool)
    (e : exception) :
  (forall request, create request = Raise e) ->
  dispatch_generation (LLMService.mk (Some create) None) message context
    use_vision = Raise e
  /\ dispatch_generation (LLMService.mk None (Some create)) message context
       use_vision = Raise e.
Proof.
  intros Hfail. unfold dispatch_generation.
  split.
  - destruct (use_vision && truthy_list (Context.frames context)).
    + destruct (bool_decide _ && _).
      * unfold _generate_openai_vision_response. cbn [LLMService.openai_client].
        by rewrite Hfail.
      * rewrite bool_decide_eq_false_2 by (by intros [? [=]]).
        unfold _generate_text_only_response, _generate_openai_text_response.
        cbn [LLMService.openai_client]. by rewrite Hfail.
    + unfold _generate_text_only_response, _generate_openai_text_response.
      cbn [LLMService.openai_client]. by rewrite Hfail.
  - destruct (use_vision && truthy_list (Context.frames context)).
    + rewrite bool_decide_eq_false_2 by (by intros [? [=]]).
      cbn [andb]. rewrite bool_decide_eq_true_2 by (by eexists).
      unfold _generate_anthropic_vision_response.
      cbn [LLMService.anthropic_client]. by rewrite Hfail.
    + unfold _generate_text_only_response, _generate_anthropic_text_response.
      cbn [LLMService.openai_client LLMService.anthropic_client].
      by rewrite Hfail.
Qed.

End GenerationBoundary.

Lemma generate_response_degrades_witness :
  dispatch_generation (H := Demo.collaborators)
    (LLMService.mk (Some Demo.failing_client) None) "what is shown?"
    (Context.mk [] "the cat sat on the mat") true
  = Raise (Exn "APIError" "rate limit exceeded")
  /\ exists r s',
       generate_response (H := Demo.collaborators)
         (LLMService.mk (Some Demo.failing_client) None) "what is shown?"
         (Context.mk [] "the cat sat on the mat") true Demo.empty_app
       = (Ok r, s')
       /\ LLMResponse.confidence r = 0%Q
       /\ LLMResponse.content r
          = "I apologize, but I encountered an error: "
            +:+ str_exn (Exn "APIError" "rate limit exceeded")
       /\ String.prefix "I apologize" (LLMResponse.content r) = true.
Proof.
  split; [reflexivity|].
  apply (generate_response_degrades (H := Demo.collaborators)
           (LLMService.mk (Some Demo.failing_client) None) "what is shown?"
           (Context.mk [] "the cat sat on the mat") true Demo.empty_app
           (Exn "APIError" "rate limit exceeded")).
  reflexivity.
Defined.

Example generate_response_on_failing_provider :
  fst (generate_response (H := Demo.collaborators)
         (LLMService.mk (Some Demo.failing_client) None) "what is shown?"
         (Context.mk [] "the cat sat on the mat") true Demo.empty_app)
  = Ok (LLMResponse.mk
          "I apologize, but I encountered an error: rate limit exceeded"
          0 (Some (1 - 0)%Q)).
Proof. reflexivity. Qed.

(** ** What a computation leaves untouched *)

Section Keeps.
Context {S T : Type} (f : S -> T).
Abbreviation keeps := (keeps f).

Lemma keeps_ret {A} (a : A) : keeps (mret a).
Proof. done. Qed.

Lemma keeps_lift {A} (r : result A) : keeps (st_lift r).
Proof. done. Qed.

Lemma keeps_get : keeps st_get.
Proof. done. Qed.

Lemma keeps_modify (g : S -> S) : (forall s, f (g s) = f s) -> keeps (st_modify g).
Proof. intros Hg s. apply Hg. Qed.

Lemma keeps_bind {A B} (m : St S A) (k : A -> St S B) :
  keeps m -> (forall a, keeps (k a)) -> keeps (m ≫= k).
Proof.
  intros Hm Hk s. unfold mbind, St_mbind, st_bind.
  specialize (Hm s). destruct (m s) as [[a|e] s']; simpl in *.
  - by rewrite Hk.
  - done.
Qed.

Lemma keeps_try {A} (body : St S A) (handler : exception -> St S A) :
  keeps body -> (forall e, keeps (handler e)) -> keeps (st_try body handler).
Proof.
  intros Hm Hk s. unfold st_try.
  specialize (Hm s). destruct (body s) as [[a|e] s']; simpl in *.
  - done.
  - by rewrite Hk.
Qed.

Lemma keeps_for {A} (xs : list A) (body : A -> St S unit) :
  (forall x, keeps (body x)) -> keeps (st_for xs body).
Proof.
  intros Hbody. induction xs as [|x xs IH]; [done|].
  cbn [st_for]. apply keeps_bind; [apply Hbody|by intros _].
Qed.

Lemma keeps_if {A} (b : bool) (m1 m2 : St S A) :
  keeps m1 -> keeps m2 -> keeps (if b then m1 else m2).
Proof. by destruct b. Qed.

End Keeps.

Lemma keeps_zoom {S T U A} (f : T -> U) (get : S -> T) (set : T -> S -> S)
    (m : St T A) :
  (forall t s, get (set t s) = t) ->
  keeps f m -> keeps (f ∘ get) (st_zoom get set m).
Proof.
  intros Hgs Hm s. unfold st_zoom. specialize (Hm (get s)).
  destruct (m (get s)) as [r t]. simpl in *. by rewrite Hgs.
Qed.

(** ** The upload flow and the frames namespace *)

Section UploadFlow.
Context `{Collaborators}.

Lemma keeps_now {T} (f : App.t -> T) :
  (forall r v c u k1 k2, f (App.mk r v c u k1) = f (App.mk r v c u k2)) ->
  keeps f now.
Proof. intros Hf [r v c u k]. apply Hf. Qed.

Lemma keeps_draw_uuid4 {T} (f : App.t -> T) :
  (forall r v c u1 u2 k, f (App.mk r v c u1 k) = f (App.mk r v c u2 k)) ->
  keeps f draw_uuid4.
Proof. intros Hf [r v c u k]. apply Hf. Qed.

Lemma extract_loop_keeps_rag (video_id : string) (fps : Q)
    (frame_interval : Z) (reads : list string) (frame_count extracted_count : Z)
    (frames : list VideoFrame.t) :
  keeps App.rag
    (extract_loop video_id fps frame_interval reads frame_count
       extracted_count frames).
Proof.
  revert frame_count extracted_count frames.
  induction reads as [|x reads IH]; intros fc ec frames; [by apply keeps_ret|].
  cbn [extract_loop]. apply keeps_bind; [apply keeps_lift|]. intros m.
  apply keeps_if; [|apply IH].
  apply keeps_bind; [apply keeps_lift|]. intros ts.
  apply keeps_bind; [by apply keeps_draw_uuid4|]. intros id. apply IH.
Qed.

(** Processing a video does not touch the index. *)
Lemma process_video_keeps_rag (video_path video_id : string) :
  keeps App.rag (process_video video_path video_id).
Proof.
  unfold process_video. apply keeps_try.
  - apply keeps_bind.
    { unfold _extract_video_metadata.
      apply keeps_bind; [apply keeps_lift|]. intros size.
      apply keeps_bind; [by apply keeps_now|]. intros t. apply keeps_ret. }
    intros video_info. apply keeps_bind; [apply extract_loop_keeps_rag|].
    intros frames. apply keeps_bind; [by apply keeps_now|]. intros t.
    apply keeps_ret.
  - intros e. apply keeps_bind; [apply keeps_lift|]. intros size.
    apply keeps_bind; [by apply keeps_now|]. intros t. apply keeps_ret.
Qed.

Lemma _add_chunk_keeps_frames (video_info : VideoInfo.t) (ic : Z * string) :
  keeps RAGService.frames_collection (_add_chunk video_info ic).
Proof.
  destruct ic as [i chunk]. unfold _add_chunk.
  apply keeps_bind; [apply keeps_lift|]. intros v.
  by apply keeps_modify.
Qed.

Lemma _add_transcript_keeps_frames (video_info : VideoInfo.t) :
  keeps RAGService.frames_collection (_add_transcript video_info).
Proof.
  unfold _add_transcript. apply keeps_if; [apply keeps_ret|].
  apply keeps_bind; [apply keeps_lift|]. intros chunks.
  apply keeps_for. apply _add_chunk_keeps_frames.
Qed.

(** Ingesting a video with no frames leaves the frames namespace alone. *)
Lemma add_video_content_no_frames_keeps_frames (video_info : VideoInfo.t) :
  keeps RAGService.frames_collection (add_video_content video_info []).
Proof.
  unfold add_video_content. apply keeps_bind; [|by intros _].
  apply keeps_if; [apply _add_transcript_keeps_frames|apply keeps_ret].
Qed.

Lemma process_video_background_keeps_frames (video_id video_path : string) :
  keeps (RAGService.frames_collection ∘ App.rag)
    (process_video_background video_id video_path).
Proof.
  unfold process_video_background. apply keeps_try.
  - apply keeps_bind; [by apply keeps_modify|]. intros _.
    apply keeps_bind.
    { intros s. simpl. f_equal. apply process_video_keeps_rag. }
    intros video_info. apply keeps_bind; [by apply keeps_modify|]. intros _.
    change (keeps (RAGService.frames_collection ∘ App.rag)
              (on_rag (add_video_content video_info []))).
    apply (keeps_zoom RAGService.frames_collection); [by intros ? []|].
    apply add_video_content_no_frames_keeps_frames.
  - intros e. by apply keeps_modify.
Qed.

Lemma process_video_background_returns (video_id video_path : string)
    (s : App.t) :
  fst (process_video_background video_id video_path s) = Ok tt.
Proof.
  unfold process_video_background, st_try.
  match goal with |- context [match ?m s with _ => _ end] =>
    destruct (m s) as [[[]|e] s'] end; reflexivity.
Qed.

(** A filtered search over a collection that holds nothing of the video
    finds nothing. *)
Lemma nearest_none (c : Index.collection) (q : list Q) (k : Z)
    (video_id : string) :
  Forall (fun r => Index.metadata r !! "video_id" <> Some (MStr video_id)) c ->
  Index.nearest c q k {[ "video_id" := MStr video_id ]} = [].
Proof.
  intros Hc. unfold Index.nearest.
  replace (List.filter _ c) with (@nil Index.record);
    [cbn [map Py.sorted foldr]; by rewrite take_nil|].
  symmetry. induction Hc as [|r c Hr Hc IH]; [done|].
  cbn [List.filter].
  destruct (Index.matches _ _) eqn:Hm; [|exact IH].
  by apply matches_video_id in Hm.
Qed.

(** C2. [get_video_frames] always returns the empty list, so the
    background task of an upload is the task that hands [add_video_content]
    an empty frame list; it does not raise and leaves the frames namespace
    as it found it; so, for a video of which the namespace held no frame
    before, a frame query scoped to the video returns no result after the
    processing. *)
Theorem upload_flow_adds_no_frames (video_id video_path : string) (s : App.t) :
  Forall (fun r => Index.metadata r !! "video_id" <> Some (MStr video_id))
    (RAGService.frames_collection (App.rag s)) ->
  (forall s0, get_video_frames video_id s0 = (Ok [], s0))
  /\ (forall s0,
        process_video_background video_id video_path s0
        = st_try
            (_ ← mark_status video_id PROCESSING;
             video_info ← process_video video_path video_id;
             _ ← st_modify (fun s =>
                   App.set_videos_db
                     (<[video_id := video_info]> (App.videos_db s)) s);
             on_rag (add_video_content video_info []))
            (fun e =>
               st_modify (fun s =>
                 App.set_videos_db
                   (alter (fun v =>
                             set_metadata
                               (<["error" := str_exn e]> (VideoInfo.metadata v))
                               (set_status ERROR v))
                      video_id (App.videos_db s)) s))
            s0)
  /\ fst (process_video_background video_id video_path s) = Ok tt
  /\ RAGService.frames_collection
       (App.rag (snd (process_video_background video_id video_path s)))
     = RAGService.frames_collection (App.rag s)
  /\ forall query k res,
       search_relevant_content
         (App.rag (snd (process_video_background video_id video_path s)))
         query video_id k = Ok res ->
       Index.ids (SearchResults.frames res) = [[]]
       /\ Index.documents (SearchResults.frames res) = [[]].
Proof.
  intros Hfresh.
  pose proof (process_video_background_keeps_frames video_id video_path s)
    as Hkeep.
  cbn [compose] in Hkeep.
  split; [done|]. split; [reflexivity|].
  split; [apply process_video_background_returns|].
  split; [exact Hkeep|].
  intros query k res (v & _ & ->)%search_relevant_content_Ok.
  cbn [SearchResults.frames]. rewrite query_single.
  cbn [Index.ids Index.documents]. rewrite Hkeep.
  by rewrite nearest_none.
Qed.

End UploadFlow.

Lemma upload_flow_adds_no_frames_witness :
  Forall (fun r => Index.metadata r !! "video_id" <> Some (MStr "V"))
    (RAGService.frames_collection Demo.two_videos)
  /\ let s := App.mk Demo.two_videos ∅ ∅ O O in
     let run := process_video_background (H := Demo.collaborators) "V" "x.mp4" in
     (forall s0, get_video_frames "V" s0 = (Ok [], s0))
     /\ (forall s0,
           run s0
           = st_try
               (_ ← mark_status "V" PROCESSING;
                video_info ← process_video (H := Demo.collaborators) "x.mp4" "V";
                _ ← st_modify (fun s =>
                      App.set_videos_db
                        (<["V" := video_info]> (App.videos_db s)) s);
                on_rag (add_video_content (H := Demo.collaborators)
                          video_info []))
               (fun e =>
                  st_modify (fun s =>
                    App.set_videos_db
                      (alter (fun v =>
                                set_metadata
                                  (<["error" := str_exn e]>
                                     (VideoInfo.metadata v))
                                  (set_status ERROR v))
                         "V" (App.videos_db s)) s))
               s0)
     /\ fst (run s) = Ok tt
     /\ RAGService.frames_collection (App.rag (snd (run s)))
        = RAGService.frames_collection (App.rag s)
     /\ forall query k res,
          search_relevant_content (H := Demo.collaborators)
            (App.rag (snd (run s))) query "V" k = Ok res ->
          Index.ids (SearchResults.frames res) = [[]]
          /\ Index.documents (SearchResults.frames res) = [[]].
Proof.
  assert (Hfresh :
    Forall (fun r => Index.metadata r !! "video_id" <> Some (MStr "V"))
      (RAGService.frames_collection Demo.two_videos)).
  { apply (bool_decide_unpack _). vm_compute. exact I. }
  split; [exact Hfresh|].
  apply (upload_flow_adds_no_frames (H := Demo.collaborators) "V" "x.mp4"
           (App.mk Demo.two_videos ∅ ∅ O O) Hfresh).
Defined.

(** The background task on a seven-frame clip: four frames are extracted
    while processing, the transcript is indexed in one chunk, and the
    frames namespace stays empty. *)
Example upload_clip :
  let s' := snd (process_video_background (H := Demo.collaborators)
                   "V" "x.mp4" Demo.empty_app) in
  (VideoInfo.frame_count <$> App.videos_db s' !! "V") = Some (Some 4)
  /\ (VideoInfo.status <$> App.videos_db s' !! "V") = Some READY
  /\ map Index.id (RAGService.transcripts_collection (App.rag s'))
     = ["V_transcript_0"]
  /\ RAGService.frames_collection (App.rag s') = [].
Proof. vm_compute. done. Qed.

(** ** Frame extraction *)

Section FrameExtraction.
Context `{Collaborators}.

Lemma py_int_pos (x : Q) : 1 <= py_int x -> (0 < x)%Q.
Proof.
  unfold py_int, Qlt. destruct x as [n d]. cbn [Qnum Qden]. intros Hq.
  destruct (Z.le_gt_cases n 0) as [Hn|Hn]; [|lia].
  assert (Hneg : 0 <= Z.quot (- n) (Z.pos d)) by (apply Z.quot_pos; lia).
  rewrite Z.quot_opp_l in Hneg by lia. lia.
Qed.

Lemma div_fps_lt (a b : Z) (fps : Q) :
  (0 < fps)%Q -> a < b -> (inject_Z a / fps < inject_Z b / fps)%Q.
Proof.
  intros Hfps Hab. unfold Qdiv. apply Qmult_lt_compat_r.
  - by apply Qinv_lt_0_compat.
  - by rewrite <- Zlt_Qlt.
Qed.

Lemma extracted_ok_next (fps : Q) (frame_count : Z)
    (frames : list VideoFrame.t) :
  (0 < fps)%Q ->
  extracted_ok fps frame_count frames ->
  extracted_ok fps (frame_count + 1) frames.
Proof.
  intros Hfps (Hlen & Hnum & Hsort & Hlast). repeat split; try done.
  eapply Forall_impl; [exact Hlast|]. intros f Hf.
  eapply Qlt_trans; [exact Hf|]. apply div_fps_lt; [done|lia].
Qed.

Lemma extracted_ok_snoc (fps : Q) (frame_count : Z)
    (frames : list VideoFrame.t) (f : VideoFrame.t) :
  (0 < fps)%Q ->
  extracted_ok fps frame_count frames ->
  Z.of_nat (length frames) < Settings.MAX_FRAMES_PER_VIDEO settings ->
  VideoFrame.frame_number f = Z.of_nat (length frames) ->
  VideoFrame.timestamp f = (inject_Z frame_count / fps)%Q ->
  extracted_ok fps (frame_count + 1) (frames ++ [f]).
Proof.
  intros Hfps (Hlen & Hnum & Hsort & Hlast) Hroom Hf Hts. repeat split.
  - rewrite length_app. cbn [length]. lia.
  - intros i g Hg.
    apply lookup_app_Some in Hg as [Hold|[Hi Hnew]].
    + by apply Hnum.
    + apply list_lookup_singleton_Some in Hnew as [Hi0 <-].
      rewrite Hf. f_equal. lia.
  - apply StronglySorted_app_2; [|done|by repeat constructor].
    intros a b Ha ->%list_elem_of_singleton. rewrite Hts.
    rewrite Forall_forall in Hlast. by apply Hlast.
  - apply Forall_app. split.
    + eapply Forall_impl; [exact Hlast|]. intros g Hg.
      eapply Qlt_trans; [exact Hg|]. apply div_fps_lt; [done|lia].
    + constructor; [|done]. rewrite Hts. apply div_fps_lt; [done|lia].
Qed.

Lemma extract_loop_ok (video_id : string) (fps : Q) (frame_interval : Z)
    (reads : list string) :
  (0 < fps)%Q -> frame_interval <> 0 ->
  forall (frame_count : Z) (frames : list VideoFrame.t) (s : App.t),
    extracted_ok fps frame_count frames ->
    exists frames' s',
      extract_loop video_id fps frame_interval reads frame_count
        (Z.of_nat (length frames)) frames s = (Ok frames', s')
      /\ extracted_ok fps (frame_count + Z.of_nat (length reads)) frames'.
Proof.
  intros Hfps Hint.
  induction reads as [|x reads IH]; intros fc frames s Hok.
  - exists frames, s. split; [done|]. simpl. by rewrite Z.add_0_r.
  - cbn [extract_loop]. unfold py_mod.
    destruct (Z.eqb_spec frame_interval 0); [done|].
    unfold mbind at 1, St_mbind, st_bind at 1, st_lift at 1.
    replace (fc + Z.of_nat (length (x :: reads)))
      with (fc + 1 + Z.of_nat (length reads)) by (simpl; lia).
    destruct ((fc mod frame_interval =? 0)
              && (Z.of_nat (length frames)
                  <? Settings.MAX_FRAMES_PER_VIDEO settings)) eqn:Hcond.
    + apply andb_prop in Hcond as [_ Hroom%Z.ltb_lt].
      unfold py_truediv.
      destruct (Qeq_bool fps 0) eqn:Hz.
      { apply Qeq_bool_eq in Hz. rewrite Hz in Hfps. by apply Qlt_irrefl in Hfps. }
      unfold mbind, St_mbind, st_bind, st_lift, draw_uuid4.
      match goal with |- context [extract_loop _ _ _ _ _ _ (frames ++ [?f]) ?s1] =>
        destruct (IH (fc + 1) (frames ++ [f]) s1) as (frames' & s' & Hrun & Hok')
      end.
      { by apply extracted_ok_snoc. }
      exists frames', s'. split; [|done].
      rewrite <- Hrun. do 2 f_equal. rewrite length_app. simpl. lia.
    + apply IH. by apply extracted_ok_next.
Qed.

(** C10. When [int(fps * FRAME_EXTRACTION_RATE)] is at least 1,
    [_extract_frames] returns (it does not raise) at most
    [MAX_FRAMES_PER_VIDEO] = 300 frames; the [i]-th of them has
    [frame_number] [i]; and their timestamps increase strictly. *)
Theorem extract_frames_bounded_ordered (video_path video_id : string)
    (s : App.t) :
  1 <= py_int (Capture.CAP_PROP_FPS (VideoCapture video_path)
               * inject_Z (Settings.FRAME_EXTRACTION_RATE settings))%Q ->
  exists frames s',
    _extract_frames video_path video_id s = (Ok frames, s')
    /\ Settings.MAX_FRAMES_PER_VIDEO settings = 300
    /\ (length frames <= 300)%nat
    /\ (forall i f, frames !! i = Some f ->
                    VideoFrame.frame_number f = Z.of_nat i)
    /\ (forall i j a b, (i < j)%nat ->
          frames !! i = Some a -> frames !! j = Some b ->
          (VideoFrame.timestamp a < VideoFrame.timestamp b)%Q).
Proof.
  intros Hinterval. unfold _extract_frames.
  set (fps := Capture.CAP_PROP_FPS (VideoCapture video_path)) in *.
  assert (Hfps : (0 < fps)%Q).
  { apply py_int_pos in Hinterval.
    destruct fps as [n d]. unfold Qlt in *. simpl in *. lia. }
  assert (Hstart : extracted_ok fps 0 []).
  { split; [cbn; lia|]. split; [by intros i f|].
    split; constructor. }
  destruct (extract_loop_ok video_id fps
              (py_int (fps * inject_Z (Settings.FRAME_EXTRACTION_RATE settings)))
              (Capture.frames (VideoCapture video_path)) Hfps
              ltac:(lia) 0 [] s Hstart)
    as (frames & s' & Hrun & Hlen & Hnum & Hsort & _).
  exists frames, s'. split; [exact Hrun|]. split; [reflexivity|].
  split; [simpl in Hlen; lia|]. split; [exact Hnum|].
  intros i j a b Hij Ha Hb.
  apply (StronglySorted_lookup _ _ i j a b Hsort Hij Ha Hb).
Qed.

End FrameExtraction.

Lemma extract_frames_bounded_ordered_witness :
  1 <= py_int (Capture.CAP_PROP_FPS (Demo.VideoCapture "long.mp4")
               * inject_Z (Settings.FRAME_EXTRACTION_RATE settings))%Q
  /\ exists frames s',
       _extract_frames (H := Demo.collaborators) "long.mp4" "V" Demo.empty_app
       = (Ok frames, s')
       /\ Settings.MAX_FRAMES_PER_VIDEO settings = 300
       /\ (length frames <= 300)%nat
       /\ (forall i f, frames !! i = Some f ->
                       VideoFrame.frame_number f = Z.of_nat i)
       /\ (forall i j a b, (i < j)%nat ->
             frames !! i = Some a -> frames !! j = Some b ->
             (VideoFrame.timestamp a < VideoFrame.timestamp b)%Q).
Proof.
  split; [vm_compute; discriminate|].
  apply (extract_frames_bounded_ordered (H := Demo.collaborators)
           "long.mp4" "V" Demo.empty_app).
  vm_compute. discriminate.
Defined.

(** A clip of 1000 frames at 2 frames per second: every second frame is
    taken until the maximum is reached. *)
Example extract_long_clip :
  (fun frames => (length frames,
                  map VideoFrame.frame_number (take 3 frames),
                  map VideoFrame.timestamp (take 3 frames)))
    <$> fst (_extract_frames (H := Demo.collaborators) "long.mp4" "V"
               Demo.empty_app)
  = Ok (300%nat, [0; 1; 2], [0 # 2; 2 # 2; 4 # 2]%Q).
Proof. vm_compute. reflexivity. Qed.

(** A stream that reports 0 frames per second: the modulo raises. *)
Example extract_zero_fps :
  fst (_extract_frames (H := Demo.collaborators) "still.mp4" "V" Demo.empty_app)
  = Raise (Exn "ZeroDivisionError" "integer division or modulo by zero").
Proof. reflexivity. Qed.

(** ** The chat turn and the chat namespace *)

Section ChatTurn.
Context `{Collaborators}.

Lemma st_bind_Ok {S A B} (m : St S A) (k : A -> St S B) (s s' : S) (b : B) :
  (m ≫= k) s = (Ok b, s') ->
  exists a s1, m s = (Ok a, s1) /\ k a s1 = (Ok b, s').
Proof.
  unfold mbind, St_mbind, st_bind.
  destruct (m s) as [[a|e] s1]; [|done]. intros Hk. by exists a, s1.
Qed.

Lemma generate_response_effect (self : LLMService.t) (message : string)
    (context : Context.t) (use_vision : bool) (s s1 : App.t)
    (r : result LLMResponse.t) :
  generate_response self message context use_vision s = (r, s1) ->
  App.rag s1 = App.rag s /\ App.uuid_draws s1 = App.uuid_draws s.
Proof.
  unfold generate_response, st_try, mbind, St_mbind, st_bind, st_lift, time,
    read_clock, mret, St_mret, st_ret.
  cbn beta iota.
  destruct (dispatch_generation self message context use_vision);
    intros [= _ <-]; done.
Qed.

Lemma append_message_effect (video_id : string) (m : ChatMessage.t)
    (s s1 : App.t) (r : result unit) :
  append_message video_id m s = (r, s1) ->
  App.rag s1 = App.rag s /\ App.uuid_draws s1 = App.uuid_draws s.
Proof.
  unfold append_message.
  destruct (App.chat_messages_db s !! video_id); intros [= _ <-]; done.
Qed.

(** A chat turn that completes has written one record to the chat
    namespace: the user's message, under the first identifier drawn.  The
    assistant's message carries the second identifier drawn. *)
Lemma chat_with_video_chat_index (llm_service : LLMService.t)
    (request : ChatRequest.t) (s s' : App.t) (response : ChatResponse.t) :
  chat_with_video llm_service request s = (Ok response, s') ->
  ChatResponse.message_id response = uuid4 (S (App.uuid_draws s))
  /\ exists v md,
       encode (ChatRequest.message request) = Ok v
       /\ RAGService.chat_collection (App.rag s')
          = Index.upsert
              (Index.mk (uuid4 (App.uuid_draws s)) v
                 (ChatRequest.message request) md)
              (RAGService.chat_collection (App.rag s)).
Proof.
  unfold chat_with_video. intros Hrun.
  apply st_bind_Ok in Hrun as (s0 & ? & [= <- <-] & Hrun).
  apply st_bind_Ok in Hrun as (context & s1 & Hctx & Hrun).
  unfold st_lift in Hctx. injection Hctx as Hctx <-.
  apply st_bind_Ok in Hrun as (resp & s2 & Hgen & Hrun).
  apply generate_response_effect in Hgen as [Hrag2 Hdraws2].
  apply st_bind_Ok in Hrun as (message_id & s3 & [= <- <-] & Hrun).
  apply st_bind_Ok in Hrun as (t1 & s4 & Hnow1 & Hrun).
  unfold now in Hnow1.
  apply st_bind_Ok in Hnow1 as (n1 & ? & [= <- <-] & [= <- <-]).
  apply st_bind_Ok in Hrun as ([] & s5 & [= <-] & Hrun).
  apply st_bind_Ok in Hrun as ([] & s6 & Happ1 & Hrun).
  apply append_message_effect in Happ1 as [Hrag6 Hdraws6].
  apply st_bind_Ok in Hrun as ([] & s7 & Hadd & Hrun).
  apply st_bind_Ok in Hrun as (assistant_id & s8 & [= <- <-] & Hrun).
  apply st_bind_Ok in Hrun as (t2 & s9 & Hnow2 & Hrun).
  unfold now in Hnow2.
  apply st_bind_Ok in Hnow2 as (n2 & ? & [= <- <-] & [= <- <-]).
  apply st_bind_Ok in Hrun as ([] & s10 & Happ2 & Hrun).
  apply append_message_effect in Happ2 as [Hrag10 Hdraws10].
  apply st_bind_Ok in Hrun as (frames & s11 & Hframes & Hrun).
  unfold st_lift in Hframes. injection Hframes as _ <-.
  injection Hrun as <- <-.
  cbn [ChatResponse.message_id ChatMessage.id].
  cbn [App.rag App.uuid_draws] in *.
  unfold on_rag, st_zoom in Hadd.
  destruct (add_chat_message _ _) as [radd rag7] eqn:Hwrite.
  injection Hadd as -> <-. cbn [App.rag App.set_rag App.uuid_draws] in *.
  unfold add_chat_message, mbind, St_mbind, st_bind, st_lift in Hwrite.
  cbn [ChatMessage.content ChatMessage.id] in Hwrite.
  destruct (encode (ChatRequest.message request)) as [v|] eqn:Hv; [|done].
  unfold st_modify in Hwrite. injection Hwrite as <-.
  assert (Hs6 : App.rag s6 = App.rag s /\ App.uuid_draws s6 = S (App.uuid_draws s)).
  { rewrite Hrag6, Hdraws6.
    destruct (App.chat_messages_db s2 !! _);
      cbn [App.rag App.uuid_draws App.set_chat_messages_db];
      by rewrite Hrag2, Hdraws2. }
  destruct Hs6 as [Hrag6' Hdraws6'].
  split.
  - by rewrite Hdraws6'.
  - exists v. eexists. split; [reflexivity|].
    rewrite Hrag10. cbn [RAGService.chat_collection RAGService.set_chat].
    rewrite Hrag6', Hdraws2. reflexivity.
Qed.

End ChatTurn.

(** C7.  One chat turn on video A, with a provider that answers: the two
    messages of the turn are stored in the message list, the assistant's
    being the one the response names, and the chat namespace of the index
    receives the user's message only. *)
Theorem chat_turn_indexes_user_message_only :
  let run :=
    chat_with_video (H := Demo.collaborators)
      (LLMService.mk (Some Demo.echo_client) None)
      (ChatRequest.mk "A" "cat" true 5)
      (App.mk Demo.two_videos ∅ ∅ O O) in
  (ChatResponse.message_id <$> fst run) = Ok "uuid-1"
  /\ (map (fun m => (ChatMessage.id m, ChatMessage.role m))
        <$> App.chat_messages_db (snd run) !! "A")
     = Some [("uuid-0", "user"); ("uuid-1", "assistant")]
  /\ map (fun r => (Index.id r, Index.document r))
       (RAGService.chat_collection (App.rag (snd run)))
     = [("uuid-0", "cat")]
  /\ "uuid-1" ∉ map Index.id (RAGService.chat_collection (App.rag (snd run))).
Proof.
  vm_compute. repeat split.
  intros Hin. apply elem_of_cons in Hin as [Heq|Hin]; [discriminate Heq|].
  by apply elem_of_nil in Hin.
Qed.

(** ** The frames namespace over the life of the service *)

Section Service.
Context `{Collaborators}.

Lemma generate_response_keeps_rag (self : LLMService.t) (message : string)
    (context : Context.t) (use_vision : bool) :
  keeps App.rag (generate_response self message context use_vision).
Proof.
  intros s.
  destruct (generate_response self message context use_vision s) as [r s1] eqn:Hrun.
  by apply generate_response_effect in Hrun as [Hrag _].
Qed.

Lemma append_message_keeps_rag (video_id : string) (m : ChatMessage.t) :
  keeps App.rag (append_message video_id m).
Proof.
  intros s. destruct (append_message video_id m s) as [r s1] eqn:Hrun.
  by apply append_message_effect in Hrun as [Hrag _].
Qed.

Lemma add_chat_message_keeps_frames (message : ChatMessage.t) :
  keeps RAGService.frames_collection (add_chat_message message).
Proof.
  unfold add_chat_message. apply keeps_bind; [apply keeps_lift|]. intros v.
  by apply keeps_modify.
Qed.

Lemma keeps_compose {S T U A} (f : S -> T) (g : T -> U) (m : St S A) :
  keeps f m -> keeps (g ∘ f) m.
Proof. intros Hm s. simpl. by rewrite Hm. Qed.

Lemma chat_with_video_keeps_frames (llm_service : LLMService.t)
    (request : ChatRequest.t) :
  keeps (RAGService.frames_collection ∘ App.rag)
    (chat_with_video llm_service request).
Proof.
  unfold chat_with_video.
  apply keeps_bind; [apply keeps_get|]. intros s0.
  apply keeps_bind; [apply keeps_lift|]. intros context.
  apply keeps_bind; [apply keeps_compose, generate_response_keeps_rag|].
  intros response.
  apply keeps_bind; [by apply keeps_draw_uuid4|]. intros message_id.
  apply keeps_bind; [by apply keeps_now|]. intros t1.
  apply keeps_bind.
  { apply keeps_modify. intros s. by destruct (App.chat_messages_db s !! _). }
  intros _. apply keeps_bind; [apply keeps_compose, append_message_keeps_rag|].
  intros _. apply keeps_bind.
  { apply (keeps_zoom RAGService.frames_collection); [by intros ? []|].
    apply add_chat_message_keeps_frames. }
  intros _. apply keeps_bind; [by apply keeps_draw_uuid4|]. intros assistant_id.
  apply keeps_bind; [by apply keeps_now|]. intros t2.
  apply keeps_bind; [apply keeps_compose, append_message_keeps_rag|].
  intros _. apply keeps_bind; [apply keeps_lift|]. intros frames.
  apply keeps_ret.
Qed.

(** No request ever writes to the frames namespace: whatever is served, it
    holds what it held at the start, nothing in a fresh deployment. *)
Lemma serve_keeps_frames (requests : list request) (s : App.t) :
  RAGService.frames_collection (App.rag (serve requests s))
  = RAGService.frames_collection (App.rag s).
Proof.
  unfold serve. revert s.
  induction requests as [|r requests IH]; intros s; [done|].
  cbn [foldl]. rewrite IH. destruct r as [video_id video_path|llm request].
  - apply process_video_background_keeps_frames.
  - cbn [handle].
    apply (keeps_bind (RAGService.frames_collection ∘ App.rag));
      [apply chat_with_video_keeps_frames|intros _; apply keeps_ret].
Qed.

End Service.

(** * Further properties *)

(** ** Frame extraction, in closed form *)

Section FrameExtractionExact.
Context `{Collaborators}.

Lemma count_after_step (k fc : Z) :
  1 <= k -> 0 <= fc ->
  count_after k (fc + 1)
  = if (fc mod k =? 0)
       && (Z.of_nat (count_after k fc) <? Settings.MAX_FRAMES_PER_VIDEO settings)
    then S (count_after k fc) else count_after k fc.
Proof.
  intros Hk Hfc. unfold count_after.
  change (Settings.MAX_FRAMES_PER_VIDEO settings) with 300.
  assert (Hq : 0 <= (fc + k - 1) / k) by (apply Z.div_pos; lia).
  assert (Hnext : (fc + 1 + k - 1) / k
                  = if fc mod k =? 0 then (fc + k - 1) / k + 1
                    else (fc + k - 1) / k).
  { pose proof (Z.div_mod fc k ltac:(lia)) as Hdm.
    pose proof (Z.mod_pos_bound fc k ltac:(lia)) as Hr.
    destruct (Z.eqb_spec (fc mod k) 0) as [Hz|Hnz].
    - rewrite Hz, Z.add_0_r in Hdm.
      replace (fc + 1 + k - 1) with (k + fc) by lia.
      replace (fc + k - 1) with ((k - 1) + (fc / k) * k) by lia.
      rewrite Z.div_add by lia. rewrite (Z.div_small (k - 1)) by lia.
      rewrite Hdm at 1. rewrite Z.mul_comm.
      replace (k + fc / k * k) with (0 + (1 + fc / k) * k) by lia.
      rewrite Z.div_add by lia. rewrite Z.div_0_l by lia. lia.
    - replace (fc + 1 + k - 1) with ((fc mod k) + (1 + fc / k) * k) by lia.
      replace (fc + k - 1) with ((fc mod k - 1) + (1 + fc / k) * k) by lia.
      rewrite !Z.div_add by lia.
      rewrite (Z.div_small (fc mod k)), (Z.div_small (fc mod k - 1)) by lia.
      reflexivity. }
  rewrite Hnext.
  destruct (Z.eqb_spec (fc mod k) 0); cbn [andb]; [|reflexivity].
  destruct (Z.ltb_spec (Z.of_nat (Z.to_nat (Z.min 300 ((fc + k - 1) / k)))) 300)
    as [Hroom|Hfull]; lia.
Qed.

Lemma count_after_exact (k fc : Z) :
  1 <= k -> 0 <= fc -> fc mod k = 0 ->
  Z.of_nat (count_after k fc) < Settings.MAX_FRAMES_PER_VIDEO settings ->
  fc = Z.of_nat (count_after k fc) * k.
Proof.
  unfold count_after. change (Settings.MAX_FRAMES_PER_VIDEO settings) with 300.
  intros Hk Hfc Hz Hroom.
  assert (Hq : 0 <= (fc + k - 1) / k) by (apply Z.div_pos; lia).
  pose proof (Z.div_mod fc k ltac:(lia)) as Hdm.
  rewrite Hz, Z.add_0_r in Hdm.
  assert (Hc : (fc + k - 1) / k = fc / k).
  { replace (fc + k - 1) with ((k - 1) + (fc / k) * k) by lia.
    rewrite Z.div_add by lia. rewrite (Z.div_small (k - 1)) by lia. lia. }
  rewrite Hc in *. lia.
Qed.

Lemma extract_loop_exact (video_id : string) (fps : Q) (frame_interval : Z)
    (d0 : nat) (reads : list string) :
  1 <= frame_interval -> Qeq_bool fps 0 = false ->
  forall (frame_count : Z) (s : App.t),
    0 <= frame_count ->
    App.uuid_draws s = (d0 + count_after frame_interval frame_count)%nat ->
    extract_loop video_id fps frame_interval reads frame_count
      (Z.of_nat (count_after frame_interval frame_count))
      (map (frame_at video_id fps frame_interval d0)
         (seq 0 (count_after frame_interval frame_count))) s
    = (Ok (map (frame_at video_id fps frame_interval d0)
             (seq 0 (count_after frame_interval
                       (frame_count + Z.of_nat (length reads))))),
       set_uuid_draws
         (d0 + count_after frame_interval
                 (frame_count + Z.of_nat (length reads))) s).
Proof.
  intros Hk Hfps.
  induction reads as [|x reads IH]; intros fc s Hfc Hdraws.
  - cbn [extract_loop length]. rewrite Z.add_0_r.
    unfold mret, St_mret, st_ret. f_equal.
    destruct s. unfold set_uuid_draws. cbn in *. by rewrite Hdraws.
  - cbn [extract_loop]. unfold py_mod.
    destruct (Z.eqb_spec frame_interval 0); [lia|].
    unfold mbind at 1, St_mbind, st_bind at 1, st_lift at 1.
    replace (fc + Z.of_nat (length (x :: reads)))
      with (fc + 1 + Z.of_nat (length reads)) by (cbn [length]; lia).
    pose proof (count_after_step frame_interval fc Hk Hfc) as Hstep.
    destruct ((fc mod frame_interval =? 0)
              && (Z.of_nat (count_after frame_interval fc)
                  <? Settings.MAX_FRAMES_PER_VIDEO settings)) eqn:Hcond.
    + cbv iota in Hstep.
      apply andb_prop in Hcond as [Hz%Z.eqb_eq Hroom%Z.ltb_lt].
      unfold py_truediv. rewrite Hfps.
      unfold mbind, St_mbind, st_bind, st_lift, draw_uuid4.
      match goal with
      | |- extract_loop _ _ _ _ _ ?ec (?fs ++ [?f]) ?s1 = _ =>
          replace ec with (Z.of_nat (count_after frame_interval (fc + 1)))
            by (rewrite Hstep; lia);
          replace (fs ++ [f])
            with (map (frame_at video_id fps frame_interval d0)
                    (seq 0 (count_after frame_interval (fc + 1))));
          [rewrite (IH (fc + 1) s1);
           [reflexivity|lia|rewrite Hstep; cbn [App.uuid_draws]; lia]|]
      end.
      rewrite Hstep, seq_S, map_app. cbn [map]. do 2 f_equal.
      unfold frame_at. rewrite Hdraws. f_equal.
      do 2 f_equal. symmetry. by apply count_after_exact.
    + cbv iota in Hstep. rewrite <- Hstep. rewrite <- Hstep in Hdraws.
      by apply IH; [lia|].
Qed.

(** What [_extract_frames] returns, in terms of [count_after]. *)
Lemma extract_frames_from_loop (video_path video_id : string) (s : App.t) :
  let cap := VideoCapture video_path in
  let fps := Capture.CAP_PROP_FPS cap in
  let frame_interval :=
    py_int (fps * inject_Z (Settings.FRAME_EXTRACTION_RATE settings))%Q in
  let count :=
    count_after frame_interval (Z.of_nat (length (Capture.frames cap))) in
  1 <= frame_interval ->
  _extract_frames video_path video_id s
  = (Ok (map (frame_at video_id fps frame_interval (App.uuid_draws s))
           (seq 0 count)),
     set_uuid_draws (App.uuid_draws s + count) s).
Proof.
  intros cap fps frame_interval count Hinterval.
  assert (Hfps : (0 < fps)%Q).
  { apply py_int_pos in Hinterval.
    destruct fps as [a d]. unfold Qlt in *. simpl in *. lia. }
  assert (Hnz : Qeq_bool fps 0 = false).
  { destruct (Qeq_bool fps 0) eqn:Hz; [|done].
    apply Qeq_bool_eq in Hz. rewrite Hz in Hfps. by apply Qlt_irrefl in Hfps. }
  assert (Hzero : count_after frame_interval 0 = O).
  { unfold count_after. rewrite Z.div_small by lia. reflexivity. }
  pose proof (extract_loop_exact video_id fps frame_interval (App.uuid_draws s)
                (Capture.frames cap) Hinterval Hnz 0 s ltac:(lia)) as Hrun.
  rewrite Hzero in Hrun. cbn [seq map] in Hrun.
  rewrite Nat.add_0_r in Hrun. specialize (Hrun eq_refl).
  exact Hrun.
Qed.

(** X1. When [int(fps * FRAME_EXTRACTION_RATE)] is an interval of at least
    1, [_extract_frames] returns exactly [min(300, ceil(n / interval))]
    frames for a stream of [n] frames; the [i]-th has the timestamp
    [i * interval / fps], the frame number [i], the path
    [/static/frames/<video>/frame_<i:04d>.jpg] and the [i]-th identifier
    drawn; and that many identifiers have been drawn. *)
Theorem extract_frames_exact (video_path video_id : string) (s : App.t) :
  let cap := VideoCapture video_path in
  let fps := Capture.CAP_PROP_FPS cap in
  let frame_interval :=
    py_int (fps * inject_Z (Settings.FRAME_EXTRACTION_RATE settings))%Q in
  let n := Z.of_nat (length (Capture.frames cap)) in
  let count :=
    Z.to_nat (Z.min 300 ((n + frame_interval - 1) / frame_interval)) in
  1 <= frame_interval ->
  _extract_frames video_path video_id s
  = (Ok (map (frame_at video_id fps frame_interval (App.uuid_draws s))
           (seq 0 count)),
     set_uuid_draws (App.uuid_draws s + count) s)
  /\ (count <= 300)%nat
  /\ (n <= 300 * frame_interval -> Z.of_nat count * frame_interval < n + frame_interval
                                  /\ n <= Z.of_nat count * frame_interval).
Proof.
  intros cap fps frame_interval n count Hinterval.
  split; [exact (extract_frames_from_loop video_path video_id s Hinterval)|].
  assert (Hq : 0 <= (n + frame_interval - 1) / frame_interval)
    by (apply Z.div_pos; lia).
  subst count. split; [lia|]. intros Hfew.
  pose proof (Z.mul_div_le (n + frame_interval - 1) frame_interval ltac:(lia)).
  pose proof (Z.mul_succ_div_gt (n + frame_interval - 1) frame_interval
                ltac:(lia)).
  assert (Hle : (n + frame_interval - 1) / frame_interval < 301)
    by (apply Z.div_lt_upper_bound; lia).
  rewrite Z.min_r, Z2Nat.id by lia. lia.
Qed.

(** X2. When that interval is 0 (a stream that reports fewer than one frame
    per second) and the stream has a frame, [_extract_frames] raises
    [ZeroDivisionError] on the first frame and changes nothing; on a stream
    without frames it returns the empty list whatever the interval. *)
Theorem extract_frames_zero_interval (video_path video_id : string)
    (s : App.t) :
  let cap := VideoCapture video_path in
  (py_int (Capture.CAP_PROP_FPS cap
           * inject_Z (Settings.FRAME_EXTRACTION_RATE settings))%Q = 0 ->
   Capture.frames cap <> [] ->
   _extract_frames video_path video_id s
   = (Raise (Exn "ZeroDivisionError" "integer division or modulo by zero"), s))
  /\ (Capture.frames cap = [] ->
      _extract_frames video_path video_id s = (Ok [], s)).
Proof.
  intros cap. unfold _extract_frames. fold cap. split.
  - intros Hzero Hframes. rewrite Hzero.
    destruct (Capture.frames cap) as [|x reads]; [done|]. reflexivity.
  - intros Hnone. rewrite Hnone. reflexivity.
Qed.

End FrameExtractionExact.

Lemma extract_frames_exact_witness :
  1 <= py_int (Capture.CAP_PROP_FPS (Demo.VideoCapture "x.mp4")
               * inject_Z (Settings.FRAME_EXTRACTION_RATE settings))%Q
  /\ _extract_frames (H := Demo.collaborators) "x.mp4" "V" Demo.empty_app
     = (Ok (map (@frame_at Demo.collaborators "V" (5 # 2) 2 0)
              (seq 0 (Z.to_nat (Z.min 300 ((7 + 2 - 1) / 2))))),
        set_uuid_draws (0 + Z.to_nat (Z.min 300 ((7 + 2 - 1) / 2)))
          Demo.empty_app)
  /\ (Z.to_nat (Z.min 300 ((7 + 2 - 1) / 2)) <= 300)%nat
  /\ (7 <= 300 * 2 ->
      Z.of_nat (Z.to_nat (Z.min 300 ((7 + 2 - 1) / 2))) * 2 < 7 + 2
      /\ 7 <= Z.of_nat (Z.to_nat (Z.min 300 ((7 + 2 - 1) / 2))) * 2).
Proof.
  split; [vm_compute; discriminate|].
  apply (extract_frames_exact (H := Demo.collaborators) "x.mp4" "V"
           Demo.empty_app).
  vm_compute. discriminate.
Defined.

Lemma extract_frames_zero_interval_witness :
  py_int (Capture.CAP_PROP_FPS (Demo.VideoCapture "still.mp4")
          * inject_Z (Settings.FRAME_EXTRACTION_RATE settings))%Q = 0
  /\ Capture.frames (Demo.VideoCapture "still.mp4") <> []
  /\ _extract_frames (H := Demo.collaborators) "still.mp4" "V" Demo.empty_app
     = (Raise (Exn "ZeroDivisionError" "integer division or modulo by zero"),
        Demo.empty_app).
Proof.
  split; [reflexivity|]. split; [discriminate|].
  apply (extract_frames_zero_interval (H := Demo.collaborators)
           "still.mp4" "V" Demo.empty_app);
    [reflexivity|discriminate].
Defined.

(** ** Frame files *)

Lemma frame_file_names_distinct :
  NoDup (map (fun i : nat => "frame_" +:+ format_04d (Z.of_nat i) +:+ ".jpg")
           (seq 0 300)).
Proof. apply (bool_decide_unpack _). vm_compute. exact I. Qed.

Lemma frame_file_names_distinct_upto (count : nat) :
  (count <= 300)%nat ->
  NoDup (map (fun i : nat => "frame_" +:+ format_04d (Z.of_nat i) +:+ ".jpg")
           (seq 0 count)).
Proof.
  intros Hcount. pose proof frame_file_names_distinct as Hall.
  replace 300%nat with (count + (300 - count))%nat in Hall by lia.
  rewrite seq_app, map_app in Hall.
  by apply NoDup_app in Hall as [Hfirst _].
Qed.

Section FramePaths.
Context `{Collaborators}.

(** X3. The frames that [_extract_frames] returns for an interval of at
    least 1 have pairwise distinct image paths: no frame file is written
    twice. *)
Theorem extract_frames_distinct_paths (video_path video_id : string)
    (s : App.t) :
  1 <= py_int (Capture.CAP_PROP_FPS (VideoCapture video_path)
               * inject_Z (Settings.FRAME_EXTRACTION_RATE settings))%Q ->
  exists frames s',
    _extract_frames video_path video_id s = (Ok frames, s')
    /\ NoDup (map VideoFrame.image_path frames).
Proof.
  intros Hinterval.
  pose proof (extract_frames_from_loop video_path video_id s) as Hrun.
  cbv zeta in Hrun. specialize (Hrun Hinterval).
  eexists. eexists. split; [exact Hrun|].
  rewrite map_map. cbn [frame_at VideoFrame.image_path].
  change (fun x : nat =>
            "/static/frames/" +:+ video_id +:+ "/" +:+
            ("frame_" +:+ format_04d (Z.of_nat x) +:+ ".jpg"))
    with (String.app "/static/frames/" ∘ String.app video_id ∘ String.app "/"
          ∘ (fun i : nat => "frame_" +:+ format_04d (Z.of_nat i) +:+ ".jpg")).
  rewrite !list_fmap_compose.
  do 3 (apply (NoDup_fmap_2 _)).
  apply frame_file_names_distinct_upto. unfold count_after.
  change (Settings.MAX_FRAMES_PER_VIDEO settings) with 300. lia.
Qed.

End FramePaths.

Lemma extract_frames_distinct_paths_witness :
  1 <= py_int (Capture.CAP_PROP_FPS (Demo.VideoCapture "long.mp4")
               * inject_Z (Settings.FRAME_EXTRACTION_RATE settings))%Q
  /\ exists frames s',
       _extract_frames (H := Demo.collaborators) "long.mp4" "V" Demo.empty_app
       = (Ok frames, s')
       /\ NoDup (map VideoFrame.image_path frames).
Proof.
  split; [vm_compute; discriminate|].
  apply (extract_frames_distinct_paths (H := Demo.collaborators)
           "long.mp4" "V" Demo.empty_app).
  vm_compute. discriminate.
Defined.

(** ** Processing a video *)

Section ProcessVideo.
Context `{Collaborators}.

Lemma st_try_Ok {S A} (body : St S A) (handler : exception -> St S A)
    (s s' : S) (a : A) :
  st_try body handler s = (Ok a, s') ->
  body s = (Ok a, s')
  \/ exists e s1, body s = (Raise e, s1) /\ handler e s1 = (Ok a, s').
Proof.
  unfold st_try. destruct (body s) as [[b|e] s1]; [by left|].
  intros Hh. right. by exists e, s1.
Qed.

Lemma extract_video_metadata_Ok (video_path video_id : string) (s s' : App.t)
    (video_info : VideoInfo.t) :
  _extract_video_metadata video_path video_id s = (Ok video_info, s') ->
  VideoInfo.id video_info = video_id
  /\ getsize video_path = Ok (VideoInfo.file_size video_info)
  /\ VideoInfo.transcript video_info = None
  /\ VideoInfo.status video_info = PROCESSING.
Proof.
  unfold _extract_video_metadata. intros Hrun.
  apply st_bind_Ok in Hrun as (size & s1 & Hsize & Hrun).
  unfold st_lift in Hsize. injection Hsize as Hsize <-.
  apply st_bind_Ok in Hrun as (t & s2 & _ & Hrun).
  injection Hrun as <- <-. done.
Qed.

(** X4. A record that [process_video] returns carries the requested id and
    the size of the file; it is either READY, with the transcription as its
    transcript, a frame count and a processing time, or ERROR, with no
    transcript and no frame count and the failure's text under the key
    [error]. *)
Theorem process_video_outcome (video_path video_id : string) (s s' : App.t)
    (video_info : VideoInfo.t) :
  process_video video_path video_id s = (Ok video_info, s') ->
  VideoInfo.id video_info = video_id
  /\ getsize video_path = Ok (VideoInfo.file_size video_info)
  /\ ((VideoInfo.status video_info = READY
       /\ VideoInfo.transcript video_info = Some (_transcribe_audio video_path)
       /\ is_Some (VideoInfo.processed_at video_info)
       /\ exists n, VideoInfo.frame_count video_info = Some n /\ 0 <= n)
      \/ (VideoInfo.status video_info = ERROR
          /\ VideoInfo.transcript video_info = None
          /\ VideoInfo.frame_count video_info = None
          /\ exists e, VideoInfo.metadata video_info = {[ "error" := str_exn e ]})).
Proof.
  unfold process_video. intros Hrun.
  apply st_try_Ok in Hrun as [Hbody|(e & s1 & _ & Hhandler)].
  - apply st_bind_Ok in Hbody as (vi0 & s1 & Hmeta & Hbody).
    apply extract_video_metadata_Ok in Hmeta as (Hid & Hsize & _ & _).
    apply st_bind_Ok in Hbody as (frames & s2 & _ & Hbody).
    apply st_bind_Ok in Hbody as (t & s3 & _ & Hbody).
    injection Hbody as <- <-.
    split; [exact Hid|]. split; [exact Hsize|]. left.
    split; [reflexivity|]. split; [reflexivity|].
    split; [by eexists|]. eexists. split; [reflexivity|lia].
  - apply st_bind_Ok in Hhandler as (size & s2 & Hsize & Hhandler).
    unfold st_lift in Hsize. injection Hsize as Hsize <-.
    apply st_bind_Ok in Hhandler as (t & s3 & _ & Hhandler).
    injection Hhandler as <- <-.
    split; [reflexivity|]. split; [exact Hsize|]. right.
    split; [reflexivity|]. split; [reflexivity|]. split; [reflexivity|].
    by exists e.
Qed.

(** X5. [process_video] raises exactly when the size of the file cannot be
    read: the handler of its [try] reads the size again, so that exception
    leaves the function, with the state untouched; when the size can be
    read, the function returns a record, whatever else fails. *)
Theorem process_video_raises_iff_no_size (video_path video_id : string)
    (s : App.t) :
  (forall e, getsize video_path = Raise e ->
             process_video video_path video_id s = (Raise e, s))
  /\ (forall size, getsize video_path = Ok size ->
                   exists video_info s',
                     process_video video_path video_id s = (Ok video_info, s')).
Proof.
  split.
  - intros e Hsize.
    unfold process_video, st_try, _extract_video_metadata, mbind, St_mbind,
      st_bind, st_lift.
    by rewrite Hsize.
  - intros size Hsize.
    unfold process_video, st_try, _extract_video_metadata, now, read_clock.
    unfold mbind, St_mbind, st_bind, st_lift, mret, St_mret, st_ret.
    rewrite Hsize. cbv beta iota.
    match goal with |- context [_extract_frames ?p ?v ?s1] =>
      destruct (_extract_frames p v s1) as [[frames|e] s2] end;
      eexists; eexists; reflexivity.
Qed.

End ProcessVideo.

Lemma process_video_outcome_witness :
  exists video_info s',
    process_video (H := Demo.collaborators) "x.mp4" "V" Demo.empty_app
    = (Ok video_info, s')
    /\ VideoInfo.id video_info = "V"
    /\ getsize (Collaborators := Demo.collaborators) "x.mp4"
       = Ok (VideoInfo.file_size video_info)
    /\ ((VideoInfo.status video_info = READY
         /\ VideoInfo.transcript video_info
            = Some (_transcribe_audio (H := Demo.collaborators) "x.mp4")
         /\ is_Some (VideoInfo.processed_at video_info)
         /\ exists n, VideoInfo.frame_count video_info = Some n /\ 0 <= n)
        \/ (VideoInfo.status video_info = ERROR
            /\ VideoInfo.transcript video_info = None
            /\ VideoInfo.frame_count video_info = None
            /\ exists e,
                 VideoInfo.metadata video_info = {[ "error" := str_exn e ]})).
Proof.
  eexists. eexists. split; [vm_compute; reflexivity|].
  eapply (process_video_outcome (H := Demo.collaborators) "x.mp4" "V"
            Demo.empty_app).
  vm_compute. reflexivity.
Defined.

Lemma process_video_raises_iff_no_size_witness :
  getsize (Collaborators := Demo.collaborators) "still.mp4" = Ok 1024
  /\ exists video_info s',
       process_video (H := Demo.collaborators) "still.mp4" "V" Demo.empty_app
       = (Ok video_info, s').
Proof.
  split; [reflexivity|].
  apply (proj2 (process_video_raises_iff_no_size (H := Demo.collaborators)
                  "still.mp4" "V" Demo.empty_app) 1024).
  reflexivity.
Defined.

(** A stream at 0 frames per second: the record is an ERROR record. *)
Example process_still_clip :
  (fun v => (VideoInfo.status v, VideoInfo.metadata v !! "error"))
    <$> fst (process_video (H := Demo.collaborators) "still.mp4" "V"
               Demo.empty_app)
  = Ok (ERROR, Some "integer division or modulo by zero").
Proof. vm_compute. reflexivity. Qed.

(** ** The background task and the video records *)

Section BackgroundTask.
Context `{Collaborators}.

Lemma extract_loop_keeps {T} (f : App.t -> T) (video_id : string) (fps : Q)
    (frame_interval : Z) (reads : list string) (frame_count extracted_count : Z)
    (frames : list VideoFrame.t) :
  (forall r v c u1 u2 k, f (App.mk r v c u1 k) = f (App.mk r v c u2 k)) ->
  keeps f
    (extract_loop video_id fps frame_interval reads frame_count
       extracted_count frames).
Proof.
  intros Hf. revert frame_count extracted_count frames.
  induction reads as [|x reads IH]; intros fc ec frames; [by apply keeps_ret|].
  cbn [extract_loop]. apply keeps_bind; [apply keeps_lift|]. intros m.
  apply keeps_if; [|apply IH].
  apply keeps_bind; [apply keeps_lift|]. intros ts.
  apply keeps_bind; [by apply keeps_draw_uuid4|]. intros id. apply IH.
Qed.

(** Processing a video changes nothing but the counts of identifiers drawn
    and of clock readings. *)
Lemma process_video_keeps {T} (f : App.t -> T) (video_path video_id : string) :
  (forall r v c u1 u2 k, f (App.mk r v c u1 k) = f (App.mk r v c u2 k)) ->
  (forall r v c u k1 k2, f (App.mk r v c u k1) = f (App.mk r v c u k2)) ->
  keeps f (process_video video_path video_id).
Proof.
  intros Hu Hk. unfold process_video. apply keeps_try.
  - apply keeps_bind.
    { unfold _extract_video_metadata.
      apply keeps_bind; [apply keeps_lift|]. intros size.
      apply keeps_bind; [by apply keeps_now|]. intros t. apply keeps_ret. }
    intros video_info. apply keeps_bind; [by apply extract_loop_keeps|].
    intros frames. apply keeps_bind; [by apply keeps_now|]. intros t.
    apply keeps_ret.
  - intros e. apply keeps_bind; [apply keeps_lift|]. intros size.
    apply keeps_bind; [by apply keeps_now|]. intros t. apply keeps_ret.
Qed.

Lemma process_video_fields (video_path video_id : string) (s s' : App.t)
    (video_info : VideoInfo.t) :
  process_video video_path video_id s = (Ok video_info, s') ->
  (VideoInfo.status video_info = READY
   /\ VideoInfo.transcript video_info = Some (_transcribe_audio video_path))
  \/ (VideoInfo.status video_info = ERROR
      /\ VideoInfo.transcript video_info = None).
Proof.
  unfold process_video. intros Hrun.
  apply st_try_Ok in Hrun as [Hbody|(e & s1 & _ & Hhandler)].
  - apply st_bind_Ok in Hbody as (vi0 & s1 & _ & Hbody).
    apply st_bind_Ok in Hbody as (frames & s2 & _ & Hbody).
    apply st_bind_Ok in Hbody as (t & s3 & _ & Hbody).
    injection Hbody as <- <-. by left.
  - apply st_bind_Ok in Hhandler as (size & s2 & _ & Hhandler).
    apply st_bind_Ok in Hhandler as (t & s3 & _ & Hhandler).
    injection Hhandler as <- <-. by right.
Qed.

(** The task, step by step. *)
Lemma process_video_background_unfold (video_id video_path : string)
    (s : App.t) :
  process_video_background video_id video_path s
  = let s1 :=
      App.set_videos_db
        (alter (set_status PROCESSING) video_id (App.videos_db s)) s in
    match process_video video_path video_id s1 with
    | (Ok video_info, s2) =>
        let s3 :=
          App.set_videos_db (<[video_id := video_info]> (App.videos_db s2)) s2 in
        match add_video_content video_info [] (App.rag s3) with
        | (Ok _, rag') => (Ok tt, App.set_rag rag' s3)
        | (Raise e, rag') =>
            (Ok tt,
             App.set_videos_db
               (alter (mark_error e) video_id (App.videos_db s3))
               (App.set_rag rag' s3))
        end
    | (Raise e, s2) =>
        (Ok tt,
         App.set_videos_db
           (alter (mark_error e) video_id (App.videos_db s2)) s2)
    end.
Proof.
  unfold process_video_background, st_try, mark_status, get_video_frames,
    on_rag, st_zoom.
  unfold mbind, St_mbind, st_bind, st_modify, mret, St_mret, st_ret.
  cbv zeta.
  destruct (process_video video_path video_id _) as [[video_info|e] s2];
    [|reflexivity].
  cbn [App.rag App.set_videos_db].
  destruct (add_video_content video_info [] (App.rag s2)) as [[[]|e] rag'];
    reflexivity.
Qed.

(** X6. Whatever happens while a video is processed, the background task
    touches the record of no other video and leaves the chat histories
    alone; its own video's record, when there is one afterwards, is READY or
    ERROR, never UPLOADING or PROCESSING; and there is one afterwards
    whenever there was one before. *)
Theorem process_video_background_status (video_id video_path : string)
    (s : App.t) :
  let s' := snd (process_video_background video_id video_path s) in
  (forall other, other <> video_id ->
                 App.videos_db s' !! other = App.videos_db s !! other)
  /\ App.chat_messages_db s' = App.chat_messages_db s
  /\ (forall v, App.videos_db s' !! video_id = Some v ->
                VideoInfo.status v = READY \/ VideoInfo.status v = ERROR)
  /\ (is_Some (App.videos_db s !! video_id) ->
      is_Some (App.videos_db s' !! video_id)).
Proof.
  cbv zeta. rewrite process_video_background_unfold. cbv zeta.
  set (s1 := App.set_videos_db
               (alter (set_status PROCESSING) video_id (App.videos_db s)) s).
  pose proof (process_video_keeps App.videos_db video_path video_id
                ltac:(done) ltac:(done) s1) as Hdb.
  pose proof (process_video_keeps App.chat_messages_db video_path video_id
                ltac:(done) ltac:(done) s1) as Hchat.
  destruct (process_video video_path video_id s1) as [[video_info|e] s2] eqn:Hpv;
    cbn [snd] in Hdb, Hchat.
  - apply process_video_fields in Hpv.
    destruct (add_video_content video_info [] _) as [[[]|e] rag'];
      cbn [snd App.videos_db App.chat_messages_db App.set_rag
           App.set_videos_db];
      rewrite Hdb, ?Hchat; subst s1; cbn [App.videos_db App.set_videos_db
                                          App.chat_messages_db].
    + split; [|split; [reflexivity|split]].
      * intros other Hother.
        by rewrite lookup_insert_ne, lookup_alter_ne by done.
      * intros v. rewrite lookup_insert_eq. intros [= <-]. tauto.
      * intros _. rewrite lookup_insert_eq. by eexists.
    + split; [|split; [reflexivity|split]].
      * intros other Hother.
        by rewrite lookup_alter_ne, lookup_insert_ne, lookup_alter_ne by done.
      * intros v. rewrite lookup_alter_eq, lookup_insert_eq.
        intros [= <-]. by right.
      * intros _. rewrite lookup_alter_eq, lookup_insert_eq. by eexists.
  - cbn [snd App.videos_db App.chat_messages_db App.set_videos_db].
    rewrite Hdb, Hchat. subst s1.
    cbn [App.videos_db App.set_videos_db App.chat_messages_db].
    split; [|split; [reflexivity|split]].
    + intros other Hother. by rewrite !lookup_alter_ne by done.
    + intros v. rewrite !lookup_alter_eq.
      destruct (App.videos_db s !! video_id); [|done].
      intros [= <-]. by right.
    + intros [v Hv]. rewrite !lookup_alter_eq, Hv. by eexists.
Qed.

Lemma add_video_content_no_words (video_info : VideoInfo.t)
    (self : RAGService.t) :
  (forall t, VideoInfo.transcript video_info = Some t -> Py.split t = []) ->
  add_video_content video_info [] self = (Ok tt, self).
Proof.
  intros Hwords. unfold add_video_content, _add_transcript.
  destruct (truthy_str (VideoInfo.transcript video_info)) eqn:Htruthy;
    [|reflexivity].
  cbn [negb].
  destruct (VideoInfo.transcript video_info) as [t|]; [|done].
  change (default "" (Some t)) with t.
  rewrite (chunk_transcript_windows t default_chunk_size) by done.
  cbv zeta. rewrite (Hwords t eq_refl). reflexivity.
Qed.

(** X7. When the transcription of a video has no words (the transcriber
    failed, or returned nothing but whitespace), the background task writes
    nothing to the index: the three collections are as they were. *)
Theorem process_video_background_no_words (video_id video_path : string)
    (s : App.t) :
  Py.split (_transcribe_audio video_path) = [] ->
  App.rag (snd (process_video_background video_id video_path s)) = App.rag s.
Proof.
  intros Hwords. rewrite process_video_background_unfold. cbv zeta.
  set (s1 := App.set_videos_db
               (alter (set_status PROCESSING) video_id (App.videos_db s)) s).
  pose proof (process_video_keeps App.rag video_path video_id
                ltac:(done) ltac:(done) s1) as Hrag.
  destruct (process_video video_path video_id s1) as [[video_info|e] s2] eqn:Hpv;
    cbn [snd] in Hrag; [|exact Hrag].
  rewrite add_video_content_no_words; [exact Hrag|].
  intros t Ht. apply process_video_fields in Hpv as [[_ Hready]|[_ Herror]].
  - rewrite Hready in Ht. by injection Ht as <-.
  - by rewrite Herror in Ht.
Qed.

End BackgroundTask.

Lemma process_video_background_no_words_witness :
  Py.split (_transcribe_audio (H := silent_collaborators) "x.mp4") = []
  /\ App.rag (snd (process_video_background (H := silent_collaborators)
                     "V" "x.mp4" Demo.empty_app))
     = App.rag Demo.empty_app.
Proof.
  split; [reflexivity|].
  apply (process_video_background_no_words (H := silent_collaborators)
           "V" "x.mp4" Demo.empty_app).
  reflexivity.
Defined.

(** ** Ingestion never removes *)

Section Steps.
Context {S : Type} (R : S -> S -> Prop) `{!PreOrder R}.

Lemma steps_ret {A} (a : A) : steps R (mret a).
Proof. intros s. reflexivity. Qed.

Lemma steps_lift {A} (r : result A) : steps R (st_lift r).
Proof. intros s. reflexivity. Qed.

Lemma steps_modify (g : S -> S) : (forall s, R s (g s)) -> steps R (st_modify g).
Proof. intros Hg s. apply Hg. Qed.

Lemma steps_bind {A B} (m : St S A) (k : A -> St S B) :
  steps R m -> (forall a, steps R (k a)) -> steps R (m ≫= k).
Proof.
  intros Hm Hk s. unfold mbind, St_mbind, st_bind.
  specialize (Hm s). destruct (m s) as [[a|e] s1]; cbn [snd] in *; [|done].
  etrans; [exact Hm|apply Hk].
Qed.

Lemma steps_for {A} (xs : list A) (body : A -> St S unit) :
  (forall x, steps R (body x)) -> steps R (st_for xs body).
Proof.
  intros Hbody. induction xs as [|x xs IH]; [apply steps_ret|].
  cbn [st_for]. apply steps_bind; [apply Hbody|by intros _].
Qed.

Lemma steps_if {A} (b : bool) (m1 m2 : St S A) :
  steps R m1 -> steps R m2 -> steps R (if b then m1 else m2).
Proof. by destruct b. Qed.

End Steps.

Section Monotone.
Context `{Collaborators}.

Lemma upsert_ids_extend (r : Index.record) (c : Index.collection) :
  ids_extend c (Index.upsert r c).
Proof.
  unfold ids_extend.
  destruct (decide (Index.id r ∈ map Index.id c)) as [Hin|Hnotin].
  - by rewrite upsert_ids.
  - rewrite upsert_ids_fresh, map_app by done. by apply prefix_app_r.
Qed.

#[local] Instance ids_extend_preorder : PreOrder ids_extend.
Proof.
  split.
  - intros c. unfold ids_extend. reflexivity.
  - intros a b c Hab Hbc. unfold ids_extend in *. by etrans.
Qed.

#[local] Instance index_extends_preorder : PreOrder index_extends.
Proof.
  split.
  - intros a. by repeat split.
  - intros a b c (? & ? & ?) (? & ? & ?). repeat split; by etrans.
Qed.

Lemma _add_frame_steps (frame : VideoFrame.t) :
  steps index_extends (_add_frame frame).
Proof.
  unfold _add_frame. apply (steps_bind index_extends); [apply (steps_lift index_extends)|]. intros v.
  apply (steps_modify index_extends). intros self. rewrite add_single.
  repeat split; [apply upsert_ids_extend|reflexivity..].
Qed.

Lemma _add_chunk_steps (video_info : VideoInfo.t) (ic : Z * string) :
  steps index_extends (_add_chunk video_info ic).
Proof.
  destruct ic as [i chunk]. unfold _add_chunk.
  apply (steps_bind index_extends); [apply (steps_lift index_extends)|]. intros v.
  apply (steps_modify index_extends). intros self. rewrite add_single.
  repeat split; [reflexivity|apply upsert_ids_extend|reflexivity].
Qed.

Lemma add_chat_message_steps (message : ChatMessage.t) :
  steps index_extends (add_chat_message message).
Proof.
  unfold add_chat_message. apply (steps_bind index_extends); [apply (steps_lift index_extends)|]. intros v.
  apply (steps_modify index_extends). intros self. rewrite add_single.
  repeat split; [reflexivity..|apply upsert_ids_extend].
Qed.

(** X8. None of the writers of the index ever removes or moves a record:
    after [add_video_content] (so after [_add_transcript] and
    [_add_frames]) and after [add_chat_message], whether they return or
    raise, the ids each collection held are still there, in the same order,
    at the head of the collection.  In particular, ingesting a shorter
    transcript again leaves the chunks of the longer one in place. *)
Theorem ingestion_never_removes (self : RAGService.t) :
  (forall video_info frames,
      index_extends self (snd (add_video_content video_info frames self)))
  /\ (forall message,
        index_extends self (snd (add_chat_message message self))).
Proof.
  split.
  - intros video_info frames. revert self.
    change (steps index_extends (add_video_content video_info frames)).
    unfold add_video_content. apply (steps_bind index_extends).
    + apply (steps_if index_extends); [|apply (steps_ret index_extends)].
      unfold _add_transcript. apply (steps_if index_extends); [apply (steps_ret index_extends)|].
      apply (steps_bind index_extends); [apply (steps_lift index_extends)|]. intros chunks.
      apply (steps_for index_extends). apply _add_chunk_steps.
    + intros _. unfold _add_frames. apply (steps_for index_extends). apply _add_frame_steps.
  - intros message. apply add_chat_message_steps.
Qed.

End Monotone.

(** ** What ingestion writes *)

Section IngestionWrites.
Context `{Collaborators}.

Lemma upsert_elem (r : Index.record) (c : Index.collection) :
  r ∈ Index.upsert r c.
Proof.
  induction c as [|r' c IH]; cbn [Index.upsert]; [by apply elem_of_cons; left|].
  destruct (String.eqb (Index.id r') (Index.id r)); apply elem_of_cons; auto.
Qed.

Lemma upsert_other (r r' : Index.record) (c : Index.collection) :
  r ∈ c -> Index.id r' <> Index.id r -> r ∈ Index.upsert r' c.
Proof.
  intros Hr Hne. induction c as [|x c IH]; [by apply elem_of_nil in Hr|].
  cbn [Index.upsert]. apply elem_of_cons in Hr as [->|Hr].
  - destruct (String.eqb_spec (Index.id x) (Index.id r')); [congruence|].
    apply elem_of_cons. by left.
  - destruct (String.eqb (Index.id x) (Index.id r'));
      apply elem_of_cons; right; auto.
Qed.

Lemma upsert_all_other (r : Index.record) (rs : list Index.record)
    (c : Index.collection) :
  r ∈ c -> Index.id r ∉ map Index.id rs -> r ∈ upsert_all c rs.
Proof.
  revert c. induction rs as [|r' rs IH]; intros c Hr Hnotin; [done|].
  cbn [map] in Hnotin. apply not_elem_of_cons in Hnotin as [Hne Hnotin].
  cbn [upsert_all foldl]. apply IH; [|done]. by apply upsert_other.
Qed.

(** With distinct ids, every record upserted is in the collection at the
    end. *)
Lemma upsert_all_elem (r : Index.record) (rs : list Index.record)
    (c : Index.collection) :
  NoDup (map Index.id rs) -> r ∈ rs -> r ∈ upsert_all c rs.
Proof.
  revert c. induction rs as [|r' rs IH]; intros c Hnodup Hr;
    [by apply elem_of_nil in Hr|].
  cbn [map] in Hnodup. apply NoDup_cons in Hnodup as [Hfresh Hnodup].
  cbn [upsert_all foldl]. apply elem_of_cons in Hr as [->|Hr].
  - apply upsert_all_other; [apply upsert_elem|done].
  - by apply IH.
Qed.

Lemma upsert_all_NoDup (rs : list Index.record) (c : Index.collection) :
  NoDup (map Index.id c) -> NoDup (map Index.id (upsert_all c rs)).
Proof.
  revert c. induction rs as [|r rs IH]; intros c Hc; [done|].
  cbn [upsert_all foldl]. by apply IH, upsert_NoDup.
Qed.

Lemma _add_frame_embeddable (frame : VideoFrame.t) (self : RAGService.t) :
  (exists v, encode (_create_frame_description frame) = Ok v) ->
  _add_frame frame self
  = (Ok tt,
     RAGService.set_frames
       (Index.upsert (frame_record frame) (RAGService.frames_collection self))
       self).
Proof.
  intros [v Hv]. rewrite (_add_frame_writes frame v) by done.
  unfold frame_record, embedding_of. by rewrite Hv.
Qed.

Lemma _add_frames_run (frames : list VideoFrame.t) (self : RAGService.t) :
  Forall (fun f => exists v, encode (_create_frame_description f) = Ok v)
    frames ->
  _add_frames frames self
  = (Ok tt,
     RAGService.set_frames
       (upsert_all (RAGService.frames_collection self)
          (map frame_record frames))
       self).
Proof.
  unfold _add_frames. intros Hall. revert self.
  induction Hall as [|f frames Hf Hall IH]; intros self.
  - by destruct self.
  - cbn [st_for]. unfold mbind, St_mbind, st_bind.
    rewrite _add_frame_embeddable by done. rewrite IH. reflexivity.
Qed.

(** X9. When every frame of a list can be embedded and the frames have
    distinct ids, [_add_frames] returns, and afterwards the frames
    collection holds, for each frame, the record made of its id, the
    embedding of its description, the description and its metadata; the
    ids of the collection stay unique, and the other two collections are
    untouched. *)
Theorem add_frames_stores_all (frames : list VideoFrame.t)
    (self : RAGService.t) :
  Forall (fun f => exists v, encode (_create_frame_description f) = Ok v)
    frames ->
  NoDup (map VideoFrame.id frames) ->
  let self' := snd (_add_frames frames self) in
  fst (_add_frames frames self) = Ok tt
  /\ (forall f, f ∈ frames ->
        frame_record f ∈ RAGService.frames_collection self'
        /\ encode (_create_frame_description f)
           = Ok (Index.embedding (frame_record f)))
  /\ (NoDup (map Index.id (RAGService.frames_collection self)) ->
      NoDup (map Index.id (RAGService.frames_collection self')))
  /\ RAGService.transcripts_collection self'
     = RAGService.transcripts_collection self
  /\ RAGService.chat_collection self' = RAGService.chat_collection self.
Proof.
  intros Hall Hnodup. cbv zeta. rewrite _add_frames_run by done.
  cbn [fst snd RAGService.frames_collection RAGService.set_frames
       RAGService.transcripts_collection RAGService.chat_collection].
  split; [reflexivity|]. split; [|split; [|done]].
  - intros f Hf. split.
    + apply upsert_all_elem.
      * by rewrite map_map.
      * apply list_elem_of_fmap. by exists f.
    + rewrite Forall_forall in Hall. destruct (Hall f Hf) as [v Hv].
      unfold frame_record, embedding_of. cbn [Index.embedding]. by rewrite Hv.
  - apply upsert_all_NoDup.
Qed.

Lemma chunk_ids_distinct (video_info : VideoInfo.t) (chunks : list string) :
  NoDup (map Index.id (map (chunk_record video_info) (Py.enumerate chunks))).
Proof.
  rewrite map_map. unfold Py.enumerate, chunk_record. cbn [Index.id fst].
  apply NoDup_alt. intros i j x Hi Hj.
  rewrite list_lookup_fmap in Hi, Hj.
  destruct (imap _ chunks !! i) as [[a ca]|] eqn:Hia; [|done].
  destruct (imap _ chunks !! j) as [[b cb]|] eqn:Hjb; [|done].
  apply list_lookup_imap_Some in Hia as (? & _ & [= -> ->]).
  apply list_lookup_imap_Some in Hjb as (? & _ & [= -> ->]).
  cbn [fmap option_fmap option_map fst] in Hi, Hj.
  injection Hi as <-. injection Hj as Hj.
  apply (inj (String.app _)) in Hj. apply (inj (String.app _)) in Hj.
  apply (inj pretty) in Hj. lia.
Qed.

Lemma _add_chunk_embeddable (video_info : VideoInfo.t) (ic : Z * string)
    (self : RAGService.t) :
  (exists v, encode (snd ic) = Ok v) ->
  _add_chunk video_info ic self
  = (Ok tt,
     RAGService.set_transcripts
       (Index.upsert (chunk_record video_info ic)
          (RAGService.transcripts_collection self))
       self).
Proof.
  destruct ic as [i chunk]. intros [v Hv].
  unfold _add_chunk, mbind, St_mbind, st_bind, st_lift. cbn [snd] in Hv.
  rewrite Hv. unfold st_modify. rewrite add_single.
  unfold chunk_record, embedding_of. cbn [fst snd]. by rewrite Hv.
Qed.

Lemma _add_chunks_run (video_info : VideoInfo.t) (ics : list (Z * string))
    (self : RAGService.t) :
  Forall (fun ic => exists v, encode (snd ic) = Ok v) ics ->
  st_for ics (_add_chunk video_info) self
  = (Ok tt,
     RAGService.set_transcripts
       (upsert_all (RAGService.transcripts_collection self)
          (map (chunk_record video_info) ics))
       self).
Proof.
  intros Hall. revert self.
  induction Hall as [|ic ics Hic Hall IH]; intros self.
  - by destruct self.
  - cbn [st_for]. unfold mbind, St_mbind, st_bind.
    rewrite _add_chunk_embeddable by done. rewrite IH. reflexivity.
Qed.

(** X10. When a video has a transcript with words and every chunk of it can
    be embedded, [_add_transcript] returns, and afterwards the transcripts
    collection holds, for the [i]-th chunk, a record with the id
    [<video id>_transcript_<i>], the chunk as its document, and the video
    id and [i] in its metadata; the frames and chat collections are
    untouched. *)
Theorem add_transcript_stores_chunks (video_info : VideoInfo.t)
    (transcript : string) (chunks : list string) (self : RAGService.t) :
  VideoInfo.transcript video_info = Some transcript ->
  transcript <> "" ->
  _chunk_transcript transcript default_chunk_size = Ok chunks ->
  Forall (fun chunk => exists v, encode chunk = Ok v) chunks ->
  let self' := snd (_add_transcript video_info self) in
  fst (_add_transcript video_info self) = Ok tt
  /\ (forall (i : nat) chunk, chunks !! i = Some chunk ->
        exists r,
          r ∈ RAGService.transcripts_collection self'
          /\ Index.id r
             = VideoInfo.id video_info +:+ "_transcript_" +:+ pretty (Z.of_nat i)
          /\ Index.document r = chunk
          /\ encode chunk = Ok (Index.embedding r)
          /\ Index.metadata r !! "video_id"
             = Some (MStr (VideoInfo.id video_info))
          /\ Index.metadata r !! "chunk_index" = Some (MInt (Z.of_nat i)))
  /\ RAGService.frames_collection self' = RAGService.frames_collection self
  /\ RAGService.chat_collection self' = RAGService.chat_collection self.
Proof.
  intros Ht Hne Hchunks Hall. cbv zeta.
  assert (Hrun : _add_transcript video_info self
                 = (Ok tt,
                    RAGService.set_transcripts
                      (upsert_all (RAGService.transcripts_collection self)
                         (map (chunk_record video_info) (Py.enumerate chunks)))
                      self)).
  { unfold _add_transcript. rewrite Ht.
    cbn [truthy_str]. rewrite eqb_empty_false by done. cbn [negb].
    change (default "" (Some transcript)) with transcript.
    unfold mbind, St_mbind, st_bind, st_lift. rewrite Hchunks.
    apply _add_chunks_run.
    unfold Py.enumerate. apply Forall_forall. intros [i chunk] Hic.
    apply list_elem_of_lookup in Hic as [k Hk].
    apply list_lookup_imap_Some in Hk as (c & Hc & [= _ ->]).
    rewrite Forall_forall in Hall. apply Hall.
    by apply list_elem_of_lookup_2 in Hc. }
  rewrite Hrun.
  cbn [fst snd RAGService.frames_collection RAGService.set_transcripts
       RAGService.transcripts_collection RAGService.chat_collection].
  split; [reflexivity|]. split; [|done].
  intros i chunk Hi.
  exists (chunk_record video_info (Z.of_nat i, chunk)).
  split; [|split; [reflexivity|split; [reflexivity|split]]].
  - apply upsert_all_elem; [apply chunk_ids_distinct|].
    apply list_elem_of_fmap. exists (Z.of_nat i, chunk). split; [done|].
    unfold Py.enumerate. apply list_elem_of_lookup. exists i.
    apply list_lookup_imap_Some. by exists chunk.
  - rewrite Forall_forall in Hall.
    destruct (Hall chunk (list_elem_of_lookup_2 _ _ _ Hi)) as [v Hv].
    unfold chunk_record, embedding_of. cbn [Index.embedding snd].
    by rewrite Hv.
  - unfold chunk_record. cbn [Index.metadata fst]. split; reflexivity.
Qed.

End IngestionWrites.

Lemma add_frames_stores_all_witness :
  Forall (fun f => exists v,
            encode (Collaborators := Demo.collaborators)
              (_create_frame_description (H := Demo.collaborators) f) = Ok v)
    [Demo.cat_frame; Demo.car_frame]
  /\ NoDup (map VideoFrame.id [Demo.cat_frame; Demo.car_frame])
  /\ let run := _add_frames (H := Demo.collaborators)
                  [Demo.cat_frame; Demo.car_frame] Demo.empty_rag in
     fst run = Ok tt
     /\ (forall f, f ∈ [Demo.cat_frame; Demo.car_frame] ->
           @frame_record Demo.collaborators f
           ∈ RAGService.frames_collection (snd run)
           /\ encode (Collaborators := Demo.collaborators)
                (_create_frame_description (H := Demo.collaborators) f)
              = Ok (Index.embedding (@frame_record Demo.collaborators f)))
     /\ (NoDup (map Index.id (RAGService.frames_collection Demo.empty_rag)) ->
         NoDup (map Index.id (RAGService.frames_collection (snd run))))
     /\ RAGService.transcripts_collection (snd run)
        = RAGService.transcripts_collection Demo.empty_rag
     /\ RAGService.chat_collection (snd run)
        = RAGService.chat_collection Demo.empty_rag.
Proof.
  assert (Hall :
    Forall (fun f => exists v,
              encode (Collaborators := Demo.collaborators)
                (_create_frame_description (H := Demo.collaborators) f) = Ok v)
      [Demo.cat_frame; Demo.car_frame]).
  { repeat (constructor; [eexists; vm_compute; reflexivity|]). constructor. }
  assert (Hnodup : NoDup (map VideoFrame.id [Demo.cat_frame; Demo.car_frame])).
  { apply (bool_decide_unpack _). vm_compute. exact I. }
  split; [exact Hall|]. split; [exact Hnodup|].
  exact (add_frames_stores_all (H := Demo.collaborators)
           [Demo.cat_frame; Demo.car_frame] Demo.empty_rag Hall Hnodup).
Defined.

Lemma add_transcript_stores_chunks_witness :
  let video_info :=
    VideoInfo.mk "V" "V_clip.mp4" "clip.mp4" 1024 None None None READY 0 None
      None (Some "the cat sat on the mat") ∅ in
  VideoInfo.transcript video_info = Some "the cat sat on the mat"
  /\ "the cat sat on the mat" <> ""
  /\ _chunk_transcript "the cat sat on the mat" default_chunk_size
     = Ok ["the cat sat on the mat"]
  /\ Forall (fun chunk => exists v,
               encode (Collaborators := Demo.collaborators) chunk = Ok v)
       ["the cat sat on the mat"]
  /\ let run := _add_transcript (H := Demo.collaborators) video_info
                  Demo.empty_rag in
     fst run = Ok tt
     /\ (forall (i : nat) chunk,
           ["the cat sat on the mat"] !! i = Some chunk ->
           exists r,
             r ∈ RAGService.transcripts_collection (snd run)
             /\ Index.id r
                = VideoInfo.id video_info +:+ "_transcript_"
                  +:+ pretty (Z.of_nat i)
             /\ Index.document r = chunk
             /\ encode (Collaborators := Demo.collaborators) chunk
                = Ok (Index.embedding r)
             /\ Index.metadata r !! "video_id"
                = Some (MStr (VideoInfo.id video_info))
             /\ Index.metadata r !! "chunk_index" = Some (MInt (Z.of_nat i)))
     /\ RAGService.frames_collection (snd run)
        = RAGService.frames_collection Demo.empty_rag
     /\ RAGService.chat_collection (snd run)
        = RAGService.chat_collection Demo.empty_rag.
Proof.
  cbv zeta.
  assert (Hall :
    Forall (fun chunk => exists v,
              encode (Collaborators := Demo.collaborators) chunk = Ok v)
      ["the cat sat on the mat"]).
  { repeat (constructor; [eexists; vm_compute; reflexivity|]). constructor. }
  split; [reflexivity|]. split; [discriminate|].
  split; [vm_compute; reflexivity|]. split; [exact Hall|].
  apply (add_transcript_stores_chunks (H := Demo.collaborators)
           (VideoInfo.mk "V" "V_clip.mp4" "clip.mp4" 1024 None None None READY
              0 None None (Some "the cat sat on the mat") ∅)
           "the cat sat on the mat" ["the cat sat on the mat"] Demo.empty_rag);
    [reflexivity|discriminate|vm_compute; reflexivity|exact Hall].
Defined.

(** ** Retrieval *)

Section Retrieval.
Context `{Collaborators}.

(** [get_context_for_chat], run forward. *)
Lemma get_context_for_chat_run (self : RAGService.t) (query video_id : string)
    (max_frames : Z) (v : list Q) :
  encode query = Ok v ->
  get_context_for_chat self query video_id max_frames
  = (entries ←
       mapM entry_of_hit
         (Index.nearest (RAGService.frames_collection self) v (max_frames * 2)
            {[ "video_id" := MStr video_id ]});
     Ok {| Context.frames :=
             Py.slice_to
               (Py.sort_key_reverse FrameContext.relevance_score entries)
               max_frames;
           Context.transcript :=
             Py.join " "
               (map (fun h => Index.document (fst h))
                  (Index.nearest (RAGService.transcripts_collection self) v
                     (max_frames * 2) {[ "video_id" := MStr video_id ]})) |}).
Proof.
  intros Hv. unfold get_context_for_chat, search_relevant_content.
  rewrite Hv. unfold mbind, result_mbind, result_bind.
  cbn [SearchResults.frames SearchResults.transcript].
  rewrite query_ids. cbn [truthy_list].
  change (py_index [?l] 0) with (Ok l). cbv beta iota.
  rewrite mapM_frame_entry.
  destruct (mapM entry_of_hit _) as [entries|e]; [|reflexivity].
  rewrite (query_single (RAGService.transcripts_collection self)).
  cbn [Index.documents truthy_list].
  change (py_index [?l] 0) with (Ok l). reflexivity.
Qed.




(** X12. For a video of which the index holds neither a frame nor a
    transcript chunk, [get_context_for_chat] returns the empty context, no
    frames and the empty excerpt, whenever the query can be embedded. *)
Theorem get_context_for_chat_no_content (self : RAGService.t)
    (query video_id : string) (max_frames : Z) (v : list Q) :
  encode query = Ok v ->
  Forall (fun r => Index.metadata r !! "video_id" <> Some (MStr video_id))
    (RAGService.frames_collection self) ->
  Forall (fun r => Index.metadata r !! "video_id" <> Some (MStr video_id))
    (RAGService.transcripts_collection self) ->
  get_context_for_chat self query video_id max_frames
  = Ok {| Context.frames := []; Context.transcript := "" |}.
Proof.
  intros Hv Hframes Htranscripts.
  rewrite (get_context_for_chat_run _ _ _ _ v Hv).
  rewrite !nearest_none by done.
  cbn [mapM map]. unfold mbind, result_mbind, result_bind, mret, result_mret.
  unfold Py.slice_to, Py.sort_key_reverse. cbn [Py.sorted foldr].
  by rewrite slice_nil.
Qed.



End Retrieval.


Lemma get_context_for_chat_no_content_witness :
  encode (Collaborators := Demo.collaborators) "cat" = Ok [1; 0]%Q
  /\ Forall (fun r => Index.metadata r !! "video_id" <> Some (MStr "Z"))
       (RAGService.frames_collection Demo.two_videos)
  /\ Forall (fun r => Index.metadata r !! "video_id" <> Some (MStr "Z"))
       (RAGService.transcripts_collection Demo.two_videos)
  /\ get_context_for_chat (H := Demo.collaborators) Demo.two_videos "cat" "Z" 5
     = Ok {| Context.frames := []; Context.transcript := "" |}.
Proof.
  assert (Hframes :
    Forall (fun r => Index.metadata r !! "video_id" <> Some (MStr "Z"))
      (RAGService.frames_collection Demo.two_videos)).
  { apply (bool_decide_unpack _). vm_compute. exact I. }
  assert (Htranscripts :
    Forall (fun r => Index.metadata r !! "video_id" <> Some (MStr "Z"))
      (RAGService.transcripts_collection Demo.two_videos)).
  { apply (bool_decide_unpack _). vm_compute. exact I. }
  split; [reflexivity|]. split; [exact Hframes|]. split; [exact Htranscripts|].
  exact (get_context_for_chat_no_content (H := Demo.collaborators)
           Demo.two_videos "cat" "Z" 5 [1; 0]%Q eq_refl Hframes Htranscripts).
Defined.


(** ** The chat turn and the chat history *)

Section ChatHistory.
Context `{Collaborators}.

(** X14. A chat turn whose retrieval fails changes nothing: the exception
    leaves [chat_with_video] before any message is stored, any identifier
    drawn or the provider called. *)
Theorem chat_with_video_retrieval_failure (llm_service : LLMService.t)
    (request : ChatRequest.t) (s : App.t) (e : exception) :
  get_context_for_chat (App.rag s) (ChatRequest.message request)
    (ChatRequest.video_id request) (ChatRequest.max_context_frames request)
  = Raise e ->
  chat_with_video llm_service request s = (Raise e, s).
Proof.
  intros Hctx. unfold chat_with_video.
  unfold mbind, St_mbind, st_bind, st_get, st_lift. by rewrite Hctx.
Qed.

(** X15. A chat turn that completes has appended exactly two messages to
    the history of its video, after those that were there: the user's
    message, then the assistant's reply.  They carry the two identifiers
    drawn, in that order, the roles [user] and [assistant], the request's
    text and the response's text, and the ids of the context frames; the
    response names the assistant's message and returns one frame per
    context frame; the histories of other videos and the video records are
    untouched. *)
Theorem chat_with_video_history (llm_service : LLMService.t)
    (request : ChatRequest.t) (s s' : App.t) (response : ChatResponse.t) :
  chat_with_video llm_service request s = (Ok response, s') ->
  let video_id := ChatRequest.video_id request in
  exists context t1 t2,
    get_context_for_chat (App.rag s) (ChatRequest.message request) video_id
      (ChatRequest.max_context_frames request) = Ok context
    /\ App.chat_messages_db s'
       = <[video_id :=
             default [] (App.chat_messages_db s !! video_id)
             ++ [ChatMessage.mk (uuid4 (App.uuid_draws s)) video_id "user"
                   (ChatRequest.message request) t1
                   (map FrameContext.frame_id (Context.frames context));
                 ChatMessage.mk (uuid4 (S (App.uuid_draws s))) video_id
                   "assistant" (ChatResponse.response response) t2
                   (map FrameContext.frame_id (Context.frames context))]]>
           (App.chat_messages_db s)
    /\ ChatResponse.message_id response = uuid4 (S (App.uuid_draws s))
    /\ map VideoFrame.id (ChatResponse.context_frames response)
       = map FrameContext.frame_id (Context.frames context)
    /\ App.videos_db s' = App.videos_db s
    /\ App.uuid_draws s' = S (S (App.uuid_draws s)).
Proof.
  unfold chat_with_video. intros Hrun. cbv zeta.
  apply st_bind_Ok in Hrun as (s0 & ? & [= <- <-] & Hrun).
  apply st_bind_Ok in Hrun as (context & s1 & Hctx & Hrun).
  unfold st_lift in Hctx. injection Hctx as Hctx <-.
  apply st_bind_Ok in Hrun as (resp & s2 & Hgen & Hrun).
  assert (Hs2 : App.chat_messages_db s2 = App.chat_messages_db s
                /\ App.videos_db s2 = App.videos_db s
                /\ App.uuid_draws s2 = App.uuid_draws s).
  { revert Hgen. unfold generate_response, st_try, mbind, St_mbind, st_bind,
      st_lift, time, read_clock, mret, St_mret, st_ret. cbn beta iota.
    destruct (dispatch_generation _ _ _ _); intros [= _ <-]; done. }
  destruct Hs2 as (Hchat2 & Hvideos2 & Hdraws2). clear Hgen.
  apply st_bind_Ok in Hrun as (message_id & s3 & [= <- <-] & Hrun).
  apply st_bind_Ok in Hrun as (t1 & s4 & Hnow1 & Hrun).
  unfold now in Hnow1.
  apply st_bind_Ok in Hnow1 as (n1 & ? & [= <- <-] & [= <- <-]).
  apply st_bind_Ok in Hrun as ([] & s5 & [= <-] & Hrun).
  apply st_bind_Ok in Hrun as ([] & s6 & Happ1 & Hrun).
  apply st_bind_Ok in Hrun as ([] & s7 & Hadd & Hrun).
  apply st_bind_Ok in Hrun as (assistant_id & s8 & [= <- <-] & Hrun).
  apply st_bind_Ok in Hrun as (t2 & s9 & Hnow2 & Hrun).
  unfold now in Hnow2.
  apply st_bind_Ok in Hnow2 as (n2 & ? & [= <- <-] & [= <- <-]).
  apply st_bind_Ok in Hrun as ([] & s10 & Happ2 & Hrun).
  apply st_bind_Ok in Hrun as (frames & s11 & Hframes & Hrun).
  unfold st_lift in Hframes. injection Hframes as Hframes <-.
  injection Hrun as <- <-.
  cbn [ChatResponse.message_id ChatResponse.response
       ChatResponse.context_frames ChatMessage.id].
  (* the first append *)
  unfold append_message in Happ1.
  cbn [App.chat_messages_db App.set_chat_messages_db] in Happ1.
  set (old := App.chat_messages_db s2 !! ChatRequest.video_id request) in *.
  assert (Hs6 : App.chat_messages_db s6
                = <[ChatRequest.video_id request :=
                      default [] old
                      ++ [ChatMessage.mk (uuid4 (App.uuid_draws s2))
                            (ChatRequest.video_id request) "user"
                            (ChatRequest.message request)
                            (datetime_now (App.clock_reads s2))
                            (map FrameContext.frame_id (Context.frames context))]]>
                    (App.chat_messages_db s2)
                /\ App.videos_db s6 = App.videos_db s2
                /\ App.uuid_draws s6 = S (App.uuid_draws s2)).
  { destruct old as [l|] eqn:Hold; subst old.
    - cbn [App.chat_messages_db] in Happ1. rewrite Hold in Happ1.
      injection Happ1 as <-. done.
    - cbn [App.chat_messages_db App.set_chat_messages_db] in Happ1.
      rewrite lookup_insert_eq in Happ1. injection Happ1 as <-.
      cbn [App.chat_messages_db App.set_chat_messages_db App.videos_db
           App.uuid_draws default].
      by rewrite insert_insert_eq. }
  destruct Hs6 as (Hchat6 & Hvideos6 & Hdraws6). clear Happ1.
  (* indexing the user message *)
  unfold on_rag, st_zoom in Hadd.
  destruct (add_chat_message _ _) as [radd rag7]. injection Hadd as -> <-.
  (* the second append *)
  unfold append_message in Happ2.
  cbn [App.chat_messages_db App.set_rag] in Happ2.
  assert (Hl6 : App.chat_messages_db s6 !! ChatRequest.video_id request
                = Some (default [] old
                        ++ [ChatMessage.mk (uuid4 (App.uuid_draws s2))
                              (ChatRequest.video_id request) "user"
                              (ChatRequest.message request)
                              (datetime_now (App.clock_reads s2))
                              (map FrameContext.frame_id
                                 (Context.frames context))])).
  { rewrite Hchat6. apply lookup_insert_eq. }
  destruct (App.chat_messages_db s6 !! ChatRequest.video_id request)
    as [l6|] eqn:Hl6'; [|done].
  injection Hl6 as ->. injection Happ2 as <-.
  cbn [App.chat_messages_db App.set_chat_messages_db App.videos_db
       App.uuid_draws App.set_rag].
  exists context, (datetime_now (App.clock_reads s2)),
    (datetime_now (App.clock_reads s6)).
  split; [exact Hctx|]. rewrite Hchat6, insert_insert_eq.
  rewrite Hdraws6, Hdraws2, Hvideos6, Hvideos2. subst old.
  rewrite Hchat2, <- app_assoc. cbn [app].
  split; [reflexivity|]. split; [reflexivity|]. split; [|done].
  clear -Hframes. revert frames Hframes.
  induction (Context.frames context) as [|f fs IH]; intros frames Hframes.
  - by injection Hframes as <-.
  - change (mapM ?g (f :: fs)) with (y ← g f; k ← mapM g fs; mret (y :: k))
      in Hframes.
    unfold mbind at 1 2, result_mbind, result_bind in Hframes.
    destruct (as_float _); [|done]. destruct (as_str _); [|done].
    cbv beta iota in Hframes.
    destruct (mapM _ fs) as [rest|] eqn:Hrest; [|done].
    injection Hframes as <-. cbn [map VideoFrame.id]. f_equal. by apply IH.
Qed.

(** X16. Clearing the history of a video empties it and nothing else:
    afterwards [get_chat_history] returns no message for that video and
    what it returned before for every other video; the index, chat
    collection included, and the video records are untouched.  For a video
    without history [get_chat_history] returns the empty list and
    [clear_chat_history] changes nothing. *)
Theorem clear_chat_history_effect (video_id : string) (s : App.t) :
  let s' := snd (clear_chat_history video_id s) in
  fst (clear_chat_history video_id s) = Ok "Chat history cleared"
  /\ get_chat_history video_id s' = (Ok [], s')
  /\ (forall other, other <> video_id ->
        fst (get_chat_history other s') = fst (get_chat_history other s))
  /\ App.rag s' = App.rag s
  /\ App.videos_db s' = App.videos_db s
  /\ (App.chat_messages_db s !! video_id = None ->
      get_chat_history video_id s = (Ok [], s) /\ s' = s).
Proof.
  cbv zeta.
  unfold clear_chat_history, get_chat_history, mbind, St_mbind, st_bind,
    st_modify, st_get, mret, St_mret, st_ret.
  cbn [fst snd].
  destruct (App.chat_messages_db s !! video_id) as [l|] eqn:Hl;
    cbn [App.chat_messages_db App.set_chat_messages_db App.rag App.videos_db].
  - rewrite lookup_insert_eq. split; [reflexivity|]. split; [reflexivity|].
    split; [|done]. intros other Hother. rewrite lookup_insert_ne by done.
    by destruct (App.chat_messages_db s !! other).
  - rewrite ?Hl. split; [reflexivity|]. split; [reflexivity|].
    split; [done|]. split; [done|]. split; [done|].
    intros _. split; reflexivity.
Qed.

End ChatHistory.

Lemma chat_with_video_retrieval_failure_witness :
  get_context_for_chat (H := Demo.collaborators) Demo.two_videos
    "<corrupt> frame" "A" 5
  = Raise (Exn "RuntimeError" "embedding failed")
  /\ chat_with_video (H := Demo.collaborators)
       (LLMService.mk (Some Demo.echo_client) None)
       (ChatRequest.mk "A" "<corrupt> frame" true 5)
       (App.mk Demo.two_videos ∅ ∅ O O)
     = (Raise (Exn "RuntimeError" "embedding failed"),
        App.mk Demo.two_videos ∅ ∅ O O).
Proof.
  assert (Hctx :
    get_context_for_chat (H := Demo.collaborators) Demo.two_videos
      "<corrupt> frame" "A" 5
    = Raise (Exn "RuntimeError" "embedding failed")) by reflexivity.
  split; [exact Hctx|].
  exact (chat_with_video_retrieval_failure (H := Demo.collaborators)
           (LLMService.mk (Some Demo.echo_client) None)
           (ChatRequest.mk "A" "<corrupt> frame" true 5)
           (App.mk Demo.two_videos ∅ ∅ O O)
           (Exn "RuntimeError" "embedding failed") Hctx).
Defined.

Lemma chat_with_video_history_witness :
  exists response s',
    chat_with_video (H := Demo.collaborators)
      (LLMService.mk (Some Demo.echo_client) None)
      (ChatRequest.mk "A" "cat" true 5)
      (App.mk Demo.two_videos ∅ ∅ O O)
    = (Ok response, s')
    /\ ChatResponse.message_id response = "uuid-1"
    /\ App.uuid_draws s' = 2%nat
    /\ App.videos_db s' = ∅.
Proof.
  destruct (chat_with_video (H := Demo.collaborators)
              (LLMService.mk (Some Demo.echo_client) None)
              (ChatRequest.mk "A" "cat" true 5)
              (App.mk Demo.two_videos ∅ ∅ O O))
    as [[response|e] s'] eqn:Hrun; [|vm_compute in Hrun; discriminate].
  exists response, s'. split; [reflexivity|].
  destruct (chat_with_video_history (H := Demo.collaborators) _ _ _ _ _ Hrun)
    as (context & t1 & t2 & _ & _ & Hid & _ & Hvideos & Hdraws).
  split; [exact Hid|]. split; [exact Hdraws|exact Hvideos].
Defined.

(** ** Uploading a video *)

Section Upload.
Context `{Collaborators} `{UploadCollaborators}.

(** What a successful upload has done. *)
Lemma upload_video_Ok (file : UploadFile.t) (s s' : App.t)
    (response : VideoUploadResponse.t) (task : request) :
  Videos.upload_video file s = (Ok (response, task), s') ->
  let video_id := uuid4 (App.uuid_draws s) in
  let video_filename :=
    video_id +:+ "_" +:+ default "None" (UploadFile.filename file) in
  exists content_type size uploaded_at,
    UploadFile.content_type file = Some content_type
    /\ String.prefix "video/" content_type = true
    /\ UploadFile.size file = Some size
    /\ size <= 104857600
    /\ write_file (path_join UPLOAD_DIR video_filename)
         (UploadFile.content file) = Ok tt
    /\ validate_datetime (uuid4_time (S (App.uuid_draws s))) = Ok uploaded_at
    /\ response
       = VideoUploadResponse.mk video_id UPLOADING
           "Video uploaded successfully. Processing in background."
    /\ task = Upload video_id (path_join UPLOAD_DIR video_filename)
    /\ s' = App.mk (App.rag s)
              (<[video_id :=
                   VideoInfo.mk video_id video_filename
                     (if truthy_str (UploadFile.filename file)
                      then default "" (UploadFile.filename file)
                      else "unknown")
                     size None None None UPLOADING uploaded_at None None None
                     ∅]> (App.videos_db s))
              (App.chat_messages_db s) (S (S (App.uuid_draws s)))
              (App.clock_reads s).
Proof.
  unfold Videos.upload_video. intros Hrun. cbv zeta.
  apply st_bind_Ok in Hrun as (content_type & s1 & Htype & Hrun).
  unfold st_lift in Htype.
  destruct (UploadFile.content_type file) as [c|]; [|done].
  injection Htype as <- <-.
  destruct (String.prefix "video/" c) eqn:Hprefix; [|done].
  cbn [negb] in Hrun.
  apply st_bind_Ok in Hrun as (size & s1 & Hsize & Hrun).
  unfold st_lift in Hsize.
  destruct (UploadFile.size file) as [n|]; [|done].
  injection Hsize as <- <-.
  destruct (MAX_FILE_SIZE <? n) eqn:Hmax; [done|].
  apply Z.ltb_ge in Hmax.
  apply st_bind_Ok in Hrun as (video_id & s1 & [= <- <-] & Hrun).
  apply st_bind_Ok in Hrun as ([] & s2 & Hwrite & Hrun).
  unfold st_lift in Hwrite. injection Hwrite as Hwrite <-.
  apply st_bind_Ok in Hrun as (t & s3 & [= <- <-] & Hrun).
  apply st_bind_Ok in Hrun as (uploaded_at & s4 & Hvalid & Hrun).
  unfold st_lift in Hvalid. injection Hvalid as Hvalid <-.
  apply st_bind_Ok in Hrun as ([] & s5 & [= <-] & Hrun).
  injection Hrun as <- <- <-.
  exists c, n, uploaded_at.
  split; [reflexivity|]. split; [exact Hprefix|]. split; [reflexivity|].
  split; [exact Hmax|]. split; [exact Hwrite|]. split; [exact Hvalid|].
  split; [reflexivity|]. split; reflexivity.
Qed.

(** X17. An upload that is answered has drawn one identifier for the video,
    written the bytes under [UPLOAD_DIR/<id>_<filename>], stored one record
    under the identifier (status UPLOADING, the size the client declared,
    the client's file name or [unknown]) and scheduled the background task
    for that identifier and that path; the file was a video of at most
    100 MiB.  An upload that raises has stored no record.  Neither touches
    the index or the chat histories. *)
Theorem upload_video_outcome (file : UploadFile.t) (s s' : App.t)
    (r : result (VideoUploadResponse.t * request)) :
  Videos.upload_video file s = (r, s') ->
  App.rag s' = App.rag s
  /\ App.chat_messages_db s' = App.chat_messages_db s
  /\ match r with
     | Raise _ => App.videos_db s' = App.videos_db s
     | Ok (response, task) =>
         let video_id := uuid4 (App.uuid_draws s) in
         let video_path :=
           path_join UPLOAD_DIR
             (video_id +:+ "_" +:+ default "None" (UploadFile.filename file)) in
         exists content_type size video_info,
           UploadFile.content_type file = Some content_type
           /\ String.prefix "video/" content_type = true
           /\ UploadFile.size file = Some size
           /\ size <= 100 * 1024 * 1024
           /\ write_file video_path (UploadFile.content file) = Ok tt
           /\ VideoUploadResponse.video_id response = video_id
           /\ VideoUploadResponse.status response = UPLOADING
           /\ task = Upload video_id video_path
           /\ App.videos_db s' = <[video_id := video_info]> (App.videos_db s)
           /\ VideoInfo.id video_info = video_id
           /\ VideoInfo.status video_info = UPLOADING
           /\ VideoInfo.file_size video_info = size
           /\ VideoInfo.original_filename video_info
              = match UploadFile.filename file with
                | Some name => if String.eqb name "" then "unknown" else name
                | None => "unknown"
                end
           /\ VideoInfo.transcript video_info = None
     end.
Proof.
  intros Hrun. destruct r as [[response task]|e].
  - apply upload_video_Ok in Hrun
      as (c & n & t & Hc & Hprefix & Hn & Hmax & Hwrite & _ & -> & -> & ->).
    cbn [App.rag App.chat_messages_db App.videos_db].
    split; [reflexivity|]. split; [reflexivity|].
    cbv zeta. exists c, n. eexists.
    split; [exact Hc|]. split; [exact Hprefix|]. split; [exact Hn|].
    split; [exact Hmax|]. split; [exact Hwrite|].
    split; [reflexivity|]. split; [reflexivity|]. split; [reflexivity|].
    split; [reflexivity|]. split; [reflexivity|]. split; [reflexivity|].
    split; [reflexivity|]. split; [|reflexivity].
    cbn [VideoInfo.original_filename].
    destruct (UploadFile.filename file) as [name|]; [|reflexivity].
    cbn [truthy_str default]. by destruct (String.eqb name "").
  - revert Hrun. unfold Videos.upload_video.
    unfold mbind, St_mbind, st_bind, st_lift, draw_uuid4,
      Videos.draw_uuid4_time, st_modify, mret, St_mret, st_ret.
    destruct (UploadFile.content_type file) as [c|]; [|by intros [= _ <-]].
    destruct (negb (String.prefix "video/" c)); [by intros [= _ <-]|].
    destruct (UploadFile.size file) as [n|]; [|by intros [= _ <-]].
    destruct (MAX_FILE_SIZE <? n); [by intros [= _ <-]|].
    destruct (write_file _ _) as [[]|e1]; [|by intros [= _ <-]].
    destruct (validate_datetime _) as [t|e2]; [done|by intros [= _ <-]].
Qed.

(** X18. A file whose content type does not start with [video/] is refused
    with 400 [File must be a video], and a video that declares more than
    100 MiB with 400 [File too large], the type being checked first; in
    both cases nothing is written, no identifier is drawn and the state is
    as before.  A video of exactly 100 MiB passes both checks. *)
Theorem upload_video_rejected (file : UploadFile.t) (s : App.t)
    (content_type : string) (size : Z) :
  UploadFile.content_type file = Some content_type ->
  UploadFile.size file = Some size ->
  (String.prefix "video/" content_type = false ->
   Videos.upload_video file s
   = (Raise (HTTPException 400 "File must be a video"), s))
  /\ (String.prefix "video/" content_type = true ->
      100 * 1024 * 1024 < size ->
      Videos.upload_video file s
      = (Raise (HTTPException 400 "File too large"), s))
  /\ (String.prefix "video/" content_type = true ->
      size <= 100 * 1024 * 1024 ->
      forall e, fst (Videos.upload_video file s) = Raise e ->
        write_file
          (path_join UPLOAD_DIR
             (uuid4 (App.uuid_draws s) +:+ "_"
              +:+ default "None" (UploadFile.filename file)))
          (UploadFile.content file) = Raise e
        \/ validate_datetime (uuid4_time (S (App.uuid_draws s))) = Raise e).
Proof.
  intros Hc Hn.
  unfold Videos.upload_video.
  unfold mbind, St_mbind, st_bind, st_lift, draw_uuid4,
    Videos.draw_uuid4_time, st_modify, mret, St_mret, st_ret.
  rewrite Hc, Hn. split; [|split].
  - by intros ->.
  - intros -> Hbig. cbn [negb].
    replace (MAX_FILE_SIZE <? size) with true; [reflexivity|].
    symmetry. apply Z.ltb_lt. exact Hbig.
  - intros -> Hsmall e. cbn [negb].
    replace (MAX_FILE_SIZE <? size) with false
      by (symmetry; apply Z.ltb_ge; exact Hsmall).
    cbn [App.uuid_draws Videos.str_option].
    unfold Videos.str_option.
    destruct (write_file _ _) as [[]|e1]; cbn [fst].
    + destruct (validate_datetime _) as [t|e2]; cbn [fst]; [done|].
      intros [= <-]. by right.
    + intros [= <-]. by left.
Qed.

(** The names [process_video] gives a record. *)
Lemma process_video_names (video_path video_id : string) (s s' : App.t)
    (video_info : VideoInfo.t) :
  process_video video_path video_id s = (Ok video_info, s') ->
  VideoInfo.id video_info = video_id
  /\ VideoInfo.filename video_info = basename video_path
  /\ VideoInfo.original_filename video_info = basename video_path.
Proof.
  unfold process_video. intros Hrun.
  apply st_try_Ok in Hrun as [Hbody|(e & s1 & _ & Hhandler)].
  - apply st_bind_Ok in Hbody as (vi0 & s1 & Hmeta & Hbody).
    unfold _extract_video_metadata in Hmeta.
    apply st_bind_Ok in Hmeta as (size & s0 & _ & Hmeta).
    apply st_bind_Ok in Hmeta as (t0 & s0' & _ & Hmeta).
    injection Hmeta as <- <-.
    apply st_bind_Ok in Hbody as (frames & s2 & _ & Hbody).
    apply st_bind_Ok in Hbody as (t & s3 & _ & Hbody).
    injection Hbody as <- <-. done.
  - apply st_bind_Ok in Hhandler as (size & s2 & _ & Hhandler).
    apply st_bind_Ok in Hhandler as (t & s3 & _ & Hhandler).
    injection Hhandler as <- <-. done.
Qed.

(** X19. Upload, then the background task the upload scheduled: the video
    has a record, under the identifier the response named, that is READY or
    ERROR; in a READY record the [original_filename] is the [filename], the
    base name of the stored file [<id>_<client's name>], in place of the
    client's file name that the upload had stored; every other record is as
    before the upload, and so are the chat histories. *)
Theorem upload_then_process (file : UploadFile.t) (s s1 : App.t)
    (response : VideoUploadResponse.t) (task : request) :
  Videos.upload_video file s = (Ok (response, task), s1) ->
  let video_id := VideoUploadResponse.video_id response in
  let s2 := snd (handle task s1) in
  (exists v,
     App.videos_db s2 !! video_id = Some v
     /\ VideoInfo.id v = video_id
     /\ (VideoInfo.status v = READY \/ VideoInfo.status v = ERROR)
     /\ (VideoInfo.status v = READY ->
         VideoInfo.original_filename v = VideoInfo.filename v
         /\ VideoInfo.filename v
            = basename
                (path_join UPLOAD_DIR
                   (video_id +:+ "_"
                    +:+ default "None" (UploadFile.filename file)))))
  /\ (forall other, other <> video_id ->
        App.videos_db s2 !! other = App.videos_db s !! other)
  /\ App.chat_messages_db s2 = App.chat_messages_db s.
Proof.
  intros Hrun.
  apply upload_video_Ok in Hrun
    as (c & n & t & _ & _ & _ & _ & _ & _ & -> & -> & ->).
  cbv zeta. cbn [VideoUploadResponse.video_id handle].
  set (video_id := uuid4 (App.uuid_draws s)).
  set (video_path := path_join UPLOAD_DIR _).
  set (uploaded := VideoInfo.mk video_id _ _ n None None None UPLOADING t None
                     None None ∅).
  set (s1 := App.mk _ _ _ _ _).
  rewrite process_video_background_unfold. cbv zeta.
  set (s1' := App.set_videos_db _ s1).
  pose proof (process_video_keeps App.videos_db video_path video_id
                ltac:(done) ltac:(done) s1') as Hdb.
  pose proof (process_video_keeps App.chat_messages_db video_path video_id
                ltac:(done) ltac:(done) s1') as Hchat.
  destruct (process_video video_path video_id s1') as [[video_info|e] s2] eqn:Hpv;
    cbn [snd] in Hdb, Hchat.
  - pose proof (process_video_fields _ _ _ _ _ Hpv) as Hstatus.
    apply process_video_names in Hpv as (Hid & Hname & Horiginal).
    destruct (add_video_content video_info [] _) as [[[]|e] rag'];
      cbn [snd App.videos_db App.chat_messages_db App.set_rag
           App.set_videos_db];
      rewrite Hdb, ?Hchat; subst s1' s1;
      cbn [App.videos_db App.set_videos_db App.chat_messages_db].
    + split; [|split; [|reflexivity]].
      * exists video_info. rewrite lookup_insert_eq.
        split; [reflexivity|]. split; [exact Hid|].
        split; [destruct Hstatus as [[-> _]|[-> _]]; tauto|].
        intros _. by rewrite Horiginal, Hname.
      * intros other Hother.
        by rewrite lookup_insert_ne, lookup_alter_ne, lookup_insert_ne by done.
    + split; [|split; [|reflexivity]].
      * exists (mark_error e video_info).
        rewrite lookup_alter_eq, lookup_insert_eq.
        split; [reflexivity|]. split; [exact Hid|].
        split; [by right|]. intros [=].
      * intros other Hother.
        by rewrite lookup_alter_ne, lookup_insert_ne, lookup_alter_ne,
          lookup_insert_ne by done.
  - cbn [snd App.videos_db App.chat_messages_db App.set_videos_db].
    rewrite Hdb, Hchat. subst s1' s1.
    cbn [App.videos_db App.set_videos_db App.chat_messages_db].
    split; [|split; [|reflexivity]].
    + exists (mark_error e (set_status PROCESSING uploaded)).
      rewrite !lookup_alter_eq, lookup_insert_eq.
      split; [reflexivity|]. split; [reflexivity|].
      split; [by right|]. intros [=].
    + intros other Hother.
      by rewrite !lookup_alter_ne, lookup_insert_ne by done.
Qed.

(** X20. What was uploaded can be read back at once: under the identifier
    of the response, [get_video_info] returns a record that is UPLOADING
    and has the declared size, [get_video_transcript] returns no transcript
    and [get_video_frames] no frame; none of the three changes the state. *)
Theorem upload_then_read (file : UploadFile.t) (s s1 : App.t)
    (response : VideoUploadResponse.t) (task : request) :
  Videos.upload_video file s = (Ok (response, task), s1) ->
  let video_id := VideoUploadResponse.video_id response in
  (exists video_info,
     Videos.get_video_info video_id s1 = (Ok video_info, s1)
     /\ VideoInfo.id video_info = video_id
     /\ VideoInfo.status video_info = UPLOADING
     /\ UploadFile.size file = Some (VideoInfo.file_size video_info))
  /\ Videos.get_video_transcript video_id s1 = (Ok None, s1)
  /\ Videos.get_video_frames video_id s1 = (Ok [], s1).
Proof.
  intros Hrun.
  apply upload_video_Ok in Hrun
    as (c & n & t & _ & _ & Hn & _ & _ & _ & -> & _ & ->).
  cbv zeta. cbn [VideoUploadResponse.video_id].
  unfold Videos.get_video_info, Videos.get_video_transcript,
    Videos.get_video_frames, mbind, St_mbind, st_bind, st_get, mret, St_mret,
    st_ret.
  cbn [App.videos_db]. rewrite lookup_insert_eq.
  split; [|split; reflexivity].
  eexists. split; [reflexivity|]. split; [reflexivity|].
  split; [reflexivity|exact Hn].
Qed.

(** X21. The four reading routes answer 404 [Video not found] exactly for
    an identifier without record, and [stream_video] answers 404
    [Video file not found] for a record whose file is gone; a reading route
    never changes the state. *)
Theorem video_routes_unknown_id (video_id : string) (s : App.t) :
  let not_found := HTTPException 404 "Video not found" in
  (App.videos_db s !! video_id = None <->
   fst (Videos.get_video_info video_id s) = Raise not_found)
  /\ (App.videos_db s !! video_id = None <->
      fst (Videos.get_video_frames video_id s) = Raise not_found)
  /\ (App.videos_db s !! video_id = None <->
      fst (Videos.get_video_transcript video_id s) = Raise not_found)
  /\ (App.videos_db s !! video_id = None <->
      fst (Videos.stream_video video_id s) = Raise not_found)
  /\ (forall v,
        App.videos_db s !! video_id = Some v ->
        path_exists (path_join UPLOAD_DIR (VideoInfo.filename v)) = false ->
        fst (Videos.stream_video video_id s)
        = Raise (HTTPException 404 "Video file not found"))
  /\ snd (Videos.get_video_info video_id s) = s
  /\ snd (Videos.get_video_frames video_id s) = s
  /\ snd (Videos.get_video_transcript video_id s) = s
  /\ snd (Videos.stream_video video_id s) = s.
Proof.
  cbv zeta.
  unfold Videos.get_video_info, Videos.get_video_transcript,
    Videos.get_video_frames, Videos.stream_video, mbind, St_mbind, st_bind,
    st_get, st_lift, mret, St_mret, st_ret.
  destruct (App.videos_db s !! video_id) as [v|]; cbn [fst snd].
  - repeat split; try done.
    + destruct (negb (path_exists _)); cbn [fst]; [|done].
      intros Hdetail. vm_compute in Hdetail. discriminate.
    + intros w [= <-] ->. reflexivity.
    + by destruct (negb (path_exists _)).
  - repeat split; done.
Qed.

End Upload.

Lemma upload_video_outcome_witness :
  exists r s',
    @Videos.upload_video Demo.collaborators DemoUpload.collaborators
      DemoUpload.clip_file Demo.empty_app = (r, s')
    /\ App.rag s' = Demo.empty_rag
    /\ App.chat_messages_db s' = ∅.
Proof.
  destruct (@Videos.upload_video Demo.collaborators DemoUpload.collaborators
              DemoUpload.clip_file Demo.empty_app) as [r s'] eqn:Hrun.
  destruct (@upload_video_outcome Demo.collaborators DemoUpload.collaborators
              _ _ _ _ Hrun) as (Hrag & Hchat & _).
  exists r, s'. split; [reflexivity|]. split; [exact Hrag|exact Hchat].
Defined.

Lemma upload_video_rejected_witness :
  UploadFile.content_type DemoUpload.text_file = Some "text/plain"
  /\ UploadFile.size DemoUpload.text_file = Some 10
  /\ String.prefix "video/" "text/plain" = false
  /\ @Videos.upload_video Demo.collaborators DemoUpload.collaborators
       DemoUpload.text_file Demo.empty_app
     = (Raise (HTTPException 400 "File must be a video"), Demo.empty_app).
Proof.
  split; [reflexivity|]. split; [reflexivity|]. split; [reflexivity|].
  apply (proj1 (@upload_video_rejected Demo.collaborators
                  DemoUpload.collaborators DemoUpload.text_file Demo.empty_app
                  "text/plain" 10 eq_refl eq_refl)).
  reflexivity.
Defined.

Lemma upload_then_process_witness :
  exists response task s1,
    @Videos.upload_video Demo.collaborators DemoUpload.collaborators
      DemoUpload.clip_file Demo.empty_app = (Ok (response, task), s1)
    /\ exists v,
         App.videos_db (snd (handle (H := Demo.collaborators) task s1))
         !! VideoUploadResponse.video_id response = Some v
         /\ (VideoInfo.status v = READY \/ VideoInfo.status v = ERROR).
Proof.
  destruct (@Videos.upload_video Demo.collaborators DemoUpload.collaborators
              DemoUpload.clip_file Demo.empty_app)
    as [[[response task]|e] s1] eqn:Hrun; [|vm_compute in Hrun; discriminate].
  exists response, task, s1. split; [reflexivity|].
  destruct (@upload_then_process Demo.collaborators DemoUpload.collaborators
              _ _ _ _ _ Hrun) as ((v & Hv & _ & Hstatus & _) & _).
  exists v. split; [exact Hv|exact Hstatus].
Defined.

Lemma upload_then_read_witness :
  exists response task s1,
    @Videos.upload_video Demo.collaborators DemoUpload.collaborators
      DemoUpload.clip_file Demo.empty_app = (Ok (response, task), s1)
    /\ @Videos.get_video_transcript
         (VideoUploadResponse.video_id response) s1 = (Ok None, s1)
    /\ @Videos.get_video_frames
         (VideoUploadResponse.video_id response) s1 = (Ok [], s1).
Proof.
  destruct (@Videos.upload_video Demo.collaborators DemoUpload.collaborators
              DemoUpload.clip_file Demo.empty_app)
    as [[[response task]|e] s1] eqn:Hrun; [|vm_compute in Hrun; discriminate].
  exists response, task, s1. split; [reflexivity|].
  exact (proj2 (@upload_then_read Demo.collaborators DemoUpload.collaborators
                  _ _ _ _ _ Hrun)).
Defined.

(** ** Choosing a provider *)

Section Providers.
Context `{Collaborators}.

(** X22. With the model name of the settings, a configured OpenAI client
    answers every request, vision or text: what [generate_response]
    dispatches to is the same whether or not an Anthropic client is
    configured as well. *)
Theorem openai_client_takes_precedence (create : LLM.client)
    (anthropic_client : option LLM.client) (message : string)
    (context : Context.t) (use_vision : bool) :
  dispatch_generation (LLMService.mk (Some create) anthropic_client) message
    context use_vision
  = dispatch_generation (LLMService.mk (Some create) None) message context
      use_vision.
Proof.
  unfold dispatch_generation.
  destruct (use_vision && truthy_list (Context.frames context)); [|reflexivity].
  cbn [LLMService.openai_client].
  rewrite bool_decide_eq_true_2 by (by eexists).
  replace (Py.contains "gpt-4" (Settings.LLM_MODEL settings)) with true
    by (by vm_compute).
  reflexivity.
Qed.

(** X23. The confidence of a response is one of three constants: 0.9 only
    from a vision request (vision asked for, at least one context frame, a
    client configured), 0.8 only when a client is configured, 0.0
    otherwise, in particular whenever no client is configured. The
    processing time is the difference of the two clock readings the call
    makes, and the call changes nothing but the clock. *)
Theorem generate_response_confidence (self : LLMService.t) (message : string)
    (context : Context.t) (use_vision : bool) (s s' : App.t)
    (r : LLMResponse.t) :
  generate_response self message context use_vision s = (Ok r, s') ->
  let configured :=
    is_Some (LLMService.openai_client self)
    \/ is_Some (LLMService.anthropic_client self) in
  (LLMResponse.confidence r = 0%Q
   \/ (LLMResponse.confidence r = (8 # 10)%Q /\ configured)
   \/ (LLMResponse.confidence r = (9 # 10)%Q /\ configured
       /\ use_vision = true /\ Context.frames context <> []))
  /\ (~ configured -> LLMResponse.confidence r = 0%Q)
  /\ LLMResponse.processing_time r
     = Some (time_time (S (App.clock_reads s)) - time_time (App.clock_reads s))%Q
  /\ s' = App.mk (App.rag s) (App.videos_db s) (App.chat_messages_db s)
            (App.uuid_draws s) (S (S (App.clock_reads s))).
Proof.
  unfold generate_response, st_try, mbind, St_mbind, st_bind, st_lift, time,
    read_clock, mret, St_mret, st_ret.
  cbn beta iota. cbv zeta.
  destruct (dispatch_generation self message context use_vision) as [r0|e]
    eqn:Hdispatch.
  2:{ intros [= <- <-]. cbn [LLMResponse.confidence LLMResponse.processing_time].
      split; [by left|]. split; [done|]. split; reflexivity. }
  intros [= <- <-].
  cbn [LLMResponse.confidence LLMResponse.processing_time App.clock_reads
       App.rag App.videos_db App.chat_messages_db App.uuid_draws].
  split; [|split; [|split; reflexivity]].
  - revert Hdispatch. unfold dispatch_generation.
    assert (Htext : _generate_text_only_response self message context = Ok r0 ->
                    LLMResponse.confidence r0 = 0%Q
                    \/ (LLMResponse.confidence r0 = (8 # 10)%Q
                        /\ (is_Some (LLMService.openai_client self)
                            \/ is_Some (LLMService.anthropic_client self)))).
    { unfold _generate_text_only_response, _generate_openai_text_response,
        _generate_anthropic_text_response.
      destruct (LLMService.openai_client self) as [c1|].
      - destruct (c1 _) as [text|]; [|done]. intros [= <-]. right.
        split; [reflexivity|]. left. by eexists.
      - destruct (LLMService.anthropic_client self) as [c2|].
        + destruct (c2 _) as [text|]; [|done]. intros [= <-]. right.
          split; [reflexivity|]. right. by eexists.
        + intros [= <-]. by left. }
    destruct use_vision; cbn [andb];
      [|intros Hrun; destruct (Htext Hrun) as [?|?]; tauto].
    destruct (Context.frames context) as [|f fs] eqn:Hframes;
      cbn [truthy_list];
      [intros Hrun; destruct (Htext Hrun) as [?|?]; tauto|].
    destruct (bool_decide (is_Some (LLMService.openai_client self)) && _)
      eqn:Hopenai.
    + unfold _generate_openai_vision_response.
      destruct (LLMService.openai_client self) as [c1|]; [|done].
      destruct (c1 _) as [text|]; [|done]. intros [= <-].
      right. right. split; [reflexivity|]. split; [left; by eexists|done].
    + destruct (bool_decide (is_Some (LLMService.anthropic_client self))).
      * unfold _generate_anthropic_vision_response.
        destruct (LLMService.anthropic_client self) as [c2|]; [|done].
        destruct (c2 _) as [text|]; [|done]. intros [= <-].
        right. right. split; [reflexivity|]. split; [right; by eexists|done].
      * intros Hrun; destruct (Htext Hrun) as [?|?]; tauto.
  - intros Hnone. revert Hdispatch.
    destruct (LLMService.openai_client self) as [c1|] eqn:H1;
      [exfalso; apply Hnone; left; by eexists|].
    destruct (LLMService.anthropic_client self) as [c2|] eqn:H2;
      [exfalso; apply Hnone; right; by eexists|].
    unfold dispatch_generation, _generate_text_only_response.
    rewrite H1, H2.
    rewrite !bool_decide_eq_false_2 by (by intros [? [=]]).
    cbn [andb]. destruct (use_vision && _); by intros [= <-].
Qed.

(** X24. A service built from keys that are unset, empty or the
    placeholders of the sample configuration, or whose client constructors
    raise, answers every request with the configuration notice and
    confidence 0.0, without raising. *)
Theorem unconfigured_service_answers_notice
    (OPENAI_API_KEY ANTHROPIC_API_KEY : option string)
    (OpenAI Anthropic : string -> result LLM.client) (message : string)
    (context : Context.t) (use_vision : bool) (s : App.t) :
  (OPENAI_API_KEY = None \/ OPENAI_API_KEY = Some ""
   \/ OPENAI_API_KEY = Some "your_openai_key"
   \/ exists e, OpenAI (default "" OPENAI_API_KEY) = Raise e) ->
  (ANTHROPIC_API_KEY = None \/ ANTHROPIC_API_KEY = Some ""
   \/ ANTHROPIC_API_KEY = Some "your_anthropic_key"
   \/ exists e, Anthropic (default "" ANTHROPIC_API_KEY) = Raise e) ->
  exists r s',
    generate_response
      (LLMService_init OPENAI_API_KEY ANTHROPIC_API_KEY OpenAI Anthropic)
      message context use_vision s = (Ok r, s')
    /\ LLMResponse.content r
       = "I apologize, but no LLM service is configured. Please set up OpenAI or Anthropic API keys in your .env file."
    /\ LLMResponse.confidence r = 0%Q.
Proof.
  intros Hopenai Hanthropic.
  assert (Hinit :
    LLMService_init OPENAI_API_KEY ANTHROPIC_API_KEY OpenAI Anthropic
    = LLMService.mk None None).
  { unfold LLMService_init. cbv zeta. f_equal.
    - destruct Hopenai as [->|[->|[->|[e He]]]]; try reflexivity.
      rewrite He. by destruct (_ && _).
    - destruct Hanthropic as [->|[->|[->|[e He]]]]; try reflexivity.
      rewrite He. by destruct (_ && _). }
  rewrite Hinit.
  unfold generate_response, st_try, mbind, St_mbind, st_bind, st_lift, time,
    read_clock, mret, St_mret, st_ret.
  cbn beta iota.
  assert (Hdispatch :
    dispatch_generation (LLMService.mk None None) message context use_vision
    = Ok (LLMResponse.mk
            "I apologize, but no LLM service is configured. Please set up OpenAI or Anthropic API keys in your .env file."
            0 None)).
  { unfold dispatch_generation, _generate_text_only_response.
    cbn [LLMService.openai_client LLMService.anthropic_client].
    rewrite !bool_decide_eq_false_2 by (by intros [? [=]]).
    cbn [andb]. by destruct (use_vision && _). }
  rewrite Hdispatch. eexists. eexists. split; [reflexivity|]. done.
Qed.

(** X25. A vision request carries an image for those context frames only
    whose file exists and can be read, and nothing else of a frame: the
    frames whose image cannot be had are dropped without notice, so the
    answer is the one the provider gives for the loadable frames alone. *)
Theorem vision_ignores_unloadable_frames (self : LLMService.t)
    (message : string) (frames : list FrameContext.t) (transcript : string) :
  let loadable :=
    filter (fun frame => is_Some (load_frame_image frame)) frames in
  _generate_openai_vision_response self message
    (Context.mk frames transcript)
  = _generate_openai_vision_response self message
      (Context.mk loadable transcript)
  /\ _generate_anthropic_vision_response self message
       (Context.mk frames transcript)
     = _generate_anthropic_vision_response self message
         (Context.mk loadable transcript)
  /\ ((forall frame, frame ∈ frames ->
         match FrameContext.image_path frame with
         | MStr p => path_exists (str_replace p "/static/" "./data/") = false
         | _ => True
         end) ->
      loadable = []).
Proof.
  cbv zeta.
  assert (Homap : forall (B : Type) (g : string -> B),
    omap (fun frame => data ← load_frame_image frame; Some (g data)) frames
    = omap (fun frame => data ← load_frame_image frame; Some (g data))
        (filter (fun frame => is_Some (load_frame_image frame)) frames)).
  { intros B g. induction frames as [|f fs IH]; [reflexivity|].
    rewrite filter_cons.
    destruct (decide (is_Some (load_frame_image f))) as [[data Hload]|Hnone].
    - simpl. rewrite Hload. simpl. f_equal. exact IH.
    - simpl. destruct (load_frame_image f) as [data|];
        [exfalso; apply Hnone; by eexists|].
      simpl. exact IH. }
  split; [|split].
  - unfold _generate_openai_vision_response.
    cbn [Context.frames Context.transcript].
    destruct (LLMService.openai_client self) as [create|]; [|reflexivity].
    by rewrite <- Homap.
  - unfold _generate_anthropic_vision_response.
    cbn [Context.frames Context.transcript].
    destruct (LLMService.anthropic_client self) as [create|]; [|reflexivity].
    by rewrite <- Homap.
  - intros Hmissing. clear Homap.
    induction frames as [|f fs IH]; [reflexivity|].
    rewrite filter_cons.
    assert (Hf : load_frame_image f = None).
    { pose proof (Hmissing f ltac:(left)) as Hp. unfold load_frame_image.
      destruct (FrameContext.image_path f); try reflexivity.
      by rewrite Hp. }
    rewrite decide_False by (rewrite Hf; by intros [? [=]]).
    apply IH. intros frame Hin. apply Hmissing. by right.
Qed.

End Providers.

Lemma generate_response_confidence_witness :
  exists r s',
    generate_response (H := Demo.collaborators)
      (LLMService.mk (Some Demo.echo_client) None) "what is shown?"
      (Context.mk [] "the cat sat on the mat") true Demo.empty_app
    = (Ok r, s')
    /\ LLMResponse.processing_time r = Some 1%Q
    /\ App.clock_reads s' = 2%nat.
Proof.
  destruct (generate_response (H := Demo.collaborators)
              (LLMService.mk (Some Demo.echo_client) None) "what is shown?"
              (Context.mk [] "the cat sat on the mat") true Demo.empty_app)
    as [[r|e] s'] eqn:Hrun; [|vm_compute in Hrun; discriminate].
  exists r, s'. split; [reflexivity|].
  destruct (generate_response_confidence (H := Demo.collaborators)
              _ _ _ _ _ _ _ Hrun) as (_ & _ & Htime & ->).
  split; [|reflexivity]. rewrite Htime. reflexivity.
Defined.

Lemma unconfigured_service_answers_notice_witness :
  exists r s',
    generate_response (H := Demo.collaborators)
      (LLMService_init None (Some "your_anthropic_key")
         (fun _ => Ok Demo.echo_client) (fun _ => Ok Demo.echo_client))
      "what is shown?" (Context.mk [] "") true Demo.empty_app
    = (Ok r, s')
    /\ LLMResponse.content r
       = "I apologize, but no LLM service is configured. Please set up OpenAI or Anthropic API keys in your .env file."
    /\ LLMResponse.confidence r = 0%Q.
Proof.
  apply (unconfigured_service_answers_notice (H := Demo.collaborators)
           None (Some "your_anthropic_key")
           (fun _ => Ok Demo.echo_client) (fun _ => Ok Demo.echo_client)
           "what is shown?" (Context.mk [] "") true Demo.empty_app).
  - by left.
  - right. right. by left.
Defined.

(** ** The chunker outside its domain *)

(** X26. [_chunk_transcript] with a window that is not positive: a window
    of 0 raises [ValueError], for every transcript, the empty one included;
    a negative window returns no chunk at all, whatever the transcript, so
    the words are dropped without an error. *)
Theorem chunk_transcript_non_positive (transcript : string) (chunk_size : Z) :
  chunk_size <= 0 ->
  _chunk_transcript transcript chunk_size
  = if chunk_size =? 0
    then Raise (Exn "ValueError" "range() arg 3 must not be zero")
    else Ok [].
Proof.
  intros Hle. unfold _chunk_transcript, Py.range. cbv zeta.
  destruct (chunk_size =? 0) eqn:Hzero; [reflexivity|].
  apply Z.eqb_neq in Hzero.
  replace (0 <? chunk_size) with false by (symmetry; apply Z.ltb_ge; lia).
  replace (Z.to_nat (0 - Z.of_nat (length (Py.split transcript)))) with O
    by lia.
  reflexivity.
Qed.

Lemma chunk_transcript_non_positive_witness :
  -3 <= 0
  /\ _chunk_transcript "the cat sat on the mat" (-3) = Ok []
  /\ _chunk_transcript "" 0
     = Raise (Exn "ValueError" "range() arg 3 must not be zero").
Proof.
  split; [lia|]. split.
  - exact (chunk_transcript_non_positive "the cat sat on the mat" (-3)
             ltac:(lia)).
  - exact (chunk_transcript_non_positive "" 0 ltac:(lia)).
Defined.
